(** * geomeTRIC, [prepare.py]: the constraint-specification compiler

    A shallow embedding of [one_dimensional_scan] and [parse_constraints]
    (src/geometric/prepare.py, lines 361-616) together with the Python,
    numpy and itertools primitives they call, and the properties of the
    compiler stated in the specification.

    Conventions of the embedding:
    - a Python [str] is a [string] whose characters are code points below 256;
    - a Python [float] is a real number ([R]); rounding is not modelled;
    - a raised exception is the [Raise] case of [result];
    - [logger.info] calls do not influence the returned value and are left out;
    - the helpers imported from other modules of the package ([isint],
      [uncommadash], [Elements], [ang2bohr], [calc_fac_dfac]) and the builtin
      conversions [int] and [float] are fields of an [Externals] record that
      the compiler takes as an argument. *)

From Stdlib Require Import List String Ascii ZArith Reals Lia Lra Bool Arith.
From Stdlib Require Import DecimalString Permutation.
Import ListNotations.
Close Scope R_scope.
Open Scope string_scope.
Open Scope list_scope.

(** ** Exceptions and the error monad *)

Inductive exn : Type :=
| RuntimeError (msg : string)
| KeyError (key : string)
| UnboundLocalError (name : string)
| ValueError (what : string)
| IndexError.

Inductive result (A : Type) : Type :=
| Ok (a : A)
| Raise (e : exn).

Arguments Ok {A} a.
Arguments Raise {A} e.

Definition bind {A B : Type} (m : result A) (k : A -> result B) : result B :=
  match m with
  | Ok a => k a
  | Raise e => Raise e
  end.

Notation "x <- m ;; k" := (bind m (fun x => k))
  (at level 61, m at next level, right associativity).
Notation "' p <- m ;; k" := (bind m (fun x => match x with p => k end))
  (at level 61, p pattern, m at next level, right associativity).

(** A list comprehension whose body can raise: elements are evaluated from
    left to right and the first exception wins. *)
Fixpoint mapM {A B : Type} (f : A -> result B) (l : list A) : result (list B) :=
  match l with
  | [] => Ok []
  | a :: l' => b <- f a ;; bs <- mapM f l' ;; Ok (b :: bs)
  end.

(** [l[i]] for a non-negative index. *)
Definition item {A : Type} (l : list A) (i : nat) : result A :=
  match nth_error l i with
  | Some a => Ok a
  | None => Raise IndexError
  end.

(** [l[i:j]] for non-negative bounds. *)
Definition slice {A : Type} (l : list A) (i j : nat) : list A :=
  firstn (j - i) (skipn i l).

(** ** The methods of [str] that the compiler uses *)

Module PyStr.

Definition code (c : ascii) : nat := nat_of_ascii c.

(** [c.isspace()] on the code points below 256. *)
Definition isspace (c : ascii) : bool :=
  let n := code c in
  (((9 <=? n) && (n <=? 13)) || ((28 <=? n) && (n <=? 32))
   || (n =? 133) || (n =? 160))%nat.

Fixpoint lstrip (s : string) : string :=
  match s with
  | EmptyString => EmptyString
  | String c s' => if isspace c then lstrip s' else s
  end.

Fixpoint rstrip (s : string) : string :=
  match s with
  | EmptyString => EmptyString
  | String c s' =>
      match rstrip s' with
      | EmptyString => if isspace c then EmptyString else String c EmptyString
      | r => String c r
      end
  end.

(** [s.strip()] *)
Definition strip (s : string) : string := rstrip (lstrip s).

Definition lower_char (c : ascii) : ascii :=
  let n := code c in
  if (((65 <=? n) && (n <=? 90)) || ((192 <=? n) && (n <=? 214))
      || ((216 <=? n) && (n <=? 222)))%nat
  then ascii_of_nat (n + 32) else c.

(** [s.lower()] *)
Fixpoint lower (s : string) : string :=
  match s with
  | EmptyString => EmptyString
  | String c s' => String (lower_char c) (lower s')
  end.

(** [s.startswith(p)] *)
Definition startswith (s p : string) : bool := prefix p s.

(** [sub in s] *)
Fixpoint contains (sub s : string) : bool :=
  prefix sub s ||
  match s with
  | EmptyString => false
  | String _ s' => contains sub s'
  end.

(** [s.split(sep)] for a separator of one character. *)
Fixpoint split_char (sep : ascii) (s : string) : list string :=
  match s with
  | EmptyString => [EmptyString]
  | String c s' =>
      match split_char sep s' with
      | [] => [EmptyString]
      | w :: ws =>
          if Ascii.eqb c sep then EmptyString :: w :: ws
          else String c w :: ws
      end
  end.

(** [s.split()]: the maximal runs of characters that are not white space. *)
Fixpoint split (s : string) : list string :=
  match s with
  | EmptyString => []
  | String c s' =>
      if isspace c then split s'
      else match s' with
           | EmptyString => [String c EmptyString]
           | String d _ =>
               if isspace d then String c EmptyString :: split s'
               else match split s' with
                    | w :: ws => String c w :: ws
                    | [] => [String c EmptyString]
                    end
           end
  end.

(** [s.replace(old, "")] for a non-empty [old]: the occurrences of [old]
    are removed from left to right without overlap.  [skip] counts the
    characters of the current occurrence that are still to be dropped. *)
Fixpoint remove_from (old : string) (skip : nat) (s : string) : string :=
  match s with
  | EmptyString => EmptyString
  | String c s' =>
      match skip with
      | S k => remove_from old k s'
      | O =>
          if prefix old s then remove_from old (String.length old - 1) s'
          else String c (remove_from old 0 s')
      end
  end.

Definition remove (old s : string) : string := remove_from old 0 s.

Fixpoint insert_sorted (c : ascii) (l : list ascii) : list ascii :=
  match l with
  | [] => [c]
  | d :: l' => if (code c <=? code d)%nat then c :: l else d :: insert_sorted c l'
  end.

(** [sorted(s)]: the characters of [s] in increasing code-point order. *)
Fixpoint sorted (s : string) : list ascii :=
  match s with
  | EmptyString => []
  | String c s' => insert_sorted c (sorted s')
  end.

(** [''.join(l)] for a list of characters. *)
Definition join (l : list ascii) : string := string_of_list_ascii l.

(** [x in l] for a list of strings. *)
Definition mem (x : string) (l : list string) : bool :=
  existsb (String.eqb x) l.

(** ["%i" % n] for a non-negative integer. *)
Definition show_nat (n : nat) : string :=
  NilEmpty.string_of_uint (Nat.to_uint n).

End PyStr.

(** ** numpy *)

Module Np.

Local Open Scope R_scope.

(** [x % m] on floats, read on the real numbers: the remainder has the sign
    of the divisor.  For a positive [m] the real remainder is in [[0, m)];
    the float remainder is rounded, and can be [m] itself when [x] is
    negative and tiny against [m]. *)
Definition fmod (x m : R) : R := x - IZR (Int_part (x / m)) * m.

Definition set_last (y : list R) (v : R) : list R := removelast y ++ [v].

(** The samples of [np.linspace(start, stop, n)] with the default
    [endpoint=True]: [arange(0, n) * step + start] with
    [step = (stop - start) / (n - 1)], the last sample overwritten by [stop]
    when [n > 1].  (When [step] is zero numpy computes
    [arange(0, n) / (n - 1) * delta] instead, the same real number.) *)
Definition samples (start stop : R) (n : nat) : list R :=
  let div := (n - 1)%nat in
  let delta := stop - start in
  let y := map INR (seq 0 n) in
  let y := if (0 <? div)%nat
           then map (fun i => i * (delta / INR div)) y
           else map (fun i => i * delta) y in
  let y := map (fun v => v + start) y in
  if (1 <? n)%nat then set_last y stop else y.

(** [np.linspace(start, stop, num)]: a negative [num] raises [ValueError]. *)
Definition linspace (start stop : R) (num : Z) : result (list R) :=
  if (num <? 0)%Z
  then Raise (ValueError "Number of samples must be non-negative")
  else Ok (samples start stop (Z.to_nat num)).

(** [list(list(i) for i in np.array(cols).T)] for a list of equally long
    one-dimensional arrays: an empty list is an array of shape [(0,)], whose
    transpose has no rows. *)
Fixpoint transpose {A : Type} (cols : list (list A)) : list (list A) :=
  match cols with
  | [] => []
  | c :: cs =>
      match cs with
      | [] => map (fun x => [x]) c
      | _ :: _ => map (fun p => fst p :: snd p) (combine c (transpose cs))
      end
  end.

Definition vec3 : Type := R * R * R.

Definition scale3 (k : R) (p : vec3) : vec3 :=
  let '(x, y, z) := p in (x * k, y * k, z * k).

Definition sub3 (p q : vec3) : vec3 :=
  let '(x, y, z) := p in let '(a, b, c) := q in (x - a, y - b, z - c).

Definition sumsq3 (p : vec3) : R :=
  let '(x, y, z) := p in x * x + y * y + z * z.

Definition sum (l : list R) : R := fold_right Rplus 0 l.

(** [np.mean(l)]; for an empty array numpy returns nan, for which the
    quotient by zero stands here. *)
Definition mean (l : list R) : R := sum l / INR (List.length l).

(** [np.mean(rows, axis=0)] for an array of shape [(n, 3)]. *)
Definition mean_axis0 (rows : list vec3) : vec3 :=
  (mean (map (fun p => fst (fst p)) rows),
   mean (map (fun p => snd (fst p)) rows),
   mean (map snd rows)).

(** [a[i]] along the first axis: a negative index counts from the end and an
    index outside [-n, n) raises [IndexError]. *)
Definition row {A : Type} (a : list A) (i : Z) : result A :=
  let n := Z.of_nat (List.length a) in
  if ((i <? - n) || (n <=? i))%Z then Raise IndexError
  else item a (Z.to_nat (if (i <? 0)%Z then i + n else i)).

(** [a[idx, :]] for a list of row indices. *)
Definition take (a : list vec3) (idx : list Z) : result (list vec3) :=
  mapM (row a) idx.

(** [np.linalg.norm(u)] for a vector of three components. *)
Definition norm3 (u : vec3) : R := sqrt (sumsq3 u).

End Np.

(** ** itertools *)

Module Itertools.

(** [itertools.product] applied to the unpacked list of pools, after the
    reference implementation of the library documentation:
    [result = [[]]], then for each pool
    [result = [x + [y] for x in result for y in pool]]. *)
Definition product {A : Type} (pools : list (list A)) : list (list A) :=
  fold_left
    (fun result pool => flat_map (fun x => map (fun y => x ++ [y]) pool) result)
    pools [[]].

(** [itertools.chain] applied to the unpacked list of lists. *)
Definition chain {A : Type} (ls : list (list A)) : list A := List.concat ls.

End Itertools.

(** ** The collaborators of the compiler *)

(** The constructors of [geometric.internal] that [ClassDict] names. *)
Inductive CoordClass : Type :=
| Distance | Angle | Dihedral
| CartesianX | CartesianY | CartesianZ
| TranslationX | TranslationY | TranslationZ
| RotationA | RotationB | RotationC.

(** A coordinate object is the record of the constructor call that made it;
    there is one case for each shape of call in [parse_constraints]. *)
Inductive CoordObj : Type :=
| OnAtom (cls : CoordClass) (a : Z) (w : R)
    (* cls(a, w=1.0) *)
| OnGroup (cls : CoordClass) (atoms : list Z) (w : list R)
    (* cls(atoms, w=np.ones(len(atoms))/len(atoms)) *)
| OnAtoms (cls : CoordClass) (atoms : list Z)
    (* classes[0] called on the unpacked list atoms *)
| OnRotor (cls : CoordClass) (atoms : list Z) (coords : list Np.vec3) (w : R)
    (* cls(atoms, coords, {}, w=rg) *).

(** The attributes of [Molecule] that the compiler reads: [na], [elem] and
    the first frame [xyzs[0]], an array of shape [(na, 3)]. *)
Record Molecule : Type := {
  na : nat;
  elem : list string;
  xyzs0 : list Np.vec3
}.

(** What [prepare.py] imports from [nifty], [molecule] and [rotate], and the
    builtin conversions.  [calc_fac] is the first component of
    [calc_fac_dfac]. *)
Record Externals : Type := {
  isint : string -> bool;
  uncommadash : string -> result (list Z);
  Elements : list string;
  py_int : string -> result Z;
  py_float : string -> result R;
  ang2bohr : R;
  calc_fac : R -> R
}.

(** ** [one_dimensional_scan] (lines 361-386) *)

Definition one_dimensional_scan (init final : list R) (steps : Z)
  : result (list (list R)) :=
  if negb (List.length init =? List.length final)%nat
  then Raise (RuntimeError "init and final must have the same length")
  else
    Answer <- mapM (fun p => Np.linspace (fst p) (snd p) steps)
                   (combine init final) ;;
    Ok (Np.transpose Answer).

(** ** [parse_constraints] (lines 389-616) *)

(** A constraint value is [None] (frozen) or a float. *)
Definition value : Type := option R.

Definition ClassDict : list (string * (list CoordClass * nat)) :=
  [ ("distance", ([Distance], 2%nat));
    ("angle", ([Angle], 3%nat));
    ("dihedral", ([Dihedral], 4%nat));
    ("x", ([CartesianX], 1%nat));
    ("y", ([CartesianY], 1%nat));
    ("z", ([CartesianZ], 1%nat));
    ("xy", ([CartesianX; CartesianY], 1%nat));
    ("xz", ([CartesianX; CartesianZ], 1%nat));
    ("yz", ([CartesianY; CartesianZ], 1%nat));
    ("xyz", ([CartesianX; CartesianY; CartesianZ], 1%nat));
    ("trans-x", ([TranslationX], 1%nat));
    ("trans-y", ([TranslationY], 1%nat));
    ("trans-z", ([TranslationZ], 1%nat));
    ("trans-xy", ([TranslationX; TranslationY], 1%nat));
    ("trans-xz", ([TranslationX; TranslationZ], 1%nat));
    ("trans-yz", ([TranslationY; TranslationZ], 1%nat));
    ("trans-xyz", ([TranslationX; TranslationY; TranslationZ], 1%nat));
    ("rotation", ([RotationA; RotationB; RotationC], 1%nat)) ].

Definition AtomKeys : list string := ["x"; "y"; "z"; "xy"; "yz"; "xz"; "xyz"].

Definition TransKeys : list string :=
  ["trans-x"; "trans-y"; "trans-z"; "trans-xy"; "trans-yz"; "trans-xz";
   "trans-xyz"].

(** [d[key]] on a dict literal: the value of the entry, [KeyError] without. *)
Fixpoint getitem {V : Type} (d : list (string * V)) (key : string) : result V :=
  match d with
  | [] => Raise (KeyError key)
  | (k, v) :: d' => if String.eqb k key then Ok v else getitem d' key
  end.

(** Lines 458-461: the letters of an axis key are sorted, with or without
    the prefix [trans-]. *)
Definition normalize_key (key : string) : string :=
  if PyStr.mem (PyStr.join (PyStr.sorted key)) AtomKeys
  then PyStr.join (PyStr.sorted key)
  else if PyStr.mem (PyStr.join (PyStr.sorted (PyStr.remove "trans-" key)))
                    AtomKeys
  then String.append "trans-"
         (PyStr.join (PyStr.sorted (PyStr.remove "trans-" key)))
  else key.

(** The local variables of [parse_constraints] that live across the
    iterations of the loop over the lines.  [ntok] is assigned under the
    three known modes only and keeps its value from one line to the next. *)
Record state : Type := {
  mode : option string;
  ntok : option nat;
  objs : list (list CoordObj);
  vals : list (list (list value));
  in_options : bool
}.

Definition initial_state : state :=
  {| mode := None; ntok := None; objs := []; vals := []; in_options := false |}.

Definition mode_message : string :=
  "Mode ($freeze, $set, $scan) must be set before specifying any constraints".

Definition newline : string := String (ascii_of_nat 10) EmptyString.

(** ["For this line:%s\nExpected %i tokens but got %i" % (line, e, a)] *)
Definition token_message (line : string) (expected actual : nat) : string :=
  String.append "For this line:"
    (String.append line
       (String.append newline
          (String.append "Expected "
             (String.append (PyStr.show_nat expected)
                (String.append " tokens but got " (PyStr.show_nat actual)))))).

Definition negative_message : string := "Atom numbers must start from 1".

Definition too_high_message : string :=
  "Constraints refer to higher atom indices than the number of atoms".

Definition length_message : string := "objs and vals should be the same length".

(** Lines 463-474. *)
Definition assign_ntok (mode key : string) (classes : list CoordClass)
    (n_atom : nat) (old : option nat) : option nat :=
  if String.eqb mode "freeze" then Some n_atom
  else if String.eqb mode "set" then
    if String.eqb key "rotation" then Some (n_atom + 4)%nat
    else Some (n_atom + List.length classes)%nat
  else if String.eqb mode "scan" then
    if String.eqb key "rotation" then Some (n_atom + 6)%nat
    else Some (n_atom + 2 * List.length classes + 1)%nat
  else old.

(** Lines 485-488 and 543-546. *)
Definition check_atoms (molecule : Molecule) (atoms : list Z) : result unit :=
  if existsb (fun i => (i <? 0)%Z) atoms
  then Raise (RuntimeError negative_message)
  else if existsb (fun i => (Z.of_nat (na molecule) <=? i)%Z) atoms
  then Raise (RuntimeError too_high_message)
  else Ok tt.

(** Line 446: [line.split("#")[0].strip().lower()] *)
Definition clean (line : string) : string :=
  PyStr.lower (PyStr.strip (hd EmptyString (PyStr.split_char "#" line))).

Section Compiler.

Variable ext : Externals.
Variable molecule : Molecule.

Local Open Scope R_scope.

(** Line 433. *)
Definition coords : list Np.vec3 :=
  map (Np.scale3 (ang2bohr ext)) (xyzs0 molecule).

(** [[float(i) * ang2bohr for i in toks]] *)
Definition lengths (toks : list string) : result (list R) :=
  mapM (fun i => f <- py_float ext i ;; Ok (f * ang2bohr ext)) toks.

(** Lines 479-484. *)
Definition select_atoms (s1 : string) : result (list Z) :=
  if isint ext s1 then
    i <- py_int ext s1 ;; Ok [(i - 1)%Z]
  else if PyStr.mem s1 (map PyStr.lower (Elements ext)) then
    picked <- mapM (fun i => e <- item (elem molecule) i ;;
                             Ok (i, String.eqb (PyStr.lower e) s1))
                   (seq 0 (na molecule)) ;;
    Ok (map (fun p => Z.of_nat (fst p)) (filter snd picked))
  else uncommadash ext s1.

Definition with_mode (st : state) (m : option string) : state :=
  {| mode := m; ntok := ntok st; objs := objs st; vals := vals st;
     in_options := in_options st |}.

Definition with_ntok (st : state) (n : option nat) : state :=
  {| mode := mode st; ntok := n; objs := objs st; vals := vals st;
     in_options := in_options st |}.

Definition with_in_options (st : state) (b : bool) : state :=
  {| mode := mode st; ntok := ntok st; objs := objs st; vals := vals st;
     in_options := b |}.

Definition with_groups (st : state) (o : list (list CoordObj))
    (v : list (list (list value))) : state :=
  {| mode := mode st; ntok := ntok st; objs := objs st ++ o;
     vals := vals st ++ v; in_options := in_options st |}.

(** Lines 489-508: atom position constraints. *)
Definition atom_branch (md : string) (s : list string)
    (classes : list CoordClass) (atoms : list Z) (st : state) : result state :=
  let k := List.length classes in
  let o := map (fun cls => map (fun a => OnAtom cls a 1) atoms) classes in
  if String.eqb md "freeze" then
    Ok (with_groups st o
          (map (fun _ => [map (fun _ => @None R) atoms]) classes))
  else if String.eqb md "set" then
    x1 <- lengths (slice s 2 (2 + k)) ;;
    v <- mapM (fun icls =>
                 r <- mapM (fun _ => item x1 icls) atoms ;;
                 Ok [map (@Some R) r])
              (seq 0 k) ;;
    Ok (with_groups st o v)
  else if String.eqb md "scan" then
    x1 <- lengths (slice s 2 (2 + k)) ;;
    x2 <- lengths (slice s (2 + k) (2 + 2 * k)) ;;
    t <- item s (2 + 2 * k) ;;
    nstep <- py_int ext t ;;
    valscan <- one_dimensional_scan x1 x2 nstep ;;
    v <- mapM (fun icls =>
                 mapM (fun vrow =>
                         r <- mapM (fun _ => item vrow icls) atoms ;;
                         Ok (map (@Some R) r))
                      valscan)
              (seq 0 k) ;;
    Ok (with_groups st o v)
  else Ok (with_groups st o []).

(** Lines 509-532: translation constraints. *)
Definition trans_branch (md : string) (s : list string)
    (classes : list CoordClass) (atoms : list Z) (st : state) : result state :=
  let k := List.length classes in
  o <- (if (1 <? List.length atoms)%nat then
          Ok (map (fun cls =>
                     OnGroup cls atoms
                       (map (fun _ => 1 / INR (List.length atoms)) atoms))
                  classes)
        else
          mapM (fun cls => a <- item atoms 0 ;; Ok (OnAtom cls a 1)) classes) ;;
  if String.eqb md "freeze" then
    Ok (with_groups st [o] [[map (fun _ => @None R) classes]])
  else if String.eqb md "set" then
    x1 <- lengths (slice s 2 (2 + k)) ;;
    Ok (with_groups st [o] [[map (@Some R) x1]])
  else if String.eqb md "scan" then
    x1 <- lengths (slice s 2 (2 + k)) ;;
    x2 <- lengths (slice s (2 + k) (2 + 2 * k)) ;;
    t <- item s (2 + 2 * k) ;;
    nstep <- py_int ext t ;;
    valscan <- one_dimensional_scan x1 x2 nstep ;;
    Ok (with_groups st [o] [map (map (@Some R)) valscan])
  else Ok (with_groups st [o] []).

(** Lines 537-542: the atoms are reversed so that the outer atoms of a
    distance or an angle, and the inner atoms of a dihedral, are ascending. *)
Definition canonical_order (key : string) (atoms : list Z) : result (list Z) :=
  atoms <- (if String.eqb key "distance" then
              a0 <- item atoms 0 ;; a1 <- item atoms 1 ;;
              Ok (if (a1 <? a0)%Z then rev atoms else atoms)
            else Ok atoms) ;;
  atoms <- (if String.eqb key "angle" then
              a0 <- item atoms 0 ;; a2 <- item atoms 2 ;;
              Ok (if (a2 <? a0)%Z then rev atoms else atoms)
            else Ok atoms) ;;
  if String.eqb key "dihedral" then
    a1 <- item atoms 1 ;; a2 <- item atoms 2 ;;
    Ok (if (a2 <? a1)%Z then rev atoms else atoms)
  else Ok atoms.

(** [float(t) * ang2bohr] for a distance, [float(t)*np.pi/180.0] otherwise. *)
Definition primitive_value (key t : string) : result R :=
  f <- py_float ext t ;;
  Ok (if String.eqb key "distance" then f * ang2bohr ext else f * PI / 180).

(** Lines 533-559: distance, angle and dihedral constraints. *)
Definition primitive_branch (md key : string) (s : list string)
    (classes : list CoordClass) (n_atom : nat) (st : state) : result state :=
  if negb (List.length classes =? 1)%nat then Raise (RuntimeError "Not OK!")
  else
    atoms <- mapM (fun i => n <- py_int ext i ;; Ok (n - 1)%Z)
                  (slice s 1 (1 + n_atom)) ;;
    atoms <- canonical_order key atoms ;;
    _ <- check_atoms molecule atoms ;;
    cls <- item classes 0 ;;
    let o := [[OnAtoms cls atoms]] in
    if String.eqb md "freeze" then
      Ok (with_groups st o [[[@None R]]])
    else if PyStr.mem md ["set"; "scan"] then
      t1 <- item s (1 + n_atom) ;;
      x1 <- primitive_value key t1 ;;
      if String.eqb md "set" then
        Ok (with_groups st o [[[Some x1]]])
      else
        t2 <- item s (2 + n_atom) ;;
        x2 <- primitive_value key t2 ;;
        t3 <- item s (3 + n_atom) ;;
        nstep <- py_int ext t3 ;;
        grid <- Np.linspace x1 x2 nstep ;;
        Ok (with_groups st o [map (fun i => [Some i]) grid])
    else Ok (with_groups st o []).

(** Lines 563-565: the weight of the rotation coordinates. *)
Definition radius_of_gyration (atoms : list Z) : result R :=
  sel <- Np.take coords atoms ;;
  let sel := map (Np.scale3 (ang2bohr ext)) sel in
  let center := Np.mean_axis0 sel in
  let sel := map (fun p => Np.sub3 p center) sel in
  Ok (sqrt (Np.mean (map Np.sumsq3 sel))).

(** Lines 581 and 602: the periodic image of the angle inside the pi-sphere. *)
Definition wrap_angle (theta : R) : R := Np.fmod (theta + PI) (2 * PI) - PI.

(** Lines 581-588 and 602-609: the three constraint values of a rotation by
    [theta] about the unit axis [u]. *)
Definition rotation_values (u : Np.vec3) (rg theta : R) : list value :=
  let '(u0, u1, u2) := u in
  let theta3 := wrap_angle theta in
  let c := cos (theta3 / 2) in
  let sn := sin (theta3 / 2) in
  let fac := calc_fac ext c in
  [Some (fac * (u0 * sn) * rg); Some (fac * (u1 * sn) * rg);
   Some (fac * (u2 * sn) * rg)].

(** Lines 560-611: rotation constraints. *)
Definition rotation_branch (md : string) (s : list string)
    (classes : list CoordClass) (st : state) : result state :=
  s1 <- item s 1 ;;
  atoms <- uncommadash ext s1 ;;
  rg <- radius_of_gyration atoms ;;
  if String.eqb md "freeze" then
    Ok (with_groups st
          (map (fun cls => [OnRotor cls atoms coords rg]) classes)
          (map (fun _ => [[@None R]]) classes))
  else if PyStr.mem md ["set"; "scan"] then
    let o := [map (fun cls => OnRotor cls atoms coords rg) classes] in
    u <- mapM (fun i => t <- item s i ;; py_float ext t) [2; 3; 4]%nat ;;
    let u := match u with
             | [x; y; z] =>
                 let n := Np.norm3 (x, y, z) in (x / n, y / n, z / n)
             | _ => (0, 0, 0)
             end in
    t5 <- item s 5 ;;
    f1 <- py_float ext t5 ;;
    let theta1 := f1 * PI / 180 in
    if String.eqb md "set" then
      Ok (with_groups st o [[rotation_values u rg theta1]])
    else
      t6 <- item s 6 ;;
      f2 <- py_float ext t6 ;;
      let theta2 := f2 * PI / 180 in
      t7 <- item s 7 ;;
      steps <- py_int ext t7 ;;
      thetas <- Np.linspace theta1 theta2 steps ;;
      Ok (with_groups st o [map (rotation_values u rg) thetas])
  else Ok st.

(** Lines 454-611: a declaration line, already stripped and lower-cased. *)
Definition declaration (st : state) (line : string) : result state :=
  match mode st with
  | None => Raise (RuntimeError mode_message)
  | Some md =>
      let s := PyStr.split line in
      key <- item s 0 ;;
      let key := normalize_key key in
      '(classes, n_atom) <- getitem ClassDict key ;;
      match assign_ntok md key classes n_atom (ntok st) with
      | None => Raise (UnboundLocalError "ntok")
      | Some n =>
          if negb (List.length s =? n + 1)%nat
          then Raise (RuntimeError (token_message line (n + 1) (List.length s)))
          else
            let st := with_ntok st (Some n) in
            if PyStr.mem key AtomKeys || PyStr.mem key TransKeys then
              s1 <- item s 1 ;;
              atoms <- select_atoms s1 ;;
              _ <- check_atoms molecule atoms ;;
              if PyStr.mem key AtomKeys
              then atom_branch md s classes atoms st
              else trans_branch md s classes atoms st
            else if PyStr.mem key ["distance"; "angle"; "dihedral"] then
              primitive_branch md key s classes n_atom st
            else if PyStr.mem key ["rotation"] then
              rotation_branch md s classes st
            else Ok st
      end
  end.

(** Lines 436-611: the body of the loop over the lines. *)
Definition step (st : state) (line : string) : result state :=
  let entered := if PyStr.contains "$options" line then true
                 else in_options st in
  if entered then
    Ok (with_in_options st (negb (PyStr.contains "$end" line)))
  else
    let line := clean line in
    if (String.length line =? 0)%nat then Ok st
    else if PyStr.startswith line "$" then
      Ok (with_mode st (Some (PyStr.remove "$" line)))
    else declaration st line.

Fixpoint run (st : state) (lines : list string) : result state :=
  match lines with
  | [] => Ok st
  | l :: ls => st' <- step st l ;; run st' ls
  end.

(** Lines 612-616. *)
Definition finish (st : state) : result (list CoordObj * list (list value)) :=
  if negb (List.length (objs st) =? List.length (vals st))%nat
  then Raise (RuntimeError length_message)
  else Ok (Itertools.chain (objs st),
           map (fun i => Itertools.chain i) (Itertools.product (vals st))).

Definition parse_lines (lines : list string)
  : result (list CoordObj * list (list value)) :=
  st <- run initial_state lines ;; finish st.

Definition parse_constraints (constraints_string : string)
  : result (list CoordObj * list (list value)) :=
  parse_lines (PyStr.split_char (ascii_of_nat 10) constraints_string).

End Compiler.

(** ** [get_molecule_engine] (lines 55-359)

    The engines, the molecule loader and the file system are outside the
    sources; what follows are the decisions that the function takes on its
    keyword arguments, each as a function of the variables it reads. *)

Module Engine.

(** [radii[key] = v] on a dict: the entry of [key] is overwritten where it
    stands, a new key is added at the end. *)
Fixpoint setitem {V : Type} (d : list (string * V)) (key : string) (v : V)
  : list (string * V) :=
  match d with
  | [] => [(key, v)]
  | (k, w) :: d' =>
      if String.eqb k key then (k, v) :: d' else (k, w) :: setitem d' key v
  end.

(** A [for] loop whose body can raise, over the list of its iterations. *)
Fixpoint foldM {A S : Type} (f : S -> A -> result S) (l : list A) (acc : S)
  : result S :=
  match l with
  | [] => Ok acc
  | a :: l' => acc' <- f acc a ;; foldM f l' acc'
  end.

Definition default_radii : list string := ["Na"; "0.0"; "K"; "0.0"].

Definition radii_message : string :=
  "Must have an even number of arguments for radii".

Section Radii.

(** The builtins [str.capitalize] and [float]. *)
Variable capitalize : string -> string.
Variable py_float : string -> result R.

(** Lines 122-128.  [radii_arg] is the value of the keyword [radii], [None]
    when the keyword is absent.  In the assignment the right-hand side is
    evaluated before the key. *)
Definition parse_radii (radii_arg : option (list string))
  : result (list (string * R)) :=
  let arg_radii := match radii_arg with
                   | Some l => l
                   | None => default_radii
                   end in
  if negb (List.length arg_radii mod 2 =? 0)%nat
  then Raise (RuntimeError radii_message)
  else
    let nrad := (List.length arg_radii / 2)%nat in
    foldM (fun radii i =>
             t <- item arg_radii (2 * i + 1) ;;
             v <- py_float t ;;
             k <- item arg_radii (2 * i) ;;
             Ok (setitem radii (capitalize k) v))
          (seq 0 nrad) [].

End Radii.

(** Line 136. *)
Definition implemented_engines : list string :=
  ["tera"; "qchem"; "psi4"; "gmx"; "molpro"; "openmm"; "qcengine";
   "gaussian"; "ase"; "quick"].

(** The branch of lines 141-326 that builds the engine. *)
Inductive branch : Type :=
| OnTera | OnQChem | OnGmx | OnOpenMM | OnPsi4 | OnMolpro | OnGaussian
| OnQuick | OnQCEngine | OnAse | OnCustom.

Definition valid_message : string :=
  String.append "Valid values of engine are: "
    (String.concat ", " implemented_engines).

Definition both_message : string :=
  "engine and customengine cannot simultaneously be set".

Definition fallback_message : string :=
  "Failed to create an engine object, this might be a bug in get_molecule_engine".

Definition neither_message : string :=
  String.append "Neither engine name nor customengine object was provided."
    newline.

(** Lines 133-135: [engine_str.lower()], replaced by ['tera'] when its first
    four characters are ['tera']. *)
Definition normalize_engine (engine_str : string) : string :=
  let e := PyStr.lower engine_str in
  if String.eqb (substring 0 4 e) "tera" then "tera" else e.

(** Lines 132-141, 187, 202, 210, 218, 234, 252, 274, 293, 304 and 319-326:
    the branch that is entered, or the error raised before any engine is
    built.  [engine_str] is the keyword [engine] ([None] when absent) and
    [customengine] tells whether the keyword [customengine] holds an
    object. *)
Definition select_engine (engine_str : option string) (customengine : bool)
  : result branch :=
  match engine_str with
  | Some e0 =>
      if negb (String.length e0 =? 0)%nat then
        let e := normalize_engine e0 in
        if negb (PyStr.mem e implemented_engines)
        then Raise (RuntimeError valid_message)
        else if customengine then Raise (RuntimeError both_message)
        else if String.eqb e "tera" then Ok OnTera
        else if String.eqb e "qchem" then Ok OnQChem
        else if String.eqb e "gmx" then Ok OnGmx
        else if String.eqb e "openmm" then Ok OnOpenMM
        else if String.eqb e "psi4" then Ok OnPsi4
        else if String.eqb e "molpro" then Ok OnMolpro
        else if String.eqb e "gaussian" then Ok OnGaussian
        else if String.eqb e "quick" then Ok OnQuick
        else if String.eqb e "qcengine" then Ok OnQCEngine
        else if String.eqb e "ase" then Ok OnAse
        else Raise (RuntimeError fallback_message)
      else if customengine then Ok OnCustom
      else Raise (RuntimeError neither_message)
  | None =>
      if customengine then Ok OnCustom
      else Raise (RuntimeError neither_message)
  end.

(** Lines 130 and 200: [using_qchem] at the end of each branch. *)
Definition using_qchem (b : branch) : bool :=
  match b with
  | OnQChem => true
  | _ => false
  end.

(** Lines 131, 201, 233, 251, 270 and 289: [threads_enabled] at the end of
    each branch. *)
Definition threads_enabled (b : branch) : bool :=
  match b with
  | OnQChem | OnPsi4 | OnMolpro | OnGaussian | OnQuick => true
  | _ => false
  end.

(** The exceptions of lines 354-357: [EngineError] is the class of
    [geometric.errors], the other one is a builtin exception. *)
Inductive check_error : Type :=
| EngineError (msg : string)
| Builtin (e : exn).

Definition qcdir_message : string :=
  "qcdir keyword argument passed to get_molecule_engine but Q-Chem engine is not being used".

(** ["Setting number of threads not configured to work with %s yet"
    % engine_str] *)
Definition threads_message (engine_str : option string) : string :=
  String.append "Setting number of threads not configured to work with "
    (String.append (match engine_str with Some e => e | None => "None" end)
       " yet").

(** Lines 354-357: [qcdir] and [threads] are the truth values of the
    keywords [qcdir] and [nt]; the result is the exception raised, if any. *)
Definition sanity_checks (using_qchem threads_enabled : bool)
    (engine_str : option string) (qcdir threads : bool) : option check_error :=
  if negb using_qchem && qcdir then Some (EngineError qcdir_message)
  else if threads && negb threads_enabled
  then Some (Builtin (RuntimeError (threads_message engine_str)))
  else None.

Section Which.

(** [shutil.which(name) is not None] *)
Variable which : string -> bool.

(** Lines 263-268. *)
Definition gaussian_exe : result string :=
  if which "g16" then Ok "g16"
  else if which "g09" then Ok "g09"
  else Raise (ValueError
                "Neither g16 or g09 was found, please check the environment.").

(** Lines 278-287. *)
Definition quick_exe : result string :=
  if which "quick.cuda.MPI" then Ok "quick.cuda.MPI"
  else if which "quick.cuda" then Ok "quick.cuda"
  else if which "quick" then Ok "quick.MPI"
  else if which "quick" then Ok "quick"
  else Raise (ValueError
                "Neither quick.cuda.MPI, quick.cuda, quick.MPI or quick was found, please check the environment.").

End Which.

(** [round(x)] on a float: the nearest integer, the even one of the two
    when [x] lies half-way. *)
Definition py_round (x : R) : Z :=
  let f := Int_part x in
  let r := (x - IZR f)%R in
  if Rlt_dec r (1 / 2) then f
  else if Rlt_dec (1 / 2) r then (f + 1)%Z
  else if Z.even f then f else (f + 1)%Z.

(** Lines 342-350: the indices of the frames that initialize the NEB
    images.  [images] is the keyword [images], [None] when absent, and
    [nframes] is [len(M)] after the chain was loaded. *)
Definition neb_frames (images : option Z) (nframes : nat) : result (list Z) :=
  let images := match images with Some i => i | None => 11%Z end in
  let images := if (Z.of_nat nframes <? images)%Z then Z.of_nat nframes
                else images in
  l <- Np.linspace 0 (IZR (Z.of_nat nframes - 1)) images ;;
  Ok (map py_round l).

(** The builtin [str.capitalize] on a string of ASCII letters: the first
    letter in upper case, the others in lower case. *)
Definition upper_ascii (c : ascii) : ascii :=
  let n := PyStr.code c in
  if ((97 <=? n) && (n <=? 122))%nat then ascii_of_nat (n - 32) else c.

Definition capitalize_ascii (s : string) : string :=
  match s with
  | EmptyString => EmptyString
  | String c s' => String (upper_ascii c) (PyStr.lower s')
  end.

End Engine.

(** ** Vocabulary of the specification *)

(** A line outside the options block that reaches the declaration code: it
    does not open the options block and its cleaned text is neither empty
    nor a mode marker. *)
Definition is_declaration (l : string) : bool :=
  negb (PyStr.contains "$options" l)
  && negb (String.length (clean l) =? 0)%nat
  && negb (PyStr.startswith (clean l) "$").

(** A line outside the options block that is a mode marker. *)
Definition is_marker (l : string) : bool :=
  negb (PyStr.contains "$options" l)
  && negb (String.length (clean l) =? 0)%nat
  && PyStr.startswith (clean l) "$".

(** The cleaned text of the first line that is neither blank, nor a comment,
    nor part of the options block. *)
Fixpoint first_effective (inside : bool) (lines : list string) : option string :=
  match lines with
  | [] => None
  | l :: ls =>
      if (if PyStr.contains "$options" l then true else inside)
      then first_effective (negb (PyStr.contains "$end" l)) ls
      else if (String.length (clean l) =? 0)%nat then first_effective false ls
      else Some (clean l)
  end.

Definition known_mode (md : string) : bool := PyStr.mem md ["freeze"; "set"; "scan"].

(** The number of tokens expected after the keyword, as the specification
    tabulates it by keyword family and mode. *)
Definition expected_count (md key : string) : nat :=
  match getitem ClassDict key with
  | Raise _ => 0
  | Ok (classes, n_atom) =>
      let numClasses := List.length classes in
      if String.eqb key "rotation" then
        if String.eqb md "freeze" then 1
        else if String.eqb md "set" then 5 else 7
      else if PyStr.mem key ["distance"; "angle"; "dihedral"] then
        if String.eqb md "freeze" then n_atom
        else if String.eqb md "set" then n_atom + 1 else n_atom + 3
      else
        if String.eqb md "freeze" then n_atom
        else if String.eqb md "set" then n_atom + numClasses
        else n_atom + 2 * numClasses + 1
  end%nat.

(** The cartesian product of a list of pools in the order of nested loops:
    the first pool varies slowest. *)
Fixpoint cartesian {A : Type} (pools : list (list A)) : list (list A) :=
  match pools with
  | [] => [[]]
  | p :: ps => flat_map (fun x => map (cons x) (cartesian ps)) p
  end.

(** Every step of a value group has one value for each object of the group
    of coordinate objects at the same position. *)
Definition aligned (o : list (list CoordObj)) (v : list (list (list value)))
  : Prop :=
  Forall2 (fun og vg => Forall (fun stp => List.length stp = List.length og) vg)
          o v.

(** The state after a declaration: groups were appended, and either they
    are aligned or fewer value groups than groups of objects were. *)
Definition short_or_aligned (o : list (list CoordObj))
    (v : list (list (list value))) : Prop :=
  aligned o v \/ (List.length v < List.length o)%nat.

Definition consistent (st : state) : Prop :=
  short_or_aligned (objs st) (vals st).

(** What a branch of the compiler does to the state: it appends groups of
    objects and value groups; under a known mode they are aligned and there
    are [n] value groups, under any other mode no value group is appended. *)
Definition appends (md : string) (n : nat) (st st' : state) : Prop :=
  exists (o : list (list CoordObj)) (v : list (list (list value))),
    st' = with_groups st o v
    /\ ((known_mode md = true /\ aligned o v /\ List.length v = n)
        \/ (known_mode md = false /\ v = [])).

(** The canonical direction of a primitive coordinate: the outer atoms of a
    distance and of an angle are ascending, and so are the inner atoms of a
    dihedral. *)
Definition canonical (key : string) (atoms : list Z) : Prop :=
  (key = "distance" -> exists a b, atoms = [a; b] /\ (a < b)%Z)
  /\ (key = "angle" -> exists a b c, atoms = [a; b; c] /\ (a < c)%Z)
  /\ (key = "dihedral" ->
      exists a b c d, atoms = [a; b; c; d] /\ (b < c)%Z).

(** The root-mean-square distance of a set of points from their centroid. *)
Definition rms_radius (pts : list Np.vec3) : R :=
  let center := Np.mean_axis0 pts in
  sqrt (Np.mean (map Np.sumsq3 (map (fun p => Np.sub3 p center) pts))).

(** The two atoms that the canonical direction compares are different. *)
Definition compared_distinct (key : string) (atoms : list Z) : Prop :=
  (key = "distance" -> nth 0 atoms 0%Z <> nth 1 atoms 0%Z)
  /\ (key = "angle" -> nth 0 atoms 0%Z <> nth 2 atoms 0%Z)
  /\ (key = "dihedral" -> nth 1 atoms 0%Z <> nth 2 atoms 0%Z).

(** The atom indices that a coordinate object was built on. *)
Definition atoms_of (o : CoordObj) : list Z :=
  match o with
  | OnAtom _ a _ => [a]
  | OnGroup _ l _ => l
  | OnAtoms _ l => l
  | OnRotor _ l _ _ => l
  end.

(** Every atom index of the object is in [[0, na)]. *)
Definition in_range (molecule : Molecule) (o : CoordObj) : Prop :=
  Forall (fun i => (0 <= i < Z.of_nat (na molecule))%Z) (atoms_of o).



(** The declarations among the effective lines, each with the mode in force
    when the loop reaches it. *)
Fixpoint declarations (md : option string) (ts : list string)
  : list (option string * string) :=
  match ts with
  | [] => []
  | t :: ts' =>
      if PyStr.startswith t "$"
      then declarations (Some (PyStr.remove "$" t)) ts'
      else (md, t) :: declarations md ts'
  end.

(** The keyword of a declaration line, as line 462 looks it up. *)
Definition keyword (line : string) : string :=
  normalize_key (hd EmptyString (PyStr.split line)).

(** The step count of a scan declaration: its last token, read by [int]. *)
Definition step_count (ext : Externals) (line : string) : result Z :=
  py_int ext (last (PyStr.split line) EmptyString).

(** The value that the last assignment to [key] in a sequence of
    assignments gave it. *)
Fixpoint last_assigned {V : Type} (l : list (string * V)) (key : string)
  : option V :=
  match l with
  | [] => None
  | (k, v) :: l' =>
      match last_assigned l' key with
      | Some w => Some w
      | None => if String.eqb k key then Some v else None
      end
  end.

(** A value group of one step that holds [None] only. *)
Definition frozen_group (vg : list (list value)) : Prop :=
  exists n : nat, vg = [repeat None n].

(** The cleaned texts of the lines that the loop parses: the lines outside
    the options block that are neither blank nor comments. *)
Fixpoint effective_lines (inside : bool) (lines : list string) : list string :=
  match lines with
  | [] => []
  | l :: ls =>
      if (if PyStr.contains "$options" l then true else inside)
      then effective_lines (negb (PyStr.contains "$end" l)) ls
      else if (String.length (clean l) =? 0)%nat then effective_lines false ls
      else clean l :: effective_lines false ls
  end.

(** Whether the loop ends inside the options block. *)
Fixpoint ends_inside (inside : bool) (lines : list string) : bool :=
  match lines with
  | [] => inside
  | l :: ls =>
      if (if PyStr.contains "$options" l then true else inside)
      then ends_inside (negb (PyStr.contains "$end" l)) ls
      else ends_inside false ls
  end.

(** What the loop does with the cleaned text of a line that it parses. *)
Definition effective_step (ext : Externals) (molecule : Molecule) (st : state)
    (t : string) : result state :=
  if PyStr.startswith t "$"
  then Ok (with_mode st (Some (PyStr.remove "$" t)))
  else declaration ext molecule st t.

Fixpoint run_effective (ext : Externals) (molecule : Molecule) (st : state)
    (ts : list string) : result state :=
  match ts with
  | [] => Ok st
  | t :: ts' =>
      st' <- effective_step ext molecule st t ;;
      run_effective ext molecule st' ts'
  end.

(** What the modes other than [scan] do to the value groups: [freeze]
    appends frozen groups only, and every mode but [scan] appends groups
    of one step. *)
Definition steps_by_mode (md : string) (v : list (list (list value))) : Prop :=
  (md = "freeze" -> Forall frozen_group v)
  /\ (md <> "scan" -> Forall (fun vg => List.length vg = 1%nat) v).

(** The number of value groups that a declaration appends under a known
    mode: one for each coordinate class of an atom position constraint and
    of a frozen rotation, one in every other case. *)
Definition groups_appended (md key : string) : nat :=
  match getitem ClassDict key with
  | Raise _ => 0%nat
  | Ok (classes, _) =>
      if PyStr.mem key AtomKeys then List.length classes
      else if String.eqb key "rotation" && String.eqb md "freeze"
      then List.length classes
      else 1%nat
  end.

(** ** A concrete environment

    The compiler is run on concrete inputs with the following collaborators. *)

Module Sample.

Definition digit (c : ascii) : option Z :=
  let n := PyStr.code c in
  if ((48 <=? n) && (n <=? 57))%nat then Some (Z.of_nat (n - 48)) else None.

(** The value and the number of digits of a string of decimal digits. *)
Fixpoint digits (acc : Z) (count : nat) (s : string) : option (Z * nat) :=
  match s with
  | EmptyString => Some (acc, count)
  | String c s' =>
      match digit c with
      | Some d => digits (10 * acc + d)%Z (S count) s'
      | None => None
      end
  end.

Definition signed (s : string) : Z * string :=
  match s with
  | String "-" s' => ((-1)%Z, s')
  | String "+" s' => (1%Z, s')
  | _ => (1%Z, s)
  end.

Definition integer (s : string) : option Z :=
  let '(sg, body) := signed s in
  match digits 0 0 body with
  | Some (v, S _) => Some (sg * v)%Z
  | _ => None
  end.

(** Modelled from the spec: [isint] of [nifty], missing from the sources;
    the token is a pure integer, an optional sign and decimal digits. *)
Definition isint (s : string) : bool :=
  match integer s with Some _ => true | None => false end.

(** The builtin [int] on a token written as an optional sign and decimal
    digits; any other token raises [ValueError]. *)
Definition py_int (s : string) : result Z :=
  match integer s with
  | Some v => Ok v
  | None => Raise (ValueError "invalid literal for int()")
  end.

(** The builtin [float] on a token written as an optional sign, decimal
    digits and an optional fraction; any other token raises [ValueError]. *)
Definition py_float (s : string) : result R :=
  let '(sg, body) := signed s in
  match PyStr.split_char "." body with
  | [whole] =>
      match digits 0 0 whole with
      | Some (v, S _) => Ok (IZR (sg * v))
      | _ => Raise (ValueError "could not convert string to float")
      end
  | [whole; frac] =>
      match digits 0 0 whole, digits 0 0 frac with
      | Some (v, n), Some (f, m) =>
          if (0 <? n + m)%nat
          then Ok (IZR sg * (IZR v + IZR f / IZR (10 ^ Z.of_nat m)))%R
          else Raise (ValueError "could not convert string to float")
      | _, _ => Raise (ValueError "could not convert string to float")
      end
  | _ => Raise (ValueError "could not convert string to float")
  end.

Definition range_part (part : string) : result (list Z) :=
  match map integer (PyStr.split_char "-" part) with
  | [Some a] =>
      if (a <? 1)%Z then Raise (RuntimeError "") else Ok [(a - 1)%Z]
  | [Some a; Some b] =>
      if (a <? 1)%Z then Raise (RuntimeError "")
      else Ok (map (fun i => (a - 1 + Z.of_nat i)%Z)
                   (seq 0 (Z.to_nat (b - a + 1))))
  | _ => Raise (RuntimeError "")
  end.

(** Modelled from the spec: [uncommadash] of [nifty], missing from the
    sources; a comma-separated list of single indices or dash-ranges,
    1-based and inclusive, converted to zero-based indices.  A part that is
    not a 1-based index or range is refused. *)
Definition uncommadash (s : string) : result (list Z) :=
  parts <- mapM range_part (PyStr.split_char "," s) ;;
  Ok (List.concat parts).

(** Modelled from the spec: [Elements] of [molecule], missing from the
    sources; the known element symbols, here those of the first two rows. *)
Definition Elements : list string :=
  ["H"; "He"; "Li"; "Be"; "B"; "C"; "N"; "O"; "F"; "Ne"].

(** Modelled from the spec: [ang2bohr] of [nifty], missing from the sources;
    the fixed constant 1.8897259886. *)
Definition ang2bohr : R := (18897259886 / 10000000000)%R.

(** Modelled from the spec: the factor of [calc_fac_dfac] of [rotate],
    missing from the sources; it turns the imaginary part of a unit
    quaternion of real part [c] into the exponential map, with
    [fac(1) = 2]. *)
Definition calc_fac (c : R) : R :=
  if Req_dec_T c 1 then 2%R else (2 * acos c / sqrt (1 - c * c))%R.

Definition ext : Externals :=
  Build_Externals isint uncommadash Elements py_int py_float ang2bohr calc_fac.

(** Ten atoms on the x axis, one Angstrom apart: two carbons and eight
    hydrogens. *)
Definition molecule : Molecule :=
  {| na := 10;
     elem := ["C"; "C"; "H"; "H"; "H"; "H"; "H"; "H"; "H"; "H"];
     xyzs0 := map (fun i => (INR i, 0, 0)%R) (seq 0 10) |}.

(** Two atoms, at the origin and at 2 Angstrom on the x axis. *)
Definition diatomic : Molecule :=
  {| na := 2; elem := ["H"; "H"];
     xyzs0 := [(0, 0, 0)%R; (2, 0, 0)%R] |}.

Definition lines (l : list string) : string := String.concat newline l.

End Sample.

Example strip_ex : PyStr.strip "  a b	 " = "a b".
Proof. reflexivity. Qed.
Example split_ex : PyStr.split " distance  1 2	3.5 " = ["distance"; "1"; "2"; "3.5"].
Proof. reflexivity. Qed.
Example split_char_ex : PyStr.split_char "#" "a#b#" = ["a"; "b"; ""].
Proof. reflexivity. Qed.
Example remove_ex : PyStr.remove "trans-" "trans-xtrans-y" = "xy".
Proof. reflexivity. Qed.
Example sorted_ex : PyStr.join (PyStr.sorted "zyx") = "xyz".
Proof. reflexivity. Qed.
Example contains_ex : PyStr.contains "$options" "distance 1 2 # $options" = true.
Proof. reflexivity. Qed.
Example show_ex : PyStr.show_nat 0 = "0" /\ PyStr.show_nat 42 = "42".
Proof. split; reflexivity. Qed.

Example normalize_key_ex :
  normalize_key "yx" = "xy" /\ normalize_key "trans-zx" = "trans-xz"
  /\ normalize_key "dihedral" = "dihedral".
Proof. repeat split; reflexivity. Qed.

Example uncommadash_ex :
  Sample.uncommadash "3" = Ok [2%Z]
  /\ Sample.uncommadash "1-3" = Ok [0; 1; 2]%Z
  /\ Sample.uncommadash "1,3,5" = Ok [0; 2; 4]%Z.
Proof. repeat split; reflexivity. Qed.

Example freeze_distance_ex :
  parse_constraints Sample.ext Sample.molecule
    (Sample.lines ["$freeze"; "distance 2 1"]) =
  Ok ([OnAtoms Distance [0; 1]%Z], [[None]]).
Proof. reflexivity. Qed.

Example freeze_element_ex :
  parse_constraints Sample.ext Sample.molecule
    (Sample.lines ["$freeze"; "xy C  # both carbons"]) =
  Ok ([OnAtom CartesianX 0 1; OnAtom CartesianX 1 1;
       OnAtom CartesianY 0 1; OnAtom CartesianY 1 1],
      [[None; None; None; None]]).
Proof. reflexivity. Qed.

Example set_distance_ex :
  parse_constraints Sample.ext Sample.molecule
    (Sample.lines ["$set"; "distance 1 2 1.5"]) =
  Ok ([OnAtoms Distance [0; 1]%Z],
      [[Some (1 * (1 + 5 / 10) * Sample.ang2bohr)%R]]).
Proof. reflexivity. Qed.

Example rotation_set_ex :
  match parse_constraints Sample.ext Sample.molecule
          (Sample.lines ["$set"; "rotation 1-3 0 0 1 90"]) with
  | Ok (o, g) => (List.length o, map (@List.length value) g)
  | Raise _ => (0%nat, [])
  end = (3%nat, [3%nat]).
Proof. reflexivity. Qed.

Example scan_distance_ex :
  match parse_constraints Sample.ext Sample.molecule
          (Sample.lines ["$scan"; "distance 1 2 1.0 2.0 5"; "$freeze";
                         "trans-xyz 3-5"]) with
  | Ok (o, g) => (List.length o, map (@List.length value) g)
  | Raise _ => (0%nat, [])
  end = (4%nat, [4; 4; 4; 4; 4]%nat).
Proof. reflexivity. Qed.

Example unknown_keyword_ex :
  parse_constraints Sample.ext Sample.molecule
    (Sample.lines ["$freeze"; "bond 1 2"]) = Raise (KeyError "bond").
Proof. reflexivity. Qed.


(** * Properties *)

(** ** The wrapped angle of a rotation (lines 581 and 602) *)

Section WrapAngle.

Local Open Scope R_scope.

Lemma fmod_bounds (x m : R) : 0 < m -> 0 <= Np.fmod x m < m.
Proof.
  intros Hm. unfold Np.fmod.
  destruct (base_Int_part (x / m)) as [Hlo Hhi].
  set (k := IZR (Int_part (x / m))) in *.
  assert (Hx : x = x / m * m) by (field; lra).
  split.
  - assert (k * m <= x / m * m) by (apply Rmult_le_compat_r; lra). lra.
  - assert (x / m * m < (k + 1) * m) by (apply Rmult_lt_compat_r; lra). lra.
Qed.

Lemma fmod_congruent (x m : R) :
  exists k : Z, Np.fmod x m = x - IZR k * m.
Proof. exists (Int_part (x / m)). reflexivity. Qed.

Lemma fmod_period (m : R) : 0 < m -> Np.fmod m m = 0.
Proof.
  intros Hm. unfold Np.fmod.
  replace (m / m) with 1 by (field; lra).
  replace (Int_part 1) with 1%Z.
  - lra.
  - apply Int_part_spec. lra.
Qed.

(** C6, as amended: for every angle [theta] the wrapped angle differs from
    [theta] by an integer multiple of [2 pi] and lies in the closed interval
    from [- pi] to [pi], both included.  The end [- pi] is reached, at
    [theta = pi]; the end [pi] is kept because the rounded remainder of the
    floats can be [2 pi] itself, although the real remainder is below it. *)
Theorem wrap_angle_range (theta : R) :
  (exists k : Z, wrap_angle theta = theta - IZR k * (2 * PI))
  /\ - PI <= wrap_angle theta <= PI
  /\ wrap_angle PI = - PI.
Proof.
  assert (Hpi := PI_RGT_0).
  unfold wrap_angle. split; [|split].
  - destruct (fmod_congruent (theta + PI) (2 * PI)) as [k Hk].
    exists k. rewrite Hk. lra.
  - destruct (fmod_bounds (theta + PI) (2 * PI)); lra.
  - replace (PI + PI) with (2 * PI) by lra.
    rewrite fmod_period; lra.
Qed.

(** C6, as stated, fails at [theta = pi] (an angle of 180 degrees): the
    wrapped angle is [- pi], which the interval open at [- pi] and closed at
    [pi] excludes. *)
Lemma wrap_angle_pi_excluded :
  wrap_angle PI = - PI /\ ~ (- PI < wrap_angle PI <= PI).
Proof.
  assert (Hpi := PI_RGT_0).
  assert (H : wrap_angle PI = - PI).
  { unfold wrap_angle. replace (PI + PI) with (2 * PI) by lra.
    rewrite fmod_period; lra. }
  split; [exact H|]. rewrite H. lra.
Qed.

End WrapAngle.

(** ** The loop over the lines *)

Section Loop.

Variable ext : Externals.
Variable molecule : Molecule.

Lemma run_app (st : state) (pre post : list string) :
  run ext molecule st (pre ++ post) =
  (st' <- run ext molecule st pre ;; run ext molecule st' post).
Proof.
  revert st. induction pre as [|l pre IH]; intros st; simpl.
  - reflexivity.
  - destruct (step ext molecule st l); simpl; auto.
Qed.

Lemma step_enter (st : state) (l : string) :
  PyStr.contains "$options" l = true ->
  step ext molecule st l =
  Ok (with_in_options st (negb (PyStr.contains "$end" l))).
Proof. intros H. unfold step. rewrite H. reflexivity. Qed.

Lemma step_inside (st : state) (l : string) :
  in_options st = true ->
  step ext molecule st l =
  Ok (with_in_options st (negb (PyStr.contains "$end" l))).
Proof.
  intros H. unfold step. rewrite H.
  destruct (PyStr.contains "$options" l); reflexivity.
Qed.

Lemma step_declaration (st : state) (l : string) :
  in_options st = false -> is_declaration l = true ->
  step ext molecule st l = declaration ext molecule st (clean l).
Proof.
  unfold is_declaration, step. intros Hin H.
  apply andb_prop in H as [H H3]. apply andb_prop in H as [H1 H2].
  apply negb_true_iff in H1, H2, H3.
  rewrite H1, Hin, H2, H3. reflexivity.
Qed.

Lemma step_marker (st : state) (l : string) :
  in_options st = false -> is_marker l = true ->
  step ext molecule st l =
  Ok (with_mode st (Some (PyStr.remove "$" (clean l)))).
Proof.
  unfold is_marker, step. intros Hin H.
  apply andb_prop in H as [H H3]. apply andb_prop in H as [H1 H2].
  apply negb_true_iff in H1, H2.
  rewrite H1, Hin, H2, H3. reflexivity.
Qed.

Lemma run_before_mode (lines : list string) :
  forall (st : state) (d : string),
    mode st = None ->
    first_effective (in_options st) lines = Some d ->
    PyStr.startswith d "$" = false ->
    run ext molecule st lines = Raise (RuntimeError mode_message).
Proof.
  induction lines as [|l ls IH]; intros st d Hm Hf Hd; simpl in *.
  - discriminate.
  - unfold step.
    destruct (if PyStr.contains "$options" l then true else in_options st)
      eqn:Hopt.
    + simpl. eapply IH; eauto.
    + assert (Hi : in_options st = false)
        by (destruct (PyStr.contains "$options" l); [discriminate|exact Hopt]).
      destruct (String.length (clean l) =? 0)%nat eqn:He.
      * simpl. eapply IH; eauto. rewrite Hi. exact Hf.
      * injection Hf as <-. rewrite Hd.
        unfold declaration. rewrite Hm. reflexivity.
Qed.

End Loop.

(** C7: when the first line of the input that is neither blank, nor a
    comment, nor inside the options block is not a mode marker, that is,
    when a declaration comes before any mode marker, [parse_constraints]
    raises the error "Mode ... must be set before specifying any
    constraints" and returns no constraint objects. *)
Theorem declaration_before_mode (ext : Externals) (molecule : Molecule)
    (constraints_string d : string) :
  first_effective false
    (PyStr.split_char (ascii_of_nat 10) constraints_string) = Some d ->
  PyStr.startswith d "$" = false ->
  parse_constraints ext molecule constraints_string =
  Raise (RuntimeError mode_message).
Proof.
  intros Hf Hd. unfold parse_constraints, parse_lines.
  rewrite (run_before_mode ext molecule _ initial_state d); auto.
Qed.

Lemma declaration_before_mode_witness :
  parse_constraints Sample.ext Sample.molecule
    (Sample.lines ["# constraints"; "  "; "distance 1 2 # bond"; "$freeze"]) =
  Raise (RuntimeError mode_message).
Proof.
  apply (declaration_before_mode Sample.ext Sample.molecule _ "distance 1 2");
    reflexivity.
Defined.

(** ** The options block (lines 436-445) *)

Lemma run_inside (ext : Externals) (molecule : Molecule)
    (mid : list string) (e : string) (rest : list string) :
  forall st : state,
    in_options st = true ->
    Forall (fun m => PyStr.contains "$end" m = false) mid ->
    PyStr.contains "$end" e = true ->
    run ext molecule st (mid ++ e :: rest) =
    run ext molecule (with_in_options st false) rest.
Proof.
  induction mid as [|m mid IH]; intros st Hin Hmid He; simpl.
  - rewrite step_inside by assumption. rewrite He. reflexivity.
  - inversion Hmid as [|? ? Hm Hmid']; subst.
    rewrite step_inside by assumption. rewrite Hm. simpl.
    rewrite IH by auto. reflexivity.
Qed.

(** C10: the options block opens on any line that contains the substring
    ["$options"], wherever it stands in the raw line, and every line up to
    and including the first one that contains ["$end"] is skipped with the
    compiler state unchanged; the tests are made on the raw line, so a
    ["$options"] inside a comment opens the block, and an upper-case
    ["$OPTIONS"] or ["$END"] is not a marker of the block (the former is
    read as a mode marker). *)
Theorem options_block_substring (ext : Externals) (molecule : Molecule) :
  (forall (st : state) (l : string) (mid : list string) (e : string)
          (rest : list string),
      PyStr.contains "$options" l = true ->
      PyStr.contains "$end" l = false ->
      Forall (fun m => PyStr.contains "$end" m = false) mid ->
      PyStr.contains "$end" e = true ->
      run ext molecule st (l :: mid ++ e :: rest) =
      run ext molecule (with_in_options st false) rest)
  /\ PyStr.contains "$options" "distance 1 2 # $options" = true
  /\ PyStr.contains "$options" "$OPTIONS" = false
  /\ PyStr.contains "$end" "$END" = false
  /\ step ext molecule initial_state "$OPTIONS" =
     Ok (with_mode initial_state (Some "options"))
  /\ parse_lines ext molecule
       ["$freeze"; "distance 1 2 # $options"; "angle 1 2 3"; "$end"] =
     Ok ([], [[]]).
Proof.
  split; [|repeat split; reflexivity].
  intros st l mid e rest Hl Hl' Hmid He. simpl.
  rewrite step_enter by assumption. rewrite Hl'. simpl.
  rewrite run_inside by auto. reflexivity.
Qed.

Lemma options_block_substring_witness :
  run Sample.ext Sample.molecule initial_state
    ("distance 1 2 # $options" :: ["$freeze"; "xyz 99"] ++
     "# $end" :: ["$scan"]) =
  run Sample.ext Sample.molecule (with_in_options initial_state false)
    ["$scan"].
Proof.
  apply (proj1 (options_block_substring Sample.ext Sample.molecule));
    try reflexivity.
  repeat constructor.
Defined.

(** ** Mode markers and the expected number of tokens (lines 451-476) *)

Lemma getitem_In {V : Type} (d : list (string * V)) (key : string) (v : V) :
  getitem d key = Ok v -> In (key, v) d.
Proof.
  induction d as [|[k w] d IH]; simpl; [discriminate|].
  destruct (String.eqb k key) eqn:E.
  - apply String.eqb_eq in E. intros [= <-]. left. congruence.
  - auto.
Qed.

Lemma known_mode_cases (md : string) :
  known_mode md = true -> md = "freeze" \/ md = "set" \/ md = "scan".
Proof.
  unfold known_mode, PyStr.mem. simpl. intros H.
  repeat (apply orb_true_iff in H as [H|H];
          [apply String.eqb_eq in H; auto|]).
  discriminate.
Qed.

(** The token count assigned by the code is the one of the table. *)
Lemma assign_ntok_expected (md key : string) (classes : list CoordClass)
    (n_atom : nat) (old : option nat) :
  known_mode md = true ->
  getitem ClassDict key = Ok (classes, n_atom) ->
  assign_ntok md key classes n_atom old = Some (expected_count md key).
Proof.
  intros Hmd Hkey.
  apply getitem_In in Hkey. simpl in Hkey.
  apply known_mode_cases in Hmd.
  destruct Hmd as [-> | [-> | ->]];
    repeat (destruct Hkey as [Hkey|Hkey];
            [injection Hkey as <- <- <-; reflexivity|]);
    contradiction.
Qed.

Lemma assign_ntok_unknown (md key : string) (classes : list CoordClass)
    (n_atom : nat) (old : option nat) :
  known_mode md = false ->
  assign_ntok md key classes n_atom old = old.
Proof.
  unfold known_mode, PyStr.mem, assign_ntok. simpl. intros H.
  apply orb_false_iff in H as [H1 H]. apply orb_false_iff in H as [H2 H].
  apply orb_false_iff in H as [H3 _].
  rewrite H1, H2, H3. reflexivity.
Qed.

(** C3: a declaration line read under one of the modes [freeze], [set] and
    [scan], whose keyword is in the catalog and whose number of tokens is not
    one more than the count of the table, makes [parse_constraints] raise the
    error "For this line:... Expected ... tokens but got ...", which names
    the cleaned line, the expected count and the actual count. *)
Theorem token_count_error (ext : Externals) (molecule : Molecule)
    (pre : list string) (st : state) (l : string) (rest : list string)
    (md key0 : string) (classes : list CoordClass) (n_atom : nat) :
  run ext molecule initial_state pre = Ok st ->
  in_options st = false ->
  mode st = Some md ->
  known_mode md = true ->
  is_declaration l = true ->
  item (PyStr.split (clean l)) 0 = Ok key0 ->
  getitem ClassDict (normalize_key key0) = Ok (classes, n_atom) ->
  List.length (PyStr.split (clean l)) <>
    (expected_count md (normalize_key key0) + 1)%nat ->
  parse_lines ext molecule (pre ++ l :: rest) =
  Raise (RuntimeError
           (token_message (clean l)
              (expected_count md (normalize_key key0) + 1)
              (List.length (PyStr.split (clean l))))).
Proof.
  intros Hpre Hin Hmode Hknown Hdecl Hkey Hdict Hlen.
  unfold parse_lines. rewrite run_app, Hpre. cbn [bind run].
  rewrite step_declaration by assumption.
  unfold declaration. rewrite Hmode, Hkey. cbn [bind].
  rewrite Hdict. cbn [bind].
  rewrite (assign_ntok_expected md _ classes n_atom) by assumption.
  apply Nat.eqb_neq in Hlen. rewrite Hlen. reflexivity.
Qed.

Lemma token_count_error_witness :
  parse_lines Sample.ext Sample.molecule (["$set"] ++ "distance 1 2" :: []) =
  Raise (RuntimeError
           (String.append "For this line:distance 1 2"
              (String.append newline "Expected 4 tokens but got 3"))).
Proof.
  apply (token_count_error Sample.ext Sample.molecule ["$set"]
           (with_mode initial_state (Some "set")) "distance 1 2" []
           "set" "distance" [Distance] 2);
    try reflexivity.
  simpl. lia.
Defined.

(** C9, as amended: a line outside the options block whose cleaned text
    begins with ["$"] sets the mode to that text with every ["$"] removed,
    whatever it is; and when the marker names none of [freeze], [set] and
    [scan], a following declaration line whose keyword is in the catalog
    fails with the unbound local variable [ntok], provided no earlier
    declaration has assigned [ntok]. *)
Theorem unknown_mode_unbound (ext : Externals) (molecule : Molecule)
    (pre : list string) (st : state) (l1 l2 : string) (rest : list string)
    (key0 : string) (entry : list CoordClass * nat) :
  run ext molecule initial_state pre = Ok st ->
  in_options st = false ->
  ntok st = None ->
  is_marker l1 = true ->
  known_mode (PyStr.remove "$" (clean l1)) = false ->
  is_declaration l2 = true ->
  item (PyStr.split (clean l2)) 0 = Ok key0 ->
  getitem ClassDict (normalize_key key0) = Ok entry ->
  step ext molecule st l1 =
    Ok (with_mode st (Some (PyStr.remove "$" (clean l1))))
  /\ parse_lines ext molecule (pre ++ l1 :: l2 :: rest) =
     Raise (UnboundLocalError "ntok").
Proof.
  intros Hpre Hin Hntok Hmark Hunknown Hdecl Hkey Hdict.
  split; [apply step_marker; assumption|].
  unfold parse_lines. rewrite run_app, Hpre. cbn [bind run].
  rewrite step_marker by assumption. cbn [bind].
  rewrite step_declaration by assumption.
  unfold declaration. cbn [mode with_mode]. rewrite Hkey. cbn [bind].
  rewrite Hdict. destruct entry as [classes n_atom]. cbn [bind].
  rewrite assign_ntok_unknown by assumption.
  cbn [ntok with_mode]. rewrite Hntok. reflexivity.
Qed.

Lemma unknown_mode_unbound_witness :
  step Sample.ext Sample.molecule initial_state "$FROZEN  # typo" =
    Ok (with_mode initial_state (Some "frozen"))
  /\ parse_lines Sample.ext Sample.molecule
       ([] ++ "$FROZEN  # typo" :: "distance 1 2" :: []) =
     Raise (UnboundLocalError "ntok").
Proof.
  apply (unknown_mode_unbound Sample.ext Sample.molecule [] initial_state
           "$FROZEN  # typo" "distance 1 2" [] "distance" ([Distance], 2%nat));
    reflexivity.
Defined.

(** C9, as stated, fails when an earlier declaration has assigned [ntok]:
    after a frozen distance the marker ["$frozen"] and a second declaration
    do not raise the unbound-variable error; the stale count is used, the
    object is appended without a value group, and the compiler ends with
    the error "objs and vals should be the same length". *)
Lemma unknown_mode_stale_ntok :
  parse_constraints Sample.ext Sample.molecule
    (Sample.lines ["$freeze"; "distance 1 2"; "$frozen"; "distance 3 4"]) =
  Raise (RuntimeError length_message)
  /\ RuntimeError length_message <> UnboundLocalError "ntok".
Proof. split; [reflexivity|discriminate]. Qed.

(** ** Lists, comprehensions and arrays *)

Lemma mapM_pure {A B : Type} (f : A -> result B) (g : A -> B) (l : list A) :
  (forall a, In a l -> f a = Ok (g a)) -> mapM f l = Ok (map g l).
Proof.
  induction l as [|a l IH]; intros H; simpl.
  - reflexivity.
  - rewrite (H a) by (left; reflexivity). simpl.
    rewrite IH by (intros; apply H; right; assumption). reflexivity.
Qed.

Lemma mapM_length {A B : Type} (f : A -> result B) (l : list A) (r : list B) :
  mapM f l = Ok r -> List.length r = List.length l.
Proof.
  revert r. induction l as [|a l IH]; intros r; simpl.
  - intros [= <-]. reflexivity.
  - destruct (f a); simpl; [|discriminate].
    destruct (mapM f l); simpl; [|discriminate].
    intros [= <-]. simpl. f_equal. apply IH. reflexivity.
Qed.

Lemma nth_map_in {A B : Type} (f : A -> B) (l : list A) (i : nat) (d : B) (d' : A) :
  (i < List.length l)%nat -> nth i (map f l) d = f (nth i l d').
Proof.
  intros Hi. rewrite (nth_indep _ d (f d')) by (rewrite length_map; exact Hi).
  apply map_nth.
Qed.

Lemma nth_map_seq {B : Type} (f : nat -> B) (n i : nat) (d : B) :
  (i < n)%nat -> nth i (map f (seq 0 n)) d = f i.
Proof.
  intros Hi. rewrite (nth_map_in f _ i d 0%nat) by (rewrite length_seq; exact Hi).
  rewrite seq_nth by exact Hi. reflexivity.
Qed.

Lemma map_nth_seq {A B : Type} (f : A -> B) (l : list A) (d : A) :
  map f l = map (fun i => f (nth i l d)) (seq 0 (List.length l)).
Proof.
  apply (nth_ext _ _ (f d) (f d)).
  - rewrite !length_map, length_seq. reflexivity.
  - intros n Hn. rewrite length_map in Hn.
    rewrite (nth_map_in f l n (f d) d) by exact Hn.
    rewrite nth_map_seq by exact Hn. reflexivity.
Qed.


Lemma transpose_rows {A : Type} (d : A) (n : nat) (cols : list (list A)) :
  cols <> [] ->
  Forall (fun c => List.length c = n) cols ->
  Np.transpose cols = map (fun i => map (fun c => nth i c d) cols) (seq 0 n).
Proof.
  induction cols as [|c cs IH]; intros Hne Hall; [contradiction|].
  inversion Hall as [|? ? Hc Hcs]; subst.
  destruct cs as [|c' cs].
  - simpl. apply (map_nth_seq (fun x => [x]) c d).
  - change (Np.transpose (c :: c' :: cs))
      with (map (fun p => fst p :: snd p)
              (combine c (Np.transpose (c' :: cs)))).
    rewrite IH by (auto; discriminate).
    apply (nth_ext _ _ [] []).
    + rewrite !length_map, length_combine, !length_map, length_seq.
      apply Nat.min_id.
    + intros i Hi.
      rewrite length_map, length_combine, !length_map, length_seq,
        Nat.min_id in Hi.
      rewrite (nth_map_in _ _ i [] (d, []))
        by (rewrite length_combine, !length_map, length_seq, Nat.min_id;
            exact Hi).
      rewrite combine_nth by (rewrite length_map, length_seq; reflexivity).
      rewrite !nth_map_seq by exact Hi. reflexivity.
Qed.

(** ** [np.linspace] and [one_dimensional_scan] *)

Section Linspace.

Local Open Scope R_scope.

Lemma removelast_length_pred (y : list R) :
  List.length (removelast y) = (List.length y - 1)%nat.
Proof.
  destruct y as [|a y]; [reflexivity|].
  rewrite (app_removelast_last 0 (l := a :: y)) at 2 by discriminate.
  rewrite length_app. simpl. lia.
Qed.

Lemma set_last_length (y : list R) (v : R) :
  y <> [] -> List.length (Np.set_last y v) = List.length y.
Proof.
  intros Hy. unfold Np.set_last.
  rewrite length_app, removelast_length_pred. simpl.
  destruct y; [contradiction|simpl; lia].
Qed.

Lemma set_last_last (y : list R) (v : R) :
  nth (List.length y - 1) (Np.set_last y v) 0 = v.
Proof.
  unfold Np.set_last. rewrite <- removelast_length_pred. apply nth_middle.
Qed.

Lemma set_last_first (a b : R) (y : list R) (v : R) :
  nth 0 (Np.set_last (a :: b :: y) v) 0 = a.
Proof. reflexivity. Qed.

Lemma samples_length (a b : R) (n : nat) : List.length (Np.samples a b n) = n.
Proof.
  unfold Np.samples.
  assert (Hy : forall f g : R -> R,
             List.length (map f (map g (map INR (seq 0 n)))) = n)
    by (intros; rewrite !length_map, length_seq; reflexivity).
  destruct (1 <? n)%nat eqn:Hn.
  - apply Nat.ltb_lt in Hn. rewrite set_last_length.
    + destruct (0 <? n - 1)%nat; apply Hy.
    + intros H. apply (f_equal (@List.length R)) in H.
      destruct (0 <? n - 1)%nat; rewrite Hy in H; simpl in H; lia.
  - destruct (0 <? n - 1)%nat; apply Hy.
Qed.

Lemma samples_one (a b : R) : Np.samples a b 1 = [a].
Proof. unfold Np.samples. simpl. f_equal. ring. Qed.

Lemma samples_first (a b : R) (n : nat) :
  (2 <= n)%nat -> nth 0 (Np.samples a b n) 0 = a.
Proof.
  intros Hn. destruct n as [|[|n]]; try lia.
  unfold Np.samples.
  replace (1 <? S (S n))%nat with true by (symmetry; apply Nat.ltb_lt; lia).
  replace (0 <? S (S n) - 1)%nat with true
    by (symmetry; apply Nat.ltb_lt; lia).
  cbn [seq map]. rewrite set_last_first. simpl. ring.
Qed.

Lemma samples_last (a b : R) (n : nat) :
  (2 <= n)%nat -> nth (n - 1) (Np.samples a b n) 0 = b.
Proof.
  intros Hn. unfold Np.samples.
  replace (1 <? n)%nat with true by (symmetry; apply Nat.ltb_lt; lia).
  set (y := map _ (if (0 <? n - 1)%nat then _ else _)).
  assert (Hy : List.length y = n).
  { unfold y. destruct (0 <? n - 1)%nat;
      rewrite !length_map, length_seq; reflexivity. }
  rewrite <- Hy at 1. apply set_last_last.
Qed.

Lemma nth_removelast (y : list R) (i : nat) :
  (i < List.length y - 1)%nat -> nth i (removelast y) 0 = nth i y 0.
Proof.
  intros Hi. destruct y as [|a y]; [simpl in Hi; lia|].
  rewrite (app_removelast_last 0 (l := a :: y)) at 2 by discriminate.
  rewrite app_nth1 by (rewrite removelast_length_pred; exact Hi).
  reflexivity.
Qed.

(** Every sample lies on the line from [a] to [b]. *)
Lemma samples_nth (a b : R) (n i : nat) :
  (2 <= n)%nat -> (i < n)%nat ->
  nth i (Np.samples a b n) 0 = a + INR i * ((b - a) / INR (n - 1)).
Proof.
  intros Hn Hi. unfold Np.samples.
  replace (1 <? n)%nat with true by (symmetry; apply Nat.ltb_lt; lia).
  replace (0 <? n - 1)%nat with true by (symmetry; apply Nat.ltb_lt; lia).
  rewrite !map_map.
  set (y := map _ (seq 0 n)).
  assert (Hy : List.length y = n)
    by (unfold y; rewrite length_map, length_seq; reflexivity).
  assert (Hd : INR (n - 1) <> 0) by (apply not_0_INR; lia).
  destruct (Nat.eq_dec i (n - 1)) as [->|Hne].
  - rewrite <- Hy at 1. rewrite set_last_last. field. exact Hd.
  - unfold Np.set_last.
    rewrite app_nth1 by (rewrite removelast_length_pred, Hy; lia).
    rewrite nth_removelast by (rewrite Hy; lia).
    unfold y. rewrite nth_map_seq by exact Hi. ring.
Qed.

Lemma linspace_nonneg (a b : R) (num : Z) :
  (0 <= num)%Z -> Np.linspace a b num = Ok (Np.samples a b (Z.to_nat num)).
Proof.
  intros H. unfold Np.linspace.
  destruct (num <? 0)%Z eqn:E; [apply Z.ltb_lt in E; lia|reflexivity].
Qed.

Lemma map_fst_combine (l l' : list R) :
  List.length l = List.length l' -> map fst (combine l l') = l.
Proof.
  revert l'. induction l as [|a l IH]; intros [|a' l'] H; simpl in *;
    try reflexivity; try discriminate.
  f_equal. apply IH. lia.
Qed.

Lemma map_snd_combine (l l' : list R) :
  List.length l = List.length l' -> map snd (combine l l') = l'.
Proof.
  revert l'. induction l as [|a l IH]; intros [|a' l'] H; simpl in *;
    try reflexivity; try discriminate.
  f_equal. apply IH. lia.
Qed.

(** The columns that [one_dimensional_scan] transposes. *)
Lemma scan_columns (init final : list R) (steps : Z) :
  (0 <= steps)%Z ->
  mapM (fun p => Np.linspace (fst p) (snd p) steps) (combine init final) =
  Ok (map (fun p => Np.samples (fst p) (snd p) (Z.to_nat steps))
          (combine init final)).
Proof.
  intros H. apply mapM_pure. intros p _. apply linspace_nonneg, H.
Qed.

(** C2, as amended: lists of different lengths raise the error "init and
    final must have the same length"; for non-empty lists of equal length
    and a non-negative step count the result has exactly [steps] vectors,
    each as long as [init], whose components are the samples of
    [np.linspace] between the components of [init] and [final]; for two
    steps or more the first vector is [init], the last is [final] and the
    vector of index [i] is [init + i * (final - init) / (steps - 1)]
    component by component, and for one step the result is [[init]]; for
    empty lists the result is the empty list, whatever the step count. *)
Theorem one_dimensional_scan_spec (init final : list R) (steps : Z) :
  (List.length init <> List.length final ->
   one_dimensional_scan init final steps =
   Raise (RuntimeError "init and final must have the same length"))
  /\ (init = [] -> final = [] -> one_dimensional_scan init final steps = Ok [])
  /\ (List.length init = List.length final -> init <> [] ->
      (0 <= steps)%Z ->
      exists rows : list (list R),
        one_dimensional_scan init final steps = Ok rows
        /\ List.length rows = Z.to_nat steps
        /\ Forall (fun r => List.length r = List.length init) rows
        /\ (forall i, (i < Z.to_nat steps)%nat ->
              nth i rows [] =
              map (fun p => nth i (Np.samples (fst p) (snd p)
                                     (Z.to_nat steps)) 0)
                  (combine init final))
        /\ ((2 <= steps)%Z ->
            nth 0 rows [] = init
            /\ nth (Z.to_nat steps - 1) rows [] = final
            /\ forall i, (i < Z.to_nat steps)%nat ->
                  nth i rows [] =
                  map (fun p => fst p + INR i * ((snd p - fst p)
                                                / INR (Z.to_nat steps - 1)))
                      (combine init final))
        /\ (steps = 1%Z -> rows = [init])).
Proof.
  unfold one_dimensional_scan. split; [|split].
  - intros H. apply Nat.eqb_neq in H. rewrite H. reflexivity.
  - intros -> ->. reflexivity.
  - intros Hlen Hne Hsteps.
    rewrite (proj2 (Nat.eqb_eq _ _) Hlen). cbn [negb].
    rewrite scan_columns by assumption. cbn [bind].
    set (n := Z.to_nat steps).
    set (cols := map _ (combine init final)).
    assert (Hcols : cols <> []).
    { unfold cols. destruct init, final; simpl in *;
        try discriminate; congruence. }
    assert (Hall : Forall (fun c => List.length c = n) cols).
    { unfold cols. apply Forall_forall. intros c Hc.
      apply in_map_iff in Hc as (p & <- & _). apply samples_length. }
    rewrite (transpose_rows 0 n cols Hcols Hall).
    assert (Hrow : forall i, (i < n)%nat ->
               nth i (map (fun i => map (fun c => nth i c 0) cols) (seq 0 n)) [] =
               map (fun p => nth i (Np.samples (fst p) (snd p) n) 0)
                   (combine init final)).
    { intros i Hi. rewrite nth_map_seq by exact Hi.
      unfold cols. rewrite map_map. reflexivity. }
    eexists. split; [reflexivity|].
    split; [rewrite length_map, length_seq; reflexivity|].
    split.
    { apply Forall_forall. intros r Hr.
      apply in_map_iff in Hr as (i & <- & _).
      unfold cols. rewrite !length_map, length_combine, <- Hlen.
      apply Nat.min_id. }
    split; [exact Hrow|].
    split.
    + intros H2. assert (Hn : (2 <= n)%nat) by (unfold n; lia).
      split.
      * rewrite Hrow by lia. rewrite <- (map_fst_combine init final Hlen) at 2.
        apply map_ext. intros p. apply samples_first, Hn.
      * split.
        -- rewrite Hrow by lia.
           rewrite <- (map_snd_combine init final Hlen) at 2.
           apply map_ext. intros p. apply samples_last, Hn.
        -- intros i Hi. rewrite Hrow by exact Hi.
           apply map_ext. intros p. apply samples_nth; assumption.
    + intros ->. change n with 1%nat. cbn [seq map]. f_equal.
      unfold cols. rewrite map_map.
      rewrite <- (map_fst_combine init final Hlen) at 2.
      apply map_ext. intros p. change (Z.to_nat 1) with 1%nat.
      rewrite samples_one. reflexivity.
Qed.

Lemma one_dimensional_scan_spec_witness :
  (exists rows : list (list R),
      one_dimensional_scan [0; 1] [2; 5] 3 = Ok rows
      /\ List.length rows = 3%nat
      /\ nth 0 rows [] = [0; 1] /\ nth 2 rows [] = [2; 5])
  /\ one_dimensional_scan [] [] 7 = Ok [].
Proof.
  split.
  - destruct (proj2 (proj2 (one_dimensional_scan_spec [0; 1] [2; 5] 3)))
      as (rows & H1 & H2 & _ & _ & H3 & _);
      [reflexivity | discriminate | lia |].
    exists rows. destruct H3 as (Ha & Hb & _); [lia|]. auto.
  - apply (proj1 (proj2 (one_dimensional_scan_spec [] [] 7))); reflexivity.
Defined.

(** C2, as stated, fails for empty lists: the array of no columns has no
    rows, so the result is the empty list for every step count, and not
    [steps] vectors nor [[init]]. *)
Lemma one_dimensional_scan_empty :
  one_dimensional_scan [] [] 1 = Ok []
  /\ ~ (exists rows : list (list R),
          one_dimensional_scan [] [] 1 = Ok rows
          /\ List.length rows = Z.to_nat 1).
Proof.
  split; [reflexivity|].
  intros (rows & H & Hlen). injection H as <-. simpl in Hlen. discriminate.
Qed.

End Linspace.

(** ** [itertools.product] *)

Lemma flat_map_flat_map {A B C : Type} (f : A -> list B) (g : B -> list C)
    (l : list A) :
  flat_map g (flat_map f l) = flat_map (fun x => flat_map g (f x)) l.
Proof.
  induction l as [|a l IH]; simpl; [reflexivity|].
  rewrite flat_map_app, IH. reflexivity.
Qed.

Lemma flat_map_map {A B C : Type} (f : A -> B) (g : B -> list C) (l : list A) :
  flat_map g (map f l) = flat_map (fun x => g (f x)) l.
Proof. induction l as [|a l IH]; simpl; [reflexivity|]. rewrite IH. reflexivity. Qed.

Lemma map_flat_map {A B C : Type} (f : A -> list B) (g : B -> C) (l : list A) :
  map g (flat_map f l) = flat_map (fun x => map g (f x)) l.
Proof.
  induction l as [|a l IH]; simpl; [reflexivity|].
  rewrite map_app, IH. reflexivity.
Qed.

Lemma flat_map_singleton {A : Type} (l : list A) : flat_map (fun x => [x]) l = l.
Proof. induction l as [|a l IH]; simpl; [reflexivity|]. rewrite IH. reflexivity. Qed.

Lemma product_from {A : Type} (pools : list (list A)) :
  forall acc : list (list A),
    fold_left
      (fun result pool =>
         flat_map (fun x => map (fun y => x ++ [y]) pool) result)
      pools acc =
    flat_map (fun x => map (app x) (cartesian pools)) acc.
Proof.
  induction pools as [|p ps IH]; intros acc; simpl.
  - rewrite (flat_map_ext (fun x => [x ++ []]) (fun x => [x])).
    + symmetry. apply flat_map_singleton.
    + intros x. rewrite app_nil_r. reflexivity.
  - rewrite IH, flat_map_flat_map. apply flat_map_ext. intros x.
    rewrite flat_map_map, map_flat_map. apply flat_map_ext. intros y.
    rewrite map_map. apply map_ext. intros r.
    rewrite <- app_assoc. reflexivity.
Qed.

(** [itertools.product] enumerates the cartesian product with the first
    pool varying slowest. *)
Lemma product_cartesian {A : Type} (pools : list (list A)) :
  Itertools.product pools = cartesian pools.
Proof.
  unfold Itertools.product. rewrite product_from. simpl.
  rewrite app_nil_r. apply map_id.
Qed.

Lemma flat_map_uniform_length {A B : Type} (f : A -> list B) (n : nat)
    (l : list A) :
  (forall x, List.length (f x) = n) ->
  List.length (flat_map f l) = (List.length l * n)%nat.
Proof.
  intros Hf. induction l as [|a l IH]; simpl; [reflexivity|].
  rewrite length_app, Hf, IH. reflexivity.
Qed.

Lemma cartesian_length {A : Type} (pools : list (list A)) :
  List.length (cartesian pools) =
  fold_right (fun p n => (List.length p * n)%nat) 1%nat pools.
Proof.
  induction pools as [|p ps IH]; simpl; [reflexivity|].
  rewrite (flat_map_uniform_length _ (List.length (cartesian ps)))
    by (intros; apply length_map).
  rewrite IH. reflexivity.
Qed.

Lemma cartesian_In {A : Type} (pools : list (list A)) (row : list A) :
  In row (cartesian pools) <-> Forall2 (fun x p => In x p) row pools.
Proof.
  revert row. induction pools as [|p ps IH]; intros row; simpl.
  - split.
    + intros [<-|[]]. constructor.
    + intros H. inversion H. left. reflexivity.
  - rewrite in_flat_map. split.
    + intros (x & Hx & Hr). apply in_map_iff in Hr as (r & <- & Hr).
      constructor; [exact Hx|]. apply IH, Hr.
    + intros H. inversion H as [|x ? r ? Hx Hr]; subst.
      exists x. split; [exact Hx|]. apply in_map, IH, Hr.
Qed.

Lemma nth_flat_map_uniform {A B : Type} (f : A -> list B) (n : nat)
    (l : list A) (d : B) (d' : A) :
  (forall x, List.length (f x) = n) ->
  forall i j, (i < List.length l)%nat -> (j < n)%nat ->
    nth (i * n + j) (flat_map f l) d = nth j (f (nth i l d')) d.
Proof.
  intros Hf. induction l as [|a l IH]; intros i j Hi Hj; simpl in *; [lia|].
  destruct i as [|i].
  - simpl. rewrite app_nth1 by (rewrite Hf; exact Hj). reflexivity.
  - rewrite app_nth2 by (rewrite Hf; simpl; lia).
    rewrite Hf. replace (S i * n + j - n)%nat with (i * n + j)%nat
      by (simpl; lia).
    apply IH; lia.
Qed.

Lemma cartesian_single {A : Type} (g : list A) :
  cartesian [g] = map (fun y => [y]) g.
Proof.
  simpl. induction g as [|a g IH]; simpl; [reflexivity|].
  rewrite IH. reflexivity.
Qed.

Lemma cartesian_pair_rows {A : Type} (g1 g2 : list (list A)) :
  map (fun r => Itertools.chain r) (cartesian [g1; g2]) =
  flat_map (fun x => map (fun y => x ++ y) g2) g1.
Proof.
  change (cartesian [g1; g2])
    with (flat_map (fun x => map (cons x) (cartesian [g2])) g1).
  rewrite cartesian_single, map_flat_map. apply flat_map_ext. intros x.
  rewrite !map_map. apply map_ext. intros y.
  unfold Itertools.chain. simpl. rewrite app_nil_r. reflexivity.
Qed.

(** Two pools: the row of index [i * n + j] joins step [i] of the first and
    step [j] of the second. *)
Lemma cartesian_two {A : Type} (g1 g2 : list (list A)) (i j : nat) :
  (i < List.length g1)%nat -> (j < List.length g2)%nat ->
  nth (i * List.length g2 + j)
      (map (fun r => Itertools.chain r) (cartesian [g1; g2])) [] =
  nth i g1 [] ++ nth j g2 [].
Proof.
  intros Hi Hj. rewrite cartesian_pair_rows.
  rewrite (nth_flat_map_uniform _ (List.length g2) g1 [] []);
    [|intros; apply length_map|exact Hi|exact Hj].
  apply (nth_map_in _ g2 j [] []). exact Hj.
Qed.


(** ** Alignment of the value groups with the groups of objects *)

Ltac ok_inv H :=
  cbv beta in H;
  match type of H with
  | bind ?m _ = Ok _ =>
      let E := fresh "E" in
      destruct m eqn:E; cbn [bind] in H; [|discriminate H]
  end.

Lemma mapM_Forall {A B : Type} (f : A -> result B) (P : B -> Prop)
    (l : list A) (r : list B) :
  mapM f l = Ok r ->
  (forall a b, In a l -> f a = Ok b -> P b) ->
  Forall P r.
Proof.
  revert r. induction l as [|a l IH]; intros r H HP; simpl in H.
  - injection H as <-. constructor.
  - ok_inv H. ok_inv H. injection H as <-. constructor.
    + apply (HP a); [left; reflexivity|assumption].
    + apply IH; [reflexivity|]. intros a' b' Hin. apply HP. right. exact Hin.
Qed.

Lemma slice_length {A : Type} (l : list A) (i j : nat) :
  List.length (slice l i j) = Nat.min (j - i) (List.length l - i).
Proof. unfold slice. rewrite length_firstn, length_skipn. reflexivity. Qed.

Lemma linspace_length (a b : R) (num : Z) (c : list R) :
  Np.linspace a b num = Ok c -> List.length c = Z.to_nat num.
Proof.
  unfold Np.linspace. destruct (num <? 0)%Z; [discriminate|].
  intros [= <-]. apply samples_length.
Qed.

Lemma one_dimensional_scan_rows (x1 x2 : list R) (steps : Z)
    (rows : list (list R)) :
  one_dimensional_scan x1 x2 steps = Ok rows ->
  Forall (fun r => List.length r = List.length x1) rows.
Proof.
  unfold one_dimensional_scan.
  destruct (List.length x1 =? List.length x2)%nat eqn:Hlen; [|discriminate].
  apply Nat.eqb_eq in Hlen. cbn [negb]. intros H. ok_inv H.
  injection H as <-. rename a into cols.
  destruct cols as [|c cs] eqn:Hcols; [constructor|]. rewrite <- Hcols.
  assert (Hall : Forall (fun c => List.length c = Z.to_nat steps) cols).
  { rewrite <- Hcols in E. eapply mapM_Forall; [exact E|].
    intros p col _. apply linspace_length. }
  rewrite (transpose_rows 0%R (Z.to_nat steps) cols)
    by (auto; rewrite Hcols; discriminate).
  apply Forall_forall. intros r Hr. apply in_map_iff in Hr as (i & <- & _).
  rewrite length_map. rewrite <- Hcols in E. apply mapM_length in E.
  rewrite E, length_combine, <- Hlen. apply Nat.min_id.
Qed.

Lemma aligned_app (o1 o2 : list (list CoordObj))
    (v1 v2 : list (list (list value))) :
  aligned o1 v1 -> aligned o2 v2 -> aligned (o1 ++ o2) (v1 ++ v2).
Proof. apply Forall2_app. Qed.

Lemma aligned_uniform (n : nat) (o : list (list CoordObj))
    (v : list (list (list value))) :
  Forall (fun og => List.length og = n) o ->
  Forall (Forall (fun stp => List.length stp = n)) v ->
  List.length o = List.length v ->
  aligned o v.
Proof.
  revert v. induction o as [|og o IH]; intros [|vg v] Ho Hv Hlen;
    simpl in Hlen; try discriminate; [constructor|].
  constructor.
  - rewrite (Forall_inv Ho). exact (Forall_inv Hv).
  - apply IH; [exact (Forall_inv_tail Ho)|exact (Forall_inv_tail Hv)|].
    injection Hlen as Hlen. exact Hlen.
Qed.

(** A row of the grid has one value for each object of the flattened list. *)
Lemma aligned_row_length (o : list (list CoordObj))
    (v : list (list (list value))) :
  aligned o v ->
  forall row, In row (map (fun r => Itertools.chain r) (cartesian v)) ->
    List.length row = List.length (Itertools.chain o).
Proof.
  intros Hal row Hrow. apply in_map_iff in Hrow as (steps & <- & Hsteps).
  apply cartesian_In in Hsteps. unfold Itertools.chain.
  revert steps Hsteps. induction Hal as [|og vg o v Hg Hal IH];
    intros steps Hsteps; inversion Hsteps as [|stp ? steps' ? Hin Hrest]; subst.
  - reflexivity.
  - simpl. rewrite !length_app. rewrite (IH steps' Hrest).
    rewrite Forall_forall in Hg. rewrite (Hg stp Hin). reflexivity.
Qed.

Lemma consistent_with_groups (st : state) (o : list (list CoordObj))
    (v : list (list (list value))) :
  consistent st -> short_or_aligned o v -> consistent (with_groups st o v).
Proof.
  unfold consistent, short_or_aligned. cbn [objs vals with_groups].
  intros [H1|H1] [H2|H2].
  - left. apply aligned_app; assumption.
  - right. apply Forall2_length in H1. rewrite !length_app. lia.
  - right. apply Forall2_length in H2. rewrite !length_app. lia.
  - right. rewrite !length_app. lia.
Qed.

Lemma no_values_short (o : list (list CoordObj)) : short_or_aligned o [].
Proof.
  destruct o; [left; constructor|right; simpl; lia].
Qed.

Lemma unknown_mode (md : string) :
  String.eqb md "freeze" = false -> String.eqb md "set" = false ->
  String.eqb md "scan" = false -> known_mode md = false.
Proof.
  intros H1 H2 H3. unfold known_mode, PyStr.mem. simpl.
  rewrite H1, H2, H3. reflexivity.
Qed.

Lemma known_set_scan (md : string) :
  String.eqb md "freeze" = false -> PyStr.mem md ["set"; "scan"] = true ->
  known_mode md = true.
Proof.
  unfold known_mode, PyStr.mem. simpl. intros -> H. exact H.
Qed.

Lemma unknown_set_scan (md : string) :
  String.eqb md "freeze" = false -> PyStr.mem md ["set"; "scan"] = false ->
  known_mode md = false.
Proof.
  unfold known_mode, PyStr.mem. simpl. intros -> H. exact H.
Qed.

Section Branches.

Variable ext : Externals.
Variable molecule : Molecule.

Lemma lengths_length (toks : list string) (x : list R) :
  lengths ext toks = Ok x -> List.length x = List.length toks.
Proof. apply mapM_length. Qed.

Lemma atom_branch_appends (md : string) (s : list string)
    (classes : list CoordClass) (atoms : list Z) (st st' : state) :
  atom_branch ext md s classes atoms st = Ok st' ->
  appends md (List.length classes) st st'.
Proof.
  unfold atom_branch, appends. intros H.
  set (o := map (fun cls => map (fun a => OnAtom cls a 1%R) atoms) classes)
    in *.
  assert (Ho : Forall (fun og => List.length og = List.length atoms) o).
  { apply Forall_forall. intros og Hog.
    apply in_map_iff in Hog as (cls & <- & _). apply length_map. }
  assert (Hlo : List.length o = List.length classes) by apply length_map.
  destruct (String.eqb md "freeze") eqn:Hf.
  { apply String.eqb_eq in Hf. subst md. injection H as <-.
    eexists o, _. split; [reflexivity|]. left.
    split; [reflexivity|]. split; [|apply length_map].
    apply (aligned_uniform (List.length atoms));
      [exact Ho| |rewrite Hlo, length_map; reflexivity].
    apply Forall_forall. intros vg Hvg.
    apply in_map_iff in Hvg as (cls & <- & _).
    constructor; [apply length_map|constructor]. }
  destruct (String.eqb md "set") eqn:Hs.
  { apply String.eqb_eq in Hs. subst md. ok_inv H. ok_inv H.
    injection H as <-. rename a0 into v.
    assert (Hlv : List.length v = List.length classes)
      by (apply mapM_length in E0; rewrite E0; apply length_seq).
    eexists o, v. split; [reflexivity|]. left.
    split; [reflexivity|]. split; [|exact Hlv].
    apply (aligned_uniform (List.length atoms));
      [exact Ho| |exact (eq_trans Hlo (eq_sym Hlv))].
    eapply mapM_Forall; [exact E0|]. intros icls b _ Hb.
    ok_inv Hb. injection Hb as <-. constructor; [|constructor].
    rewrite length_map. apply mapM_length in E1. exact E1. }
  destruct (String.eqb md "scan") eqn:Hc.
  { apply String.eqb_eq in Hc. subst md. do 6 ok_inv H.
    injection H as <-. rename a4 into v.
    assert (Hlv : List.length v = List.length classes)
      by (apply mapM_length in E4; rewrite E4; apply length_seq).
    eexists o, v. split; [reflexivity|]. left.
    split; [reflexivity|]. split; [|exact Hlv].
    apply (aligned_uniform (List.length atoms));
      [exact Ho| |exact (eq_trans Hlo (eq_sym Hlv))].
    eapply mapM_Forall; [exact E4|]. intros icls b _ Hb.
    eapply mapM_Forall; [exact Hb|]. intros vrow r _ Hr.
    ok_inv Hr. injection Hr as <-.
    rewrite length_map. apply mapM_length in E5. exact E5. }
  injection H as <-. eexists o, []. split; [reflexivity|]. right.
  split; [apply unknown_mode; assumption|reflexivity].
Qed.

Lemma trans_branch_appends (md : string) (s : list string)
    (classes : list CoordClass) (atoms : list Z) (st st' : state) :
  (md = "set" -> List.length s = 2 + List.length classes)%nat ->
  (md = "scan" -> List.length s = 3 + 2 * List.length classes)%nat ->
  trans_branch ext md s classes atoms st = Ok st' ->
  appends md 1 st st'.
Proof.
  unfold trans_branch, appends. intros Hset Hscan H. ok_inv H.
  rename a into o.
  assert (Hlo : List.length o = List.length classes).
  { destruct (1 <? List.length atoms)%nat.
    - injection E as <-. apply length_map.
    - apply mapM_length in E. exact E. }
  clear E.
  destruct (String.eqb md "freeze") eqn:Hf.
  { apply String.eqb_eq in Hf. subst md. injection H as <-.
    eexists [o], _. split; [reflexivity|]. left.
    split; [reflexivity|]. split; [|reflexivity].
    repeat constructor. rewrite length_map. symmetry. exact Hlo. }
  destruct (String.eqb md "set") eqn:Hs.
  { apply String.eqb_eq in Hs. subst md. ok_inv H. injection H as <-.
    eexists [o], _. split; [reflexivity|]. left.
    split; [reflexivity|]. split; [|reflexivity].
    repeat constructor. rewrite length_map.
    apply lengths_length in E. rewrite E, slice_length, Hlo.
    rewrite (Hset eq_refl). lia. }
  destruct (String.eqb md "scan") eqn:Hc.
  { apply String.eqb_eq in Hc. subst md. do 5 ok_inv H. injection H as <-.
    eexists [o], _. split; [reflexivity|]. left.
    split; [reflexivity|]. split; [|reflexivity].
    constructor; [|constructor].
    apply one_dimensional_scan_rows in E3.
    apply Forall_forall. intros stp Hstp.
    apply in_map_iff in Hstp as (r & <- & Hr).
    rewrite Forall_forall in E3. rewrite length_map, (E3 r Hr).
    apply lengths_length in E. rewrite E, slice_length, Hlo.
    rewrite (Hscan eq_refl). lia. }
  injection H as <-. eexists [o], []. split; [reflexivity|]. right.
  split; [apply unknown_mode; assumption|reflexivity].
Qed.

Lemma primitive_branch_appends (md key : string) (s : list string)
    (classes : list CoordClass) (n_atom : nat) (st st' : state) :
  primitive_branch ext molecule md key s classes n_atom st = Ok st' ->
  appends md 1 st st'.
Proof.
  unfold primitive_branch, appends. intros H.
  destruct (negb (List.length classes =? 1)%nat); [discriminate|].
  do 4 ok_inv H.
  destruct (String.eqb md "freeze") eqn:Hf.
  { apply String.eqb_eq in Hf. subst md. injection H as <-.
    eexists _, _. split; [reflexivity|]. left.
    split; [reflexivity|]. split; [|reflexivity]. repeat constructor. }
  destruct (PyStr.mem md ["set"; "scan"]) eqn:Hm.
  - do 2 ok_inv H. destruct (String.eqb md "set").
    + injection H as <-. eexists _, _. split; [reflexivity|]. left.
      split; [apply known_set_scan; assumption|].
      split; [|reflexivity]. repeat constructor.
    + do 5 ok_inv H. injection H as <-.
      eexists _, _. split; [reflexivity|]. left.
      split; [apply known_set_scan; assumption|].
      split; [|reflexivity]. constructor; [|constructor].
      apply Forall_forall. intros stp Hstp.
      apply in_map_iff in Hstp as (r & <- & _). reflexivity.
  - injection H as <-. eexists _, []. split; [reflexivity|]. right.
    split; [apply unknown_set_scan; assumption|reflexivity].
Qed.

Lemma rotation_values_length (u : Np.vec3) (rg theta : R) :
  List.length (rotation_values ext u rg theta) = 3%nat.
Proof. destruct u as [[u0 u1] u2]. reflexivity. Qed.

Lemma with_groups_nil (st : state) : with_groups st [] [] = st.
Proof.
  destruct st. unfold with_groups. simpl. rewrite !app_nil_r. reflexivity.
Qed.

Lemma rotation_branch_appends (md : string) (s : list string)
    (classes : list CoordClass) (st st' : state) :
  List.length classes = 3%nat ->
  rotation_branch ext molecule md s classes st = Ok st' ->
  appends md (if String.eqb md "freeze" then List.length classes else 1%nat)
    st st'.
Proof.
  unfold rotation_branch, appends. intros Hcls H.
  do 3 ok_inv H.
  destruct (String.eqb md "freeze") eqn:Hf.
  { apply String.eqb_eq in Hf. subst md. injection H as <-.
    eexists _, _. split; [reflexivity|]. left.
    split; [reflexivity|]. split; [|apply length_map].
    apply (aligned_uniform 1).
    - apply Forall_forall. intros og Hog.
      apply in_map_iff in Hog as (cls & <- & _). reflexivity.
    - apply Forall_forall. intros vg Hvg.
      apply in_map_iff in Hvg as (cls & <- & _). repeat constructor.
    - rewrite !length_map. reflexivity. }
  destruct (PyStr.mem md ["set"; "scan"]) eqn:Hm.
  - do 3 ok_inv H. destruct (String.eqb md "set").
    + injection H as <-. eexists _, _. split; [reflexivity|]. left.
      split; [apply known_set_scan; assumption|].
      split; [|reflexivity]. repeat constructor.
      rewrite rotation_values_length, length_map. symmetry. exact Hcls.
    + do 5 ok_inv H. injection H as <-.
      eexists _, _. split; [reflexivity|]. left.
      split; [apply known_set_scan; assumption|].
      split; [|reflexivity]. constructor; [|constructor].
      apply Forall_forall. intros stp Hstp.
      apply in_map_iff in Hstp as (r & <- & _).
      rewrite rotation_values_length, length_map. symmetry. exact Hcls.
  - injection H as <-. exists [], []. split.
    + symmetry. apply with_groups_nil.
    + right. split; [apply unknown_set_scan; assumption|reflexivity].
Qed.

End Branches.

(** The four keyword families of the catalog. *)
Lemma ClassDict_families (key : string) (classes : list CoordClass)
    (n_atom : nat) :
  getitem ClassDict key = Ok (classes, n_atom) ->
  (PyStr.mem key AtomKeys = true /\ n_atom = 1%nat
   /\ String.eqb key "rotation" = false
   /\ PyStr.mem key ["distance"; "angle"; "dihedral"] = false)
  \/ (PyStr.mem key AtomKeys = false /\ PyStr.mem key TransKeys = true
      /\ n_atom = 1%nat /\ String.eqb key "rotation" = false
      /\ PyStr.mem key ["distance"; "angle"; "dihedral"] = false)
  \/ (PyStr.mem key AtomKeys = false /\ PyStr.mem key TransKeys = false
      /\ PyStr.mem key ["distance"; "angle"; "dihedral"] = true
      /\ String.eqb key "rotation" = false)
  \/ (PyStr.mem key AtomKeys = false /\ PyStr.mem key TransKeys = false
      /\ PyStr.mem key ["distance"; "angle"; "dihedral"] = false
      /\ key = "rotation" /\ List.length classes = 3%nat).
Proof.
  intros H. apply getitem_In in H. simpl in H.
  repeat (destruct H as [H|H];
          [injection H as <- <- <-;
           first [ left; repeat split; reflexivity
                 | right; left; repeat split; reflexivity
                 | right; right; left; repeat split; reflexivity
                 | right; right; right; repeat split; reflexivity ]|]).
  contradiction.
Qed.

(** Lines 454-611: every declaration that compiles appends its groups. *)
Lemma declaration_appends (ext : Externals) (molecule : Molecule)
    (st st' : state) (line md key0 : string) :
  mode st = Some md ->
  item (PyStr.split line) 0 = Ok key0 ->
  declaration ext molecule st line = Ok st' ->
  exists n : nat,
    appends md (groups_appended md (normalize_key key0))
            (with_ntok st (Some n)) st'.
Proof.
  intros Hmode Hkey H. unfold declaration in H.
  rewrite Hmode, Hkey in H. cbn [bind] in H.
  remember (normalize_key key0) as key eqn:Heqkey. clear Heqkey.
  ok_inv H. destruct a as [classes n_atom].
  destruct (assign_ntok md key classes n_atom (ntok st)) as [n|] eqn:N;
    [|discriminate].
  destruct (List.length (PyStr.split line) =? n + 1)%nat eqn:L;
    [|discriminate].
  apply Nat.eqb_eq in L. cbn [negb] in H. exists n.
  unfold groups_appended. rewrite E.
  destruct (ClassDict_families key classes n_atom E)
    as [(HA & Hn & Hr & _) | [(HA & HT & Hn & Hr & _) | [(HA & HT & HP & Hr)
       | (HA & HT & HP & Hr & Hc)]]].
  - rewrite HA in *. cbn [orb] in H. do 3 ok_inv H.
    eapply atom_branch_appends. exact H.
  - rewrite HA, HT in *. cbn [orb] in H. do 3 ok_inv H.
    rewrite Hr. cbn [andb]. subst n_atom. unfold assign_ntok in N.
    rewrite Hr in N.
    eapply trans_branch_appends; [| |exact H]; intros ->; simpl in N;
      injection N as <-; lia.
  - rewrite HA, HT, HP in *. cbn [orb] in H. rewrite Hr. cbn [andb].
    eapply primitive_branch_appends. exact H.
  - rewrite HA, HT, HP in *. cbn [orb] in H. subst key.
    change (PyStr.mem "rotation" ["rotation"]) with true in H.
    change (String.eqb "rotation" "rotation") with true. cbn [andb].
    apply rotation_branch_appends in H; [|exact Hc].
    destruct (String.eqb md "freeze"); exact H.
Qed.

Lemma appends_consistent (md : string) (n : nat) (st st' : state) :
  consistent st -> appends md n st st' -> consistent st'.
Proof.
  intros Hst (o & v & -> & [(_ & Hal & _) | (_ & ->)]).
  - apply consistent_with_groups; [exact Hst|left; exact Hal].
  - apply consistent_with_groups; [exact Hst|apply no_values_short].
Qed.

Lemma step_consistent (ext : Externals) (molecule : Molecule)
    (st st' : state) (l : string) :
  consistent st -> step ext molecule st l = Ok st' -> consistent st'.
Proof.
  intros Hst H. unfold step in H.
  destruct (if PyStr.contains "$options" l then true else in_options st).
  { injection H as <-. exact Hst. }
  destruct (String.length (clean l) =? 0)%nat; [injection H as <-; exact Hst|].
  destruct (PyStr.startswith (clean l) "$"); [injection H as <-; exact Hst|].
  destruct (mode st) as [md|] eqn:Hmode;
    [|unfold declaration in H; rewrite Hmode in H; discriminate].
  destruct (item (PyStr.split (clean l)) 0) as [key0|] eqn:Hkey;
    [|unfold declaration in H; rewrite Hmode, Hkey in H; discriminate].
  destruct (declaration_appends ext molecule st st' (clean l) md key0
              Hmode Hkey H) as [n Happ].
  eapply appends_consistent; [|exact Happ]. exact Hst.
Qed.

Lemma run_consistent (ext : Externals) (molecule : Molecule)
    (lines : list string) :
  forall st st' : state,
    consistent st -> run ext molecule st lines = Ok st' -> consistent st'.
Proof.
  induction lines as [|l ls IH]; intros st st' Hst H; simpl in H.
  - injection H as <-. exact Hst.
  - ok_inv H. eapply IH; [|exact H].
    eapply step_consistent; [exact Hst|exact E].
Qed.

(** ** The value grid (lines 612-616) *)

Lemma initial_consistent : consistent initial_state.
Proof. left. constructor. Qed.

(** ** The direction of distances, angles and dihedrals (lines 536-547) *)

Lemma mapM_app {A B : Type} (f : A -> result B) (l1 l2 : list A)
    (r1 r2 : list B) :
  mapM f l1 = Ok r1 -> mapM f l2 = Ok r2 -> mapM f (l1 ++ l2) = Ok (r1 ++ r2).
Proof.
  revert r1. induction l1 as [|a l1 IH]; intros r1 H1 H2; simpl in *.
  - injection H1 as <-. exact H2.
  - ok_inv H1. ok_inv H1. injection H1 as <-.
    cbn [bind]. rewrite (IH _ eq_refl H2). reflexivity.
Qed.

Lemma mapM_rev {A B : Type} (f : A -> result B) (l : list A) (r : list B) :
  mapM f l = Ok r -> mapM f (rev l) = Ok (rev r).
Proof.
  revert r. induction l as [|a l IH]; intros r H; simpl in *.
  - injection H as <-. reflexivity.
  - ok_inv H. ok_inv H. injection H as <-. simpl.
    apply mapM_app; [apply IH; reflexivity|]. simpl. rewrite E. reflexivity.
Qed.

Lemma slice_tokens {A : Type} (kw : A) (toks rest : list A) :
  slice (kw :: toks ++ rest) 1 (1 + List.length toks) = toks.
Proof.
  unfold slice. replace (1 + List.length toks - 1)%nat with (List.length toks)
    by lia.
  simpl. rewrite firstn_app, Nat.sub_diag, firstn_all. simpl.
  apply app_nil_r.
Qed.

Lemma item_after_tokens {A : Type} (kw : A) (toks rest : list A) (k : nat) :
  item (kw :: toks ++ rest) (S k + List.length toks) = item rest k.
Proof.
  unfold item. simpl. rewrite nth_error_app2 by lia.
  replace (k + List.length toks - List.length toks)%nat with k by lia.
  reflexivity.
Qed.

Lemma primitive_key_cases (key : string) :
  PyStr.mem key ["distance"; "angle"; "dihedral"] = true ->
  key = "distance" \/ key = "angle" \/ key = "dihedral".
Proof.
  unfold PyStr.mem. simpl. intros H.
  repeat (apply orb_true_iff in H as [H|H];
          [apply String.eqb_eq in H; auto|]).
  discriminate.
Qed.

(** Reversing the atoms does not change the canonical order when the
    compared atoms differ, and the order is then strictly ascending on the
    compared pair. *)
Lemma canonical_order_rev (key : string) (classes : list CoordClass)
    (n_atom : nat) (atoms : list Z) :
  PyStr.mem key ["distance"; "angle"; "dihedral"] = true ->
  getitem ClassDict key = Ok (classes, n_atom) ->
  List.length atoms = n_atom ->
  compared_distinct key atoms ->
  exists c : list Z,
    canonical_order key atoms = Ok c
    /\ canonical_order key (rev atoms) = Ok c
    /\ canonical key c.
Proof.
  intros Hkey Hdict Hlen (Hd1 & Hd2 & Hd3).
  destruct (primitive_key_cases key Hkey) as [-> | [-> | ->]];
    injection Hdict as <- <-.
  - destruct atoms as [|a [|b [|? ?]]]; try discriminate.
    specialize (Hd1 eq_refl). simpl in Hd1.
    unfold canonical_order, canonical. simpl.
    destruct (Z.ltb_spec b a), (Z.ltb_spec a b); try lia;
      (eexists; split; [reflexivity|split; [reflexivity|]]);
      (split; [intros _; do 2 eexists; split; [reflexivity|lia]
              |split; discriminate]).
  - destruct atoms as [|a [|b [|c [|? ?]]]]; try discriminate.
    specialize (Hd2 eq_refl). simpl in Hd2.
    unfold canonical_order, canonical. simpl.
    destruct (Z.ltb_spec c a), (Z.ltb_spec a c); try lia;
      (eexists; split; [reflexivity|split; [reflexivity|]]);
      (split; [discriminate|split; [|discriminate]]);
      intros _; do 3 eexists; (split; [reflexivity|lia]).
  - destruct atoms as [|a [|b [|c [|d [|? ?]]]]]; try discriminate.
    specialize (Hd3 eq_refl). simpl in Hd3.
    unfold canonical_order, canonical. simpl.
    destruct (Z.ltb_spec c b), (Z.ltb_spec b c); try lia;
      (eexists; split; [reflexivity|split; [reflexivity|]]);
      (split; [discriminate|split; [discriminate|]]);
      intros _; do 4 eexists; (split; [reflexivity|lia]).
Qed.

Lemma slice_tokens_n {A : Type} (kw : A) (toks rest : list A) (n : nat) :
  List.length toks = n -> slice (kw :: toks ++ rest) 1 (1 + n) = toks.
Proof. intros <-. apply slice_tokens. Qed.

Lemma item_after_tokens_n {A : Type} (kw : A) (toks rest : list A)
    (k n : nat) :
  List.length toks = n -> item (kw :: toks ++ rest) (S k + n) = item rest k.
Proof. intros <-. apply item_after_tokens. Qed.

Lemma primitive_branch_object (ext : Externals) (molecule : Molecule)
    (md key : string) (s : list string) (classes : list CoordClass)
    (n_atom : nat) (st st1 : state) :
  primitive_branch ext molecule md key s classes n_atom st = Ok st1 ->
  exists (atoms c : list Z) (cls : CoordClass),
    mapM (fun i => n <- py_int ext i ;; Ok (n - 1)%Z) (slice s 1 (1 + n_atom))
    = Ok atoms
    /\ canonical_order key atoms = Ok c
    /\ objs st1 = objs st ++ [[OnAtoms cls c]].
Proof.
  unfold primitive_branch. intros H.
  destruct (negb (List.length classes =? 1)%nat); [discriminate|].
  do 4 ok_inv H. exists a, a0, a2.
  split; [reflexivity|]. split; [exact E0|].
  destruct (String.eqb md "freeze"); [injection H as <-; reflexivity|].
  destruct (PyStr.mem md ["set"; "scan"]);
    [|injection H as <-; reflexivity].
  do 2 ok_inv H.
  destruct (String.eqb md "set"); [injection H as <-; reflexivity|].
  do 5 ok_inv H. injection H as <-. reflexivity.
Qed.

Lemma primitive_branch_rev (ext : Externals) (molecule : Molecule)
    (md key kw : string) (toks rest : list string)
    (classes : list CoordClass) (n_atom : nat) (atoms : list Z)
    (st : state) :
  PyStr.mem key ["distance"; "angle"; "dihedral"] = true ->
  getitem ClassDict key = Ok (classes, n_atom) ->
  List.length toks = n_atom ->
  mapM (fun i => n <- py_int ext i ;; Ok (n - 1)%Z) toks = Ok atoms ->
  compared_distinct key atoms ->
  primitive_branch ext molecule md key (kw :: rev toks ++ rest) classes
    n_atom st =
  primitive_branch ext molecule md key (kw :: toks ++ rest) classes
    n_atom st.
Proof.
  intros Hkey Hdict Hlen Hatoms Hnd.
  assert (Hla : List.length atoms = n_atom)
    by (apply mapM_length in Hatoms; congruence).
  destruct (canonical_order_rev key classes n_atom atoms Hkey Hdict Hla Hnd)
    as (c & Hc & Hc' & _).
  assert (Hlr : List.length (rev toks) = n_atom)
    by (rewrite length_rev; exact Hlen).
  unfold primitive_branch.
  destruct (negb (List.length classes =? 1)%nat); [reflexivity|].
  rewrite (slice_tokens_n kw toks rest n_atom Hlen).
  rewrite (slice_tokens_n kw (rev toks) rest n_atom Hlr).
  rewrite Hatoms, (mapM_rev _ _ _ Hatoms). cbn [bind].
  rewrite Hc, Hc'. cbn [bind].
  destruct (check_atoms molecule c); [|reflexivity]. cbn [bind].
  destruct (item classes 0); [|reflexivity]. cbn [bind].
  destruct (String.eqb md "freeze"); [reflexivity|].
  destruct (PyStr.mem md ["set"; "scan"]); [|reflexivity].
  rewrite (item_after_tokens_n kw toks rest 0 n_atom Hlen).
  rewrite (item_after_tokens_n kw (rev toks) rest 0 n_atom Hlr).
  destruct (item rest 0) as [t1|]; [|reflexivity]. cbn [bind].
  destruct (primitive_value ext key t1); [|reflexivity]. cbn [bind].
  destruct (String.eqb md "set"); [reflexivity|].
  rewrite (item_after_tokens_n kw toks rest 1 n_atom Hlen).
  rewrite (item_after_tokens_n kw (rev toks) rest 1 n_atom Hlr).
  destruct (item rest 1) as [t2|]; [|reflexivity]. cbn [bind].
  destruct (primitive_value ext key t2); [|reflexivity]. cbn [bind].
  rewrite (item_after_tokens_n kw toks rest 2 n_atom Hlen).
  rewrite (item_after_tokens_n kw (rev toks) rest 2 n_atom Hlr).
  reflexivity.
Qed.

(** C8: for a valid distance, angle or dihedral declaration, one that
    compiles and whose compared atoms are two different atoms (first and last
    of a distance, first and third of an angle, second and third of a
    dihedral), the declaration with the atoms in the reversed order compiles
    to the same state, hence to the same coordinate object, and the atoms of
    that object are in the canonical direction: first below last for a
    distance, first below third for an angle, second below third for a
    dihedral. *)
Theorem reversed_atoms_same_object (ext : Externals) (molecule : Molecule)
    (st st1 : state) (line line' kw : string) (toks rest : list string)
    (classes : list CoordClass) (n_atom : nat) (atoms : list Z) :
  PyStr.split line = kw :: toks ++ rest ->
  PyStr.split line' = kw :: rev toks ++ rest ->
  PyStr.mem (normalize_key kw) ["distance"; "angle"; "dihedral"] = true ->
  getitem ClassDict (normalize_key kw) = Ok (classes, n_atom) ->
  List.length toks = n_atom ->
  mapM (fun i => n <- py_int ext i ;; Ok (n - 1)%Z) toks = Ok atoms ->
  compared_distinct (normalize_key kw) atoms ->
  declaration ext molecule st line = Ok st1 ->
  declaration ext molecule st line' = Ok st1
  /\ exists (cls : CoordClass) (c : list Z),
       objs st1 = objs st ++ [[OnAtoms cls c]]
       /\ canonical (normalize_key kw) c.
Proof.
  intros Hs Hs' Hkey Hdict Hlen Hatoms Hnd H.
  assert (Hla : List.length atoms = n_atom)
    by (apply mapM_length in Hatoms; congruence).
  destruct (canonical_order_rev _ classes n_atom atoms Hkey Hdict Hla Hnd)
    as (c & Hc & _ & Hcan).
  unfold declaration in *.
  destruct (mode st) as [md|]; [|discriminate].
  rewrite Hs in H. rewrite Hs'.
  change (item (kw :: toks ++ rest) 0) with (Ok kw) in H.
  change (item (kw :: rev toks ++ rest) 0) with (Ok kw).
  cbn [bind] in *. rewrite Hdict in *. cbn [bind] in *.
  destruct (assign_ntok md (normalize_key kw) classes n_atom (ntok st))
    as [n|]; [|discriminate].
  assert (Hlens : List.length (kw :: rev toks ++ rest) =
                  List.length (kw :: toks ++ rest))
    by (simpl; rewrite !length_app, length_rev; reflexivity).
  rewrite Hlens.
  destruct (negb (List.length (kw :: toks ++ rest) =? n + 1)%nat);
    [discriminate|].
  assert (HAT : PyStr.mem (normalize_key kw) AtomKeys = false
                /\ PyStr.mem (normalize_key kw) TransKeys = false).
  { destruct (ClassDict_families _ classes n_atom Hdict)
      as [(_ & _ & _ & HP) | [(_ & _ & _ & _ & HP) | [(HA & HT & _)
         | (_ & _ & HP & _)]]]; try congruence.
    split; assumption. }
  destruct HAT as [HA HT].
  rewrite HA, HT, Hkey in *. cbn [orb] in *.
  rewrite (primitive_branch_rev ext molecule md _ kw toks rest classes
             n_atom atoms) by assumption.
  split; [exact H|].
  apply primitive_branch_object in H as (atoms' & c' & cls & Ha & Hc2 & Ho).
  rewrite (slice_tokens_n kw toks rest n_atom Hlen) in Ha.
  assert (atoms' = atoms) by congruence. subst atoms'.
  assert (c' = c) by congruence. subst c'.
  exists cls, c. split; [exact Ho|exact Hcan].
Qed.

Lemma reversed_atoms_same_object_witness :
  exists st1 : state,
    declaration Sample.ext Sample.molecule
      (with_mode initial_state (Some "freeze")) "dihedral 1 3 2 4" = Ok st1
    /\ declaration Sample.ext Sample.molecule
         (with_mode initial_state (Some "freeze")) "dihedral 4 2 3 1" = Ok st1
    /\ objs st1 = [[OnAtoms Dihedral [3; 1; 2; 0]%Z]].
Proof.
  eexists. split; [lazy; reflexivity|].
  split; [|reflexivity].
  apply (reversed_atoms_same_object Sample.ext Sample.molecule
           (with_mode initial_state (Some "freeze")) _
           "dihedral 1 3 2 4" "dihedral 4 2 3 1" "dihedral"
           ["1"; "3"; "2"; "4"] [] [Dihedral] 4 [0; 2; 1; 3]%Z);
    try reflexivity.
  repeat split; intros _; simpl; lia.
Defined.

(** ** The weight of the rotation coordinates (lines 433 and 563-565) *)

Section Radius.

Local Open Scope R_scope.

Lemma sum_map_scale {A : Type} (f : A -> R) (k : R) (l : list A) :
  Np.sum (map (fun x => f x * k) l) = Np.sum (map f l) * k.
Proof.
  induction l as [|a l IH]; simpl; [ring|]. rewrite IH. ring.
Qed.

Lemma mean_map_scale {A : Type} (f : A -> R) (k : R) (l : list A) :
  Np.mean (map (fun x => f x * k) l) = Np.mean (map f l) * k.
Proof.
  unfold Np.mean. rewrite sum_map_scale, !length_map.
  unfold Rdiv. ring.
Qed.

Lemma mean_axis0_scale (k : R) (pts : list Np.vec3) :
  Np.mean_axis0 (map (Np.scale3 k) pts) = Np.scale3 k (Np.mean_axis0 pts).
Proof.
  assert (H : forall f : Np.vec3 -> R,
             (forall p, f (Np.scale3 k p) = f p * k) ->
             Np.mean (map f (map (Np.scale3 k) pts)) = Np.mean (map f pts) * k).
  { intros f Hf. rewrite map_map, (map_ext _ (fun p => f p * k)) by exact Hf.
    apply mean_map_scale. }
  unfold Np.mean_axis0. cbn [Np.scale3].
  rewrite !H by (intros [[x y] z]; reflexivity). reflexivity.
Qed.

(** Scaling the points by a non-negative factor scales the radius. *)
Lemma rms_radius_scale (k : R) (pts : list Np.vec3) :
  0 <= k -> rms_radius (map (Np.scale3 k) pts) = k * rms_radius pts.
Proof.
  intros Hk. unfold rms_radius. rewrite mean_axis0_scale, !map_map.
  rewrite (map_ext _ (fun p => Np.sumsq3 (Np.sub3 p (Np.mean_axis0 pts))
                               * (k * k))).
  - rewrite mean_map_scale, Rmult_comm, sqrt_mult_alt by nra.
    rewrite sqrt_square by exact Hk. reflexivity.
  - intros [[x y] z]. destruct (Np.mean_axis0 pts) as [[a b] c].
    simpl. ring.
Qed.

(** What the code computes: the coordinates, already in Bohr, are scaled by
    [ang2bohr] once more, which multiplies the radius by [ang2bohr]. *)
Lemma radius_of_gyration_scaled (ext : Externals) (molecule : Molecule)
    (atoms : list Z) (sel : list Np.vec3) :
  0 <= ang2bohr ext ->
  Np.take (coords ext molecule) atoms = Ok sel ->
  radius_of_gyration ext molecule atoms =
  Ok (ang2bohr ext * rms_radius sel).
Proof.
  intros Hk Hsel. unfold radius_of_gyration. rewrite Hsel. cbn [bind].
  f_equal. apply (rms_radius_scale (ang2bohr ext) sel Hk).
Qed.

Lemma sample_ang2bohr_bounds : 1 < Sample.ang2bohr < 2.
Proof. unfold Sample.ang2bohr. lra. Qed.

(** C5, at the failing input: for the two atoms at the origin and at
    2 Angstrom on the x axis, the root-mean-square distance from the
    centroid of the coordinates in Bohr is [ang2bohr], and the weight that
    the rotation branch computes and gives to the rotation objects is
    [ang2bohr * ang2bohr]. *)
Theorem radius_of_gyration_diatomic :
  Np.take (coords Sample.ext Sample.diatomic) [0; 1]%Z =
    Ok (coords Sample.ext Sample.diatomic)
  /\ rms_radius (coords Sample.ext Sample.diatomic) = Sample.ang2bohr
  /\ radius_of_gyration Sample.ext Sample.diatomic [0; 1]%Z =
     Ok (Sample.ang2bohr * Sample.ang2bohr)
  /\ parse_constraints Sample.ext Sample.diatomic
       (Sample.lines ["$freeze"; "rotation 1-2"]) =
     Ok (map (fun cls =>
                OnRotor cls [0; 1]%Z (coords Sample.ext Sample.diatomic)
                  (Sample.ang2bohr * Sample.ang2bohr))
             [RotationA; RotationB; RotationC],
         [[None; None; None]])
  /\ Sample.ang2bohr * Sample.ang2bohr <> Sample.ang2bohr.
Proof.
  assert (Hb := sample_ang2bohr_bounds).
  assert (Hrms : rms_radius (coords Sample.ext Sample.diatomic)
                 = Sample.ang2bohr).
  { unfold rms_radius, coords, Np.mean_axis0, Np.mean, Np.sum. simpl.
    set (k := Sample.ang2bohr) in *.
    match goal with
    | |- sqrt ?x = _ => replace x with (k * k) by field
    end.
    apply sqrt_square. lra. }
  assert (Hrg : radius_of_gyration Sample.ext Sample.diatomic [0; 1]%Z =
                Ok (Sample.ang2bohr * Sample.ang2bohr)).
  { rewrite (radius_of_gyration_scaled Sample.ext Sample.diatomic [0; 1]%Z
               (coords Sample.ext Sample.diatomic)).
    - rewrite Hrms. reflexivity.
    - simpl. lra.
    - reflexivity. }
  split; [reflexivity|]. split; [exact Hrms|]. split; [exact Hrg|].
  split; [|nra].
  change (parse_constraints Sample.ext Sample.diatomic
            (Sample.lines ["$freeze"; "rotation 1-2"]))
    with (rg <- radius_of_gyration Sample.ext Sample.diatomic [0; 1]%Z ;;
          Ok (map (fun cls =>
                     OnRotor cls [0; 1]%Z (coords Sample.ext Sample.diatomic)
                       rg)
                  [RotationA; RotationB; RotationC],
              [[@None R; None; None]])).
  rewrite Hrg. reflexivity.
Qed.

End Radius.

(** ** Atom indices out of range (lines 485-488, 543-546 and 562-563) *)



Lemma check_atoms_in_range (molecule : Molecule) (atoms : list Z) (u : unit) :
  check_atoms molecule atoms = Ok u ->
  Forall (fun i => (0 <= i < Z.of_nat (na molecule))%Z) atoms.
Proof.
  unfold check_atoms.
  destruct (existsb (fun i => (i <? 0)%Z) atoms) eqn:Hneg; [discriminate|].
  destruct (existsb (fun i => (Z.of_nat (na molecule) <=? i)%Z) atoms)
    eqn:Hhigh; [discriminate|].
  intros _. apply Forall_forall. intros i Hi. split.
  - destruct (Z.ltb_spec i 0) as [Hlt|Hge]; [|exact Hge].
    assert (existsb (fun i => (i <? 0)%Z) atoms = true)
      by (apply existsb_exists; exists i; split;
          [exact Hi|apply Z.ltb_lt; exact Hlt]).
    congruence.
  - destruct (Z.leb_spec (Z.of_nat (na molecule)) i) as [Hle|Hlt];
      [|exact Hlt].
    assert (existsb (fun i => (Z.of_nat (na molecule) <=? i)%Z) atoms = true)
      by (apply existsb_exists; exists i; split;
          [exact Hi|apply Z.leb_le; exact Hle]).
    congruence.
Qed.

Lemma atom_branch_objs (ext : Externals) (md : string) (s : list string)
    (classes : list CoordClass) (atoms : list Z) (st st' : state) :
  atom_branch ext md s classes atoms st = Ok st' ->
  exists v,
    st' = with_groups st
            (map (fun cls => map (fun a => OnAtom cls a 1%R) atoms) classes) v.
Proof.
  unfold atom_branch. intros H.
  destruct (String.eqb md "freeze"); [injection H as <-; eexists; reflexivity|].
  destruct (String.eqb md "set").
  { do 2 ok_inv H. injection H as <-. eexists. reflexivity. }
  destruct (String.eqb md "scan").
  { do 6 ok_inv H. injection H as <-. eexists. reflexivity. }
  injection H as <-. eexists. reflexivity.
Qed.

Lemma trans_branch_objs (ext : Externals) (md : string) (s : list string)
    (classes : list CoordClass) (atoms : list Z) (st st' : state) :
  trans_branch ext md s classes atoms st = Ok st' ->
  exists o v,
    st' = with_groups st [o] v
    /\ Forall (fun ob => incl (atoms_of ob) atoms) o.
Proof.
  unfold trans_branch. intros H. ok_inv H. rename a into o.
  assert (Ho : Forall (fun ob => incl (atoms_of ob) atoms) o).
  { destruct (1 <? List.length atoms)%nat.
    - injection E as <-. apply Forall_forall. intros ob Hob.
      apply in_map_iff in Hob as (cls & <- & _). apply incl_refl.
    - eapply mapM_Forall; [exact E|]. intros cls ob _ Hob.
      ok_inv Hob. injection Hob as <-. simpl.
      unfold item in E0. destruct atoms as [|a1 atoms']; [discriminate|].
      injection E0 as <-. intros x [<-|[]]. left. reflexivity. }
  clear E. exists o.
  destruct (String.eqb md "freeze");
    [injection H as <-; eexists; split; [reflexivity|exact Ho]|].
  destruct (String.eqb md "set").
  { ok_inv H. injection H as <-. eexists. split; [reflexivity|exact Ho]. }
  destruct (String.eqb md "scan").
  { do 5 ok_inv H. injection H as <-. eexists.
    split; [reflexivity|exact Ho]. }
  injection H as <-. eexists. split; [reflexivity|exact Ho].
Qed.

Lemma primitive_branch_checked (ext : Externals) (molecule : Molecule)
    (md key : string) (s : list string) (classes : list CoordClass)
    (n_atom : nat) (st st' : state) :
  primitive_branch ext molecule md key s classes n_atom st = Ok st' ->
  exists cls c v,
    st' = with_groups st [[OnAtoms cls c]] v
    /\ check_atoms molecule c = Ok tt.
Proof.
  unfold primitive_branch. intros H.
  destruct (negb (List.length classes =? 1)%nat); [discriminate|].
  do 4 ok_inv H. destruct a1. exists a2, a0.
  destruct (String.eqb md "freeze");
    [injection H as <-; eexists; split; [reflexivity|exact E1]|].
  destruct (PyStr.mem md ["set"; "scan"]);
    [|injection H as <-; eexists; split; [reflexivity|exact E1]].
  do 2 ok_inv H.
  destruct (String.eqb md "set");
    [injection H as <-; eexists; split; [reflexivity|exact E1]|].
  do 5 ok_inv H. injection H as <-. eexists. split; [reflexivity|exact E1].
Qed.

(** X1: outside the rotation family a declaration that compiles has appended
    objects whose atom indices are all in range. *)
Lemma checked_families_in_range (ext : Externals) (molecule : Molecule)
    (st st' : state) (line md key0 : string) :
  mode st = Some md ->
  item (PyStr.split line) 0 = Ok key0 ->
  String.eqb (normalize_key key0) "rotation" = false ->
  declaration ext molecule st line = Ok st' ->
  exists o v,
    objs st' = objs st ++ o /\ vals st' = vals st ++ v
    /\ Forall (Forall (in_range molecule)) o.
Proof.
  intros Hmode Hkey Hnot H. unfold declaration in H.
  rewrite Hmode, Hkey in H. cbn [bind] in H.
  remember (normalize_key key0) as key eqn:Heqkey. clear Heqkey.
  ok_inv H. destruct a as [classes n_atom].
  destruct (assign_ntok md key classes n_atom (ntok st)) as [n|];
    [|discriminate].
  destruct (negb (List.length (PyStr.split line) =? n + 1)%nat);
    [discriminate|].
  destruct (ClassDict_families key classes n_atom E)
    as [(HA & _) | [(HA & HT & _) | [(HA & HT & HP & _)
       | (_ & _ & _ & Hr & _)]]].
  - rewrite HA in H. cbn [orb] in H. do 3 ok_inv H. destruct a1.
    apply check_atoms_in_range in E2.
    apply atom_branch_objs in H as (v & ->).
    eexists _, v. split; [reflexivity|]. split; [reflexivity|].
    apply Forall_forall. intros og Hog.
    apply in_map_iff in Hog as (cls & <- & _).
    apply Forall_forall. intros ob Hob.
    apply in_map_iff in Hob as (x & <- & Hx).
    rewrite Forall_forall in E2. constructor; [apply E2, Hx|constructor].
  - rewrite HA, HT in H. cbn [orb] in H. do 3 ok_inv H. destruct a1.
    apply check_atoms_in_range in E2.
    apply trans_branch_objs in H as (o & v & -> & Ho).
    eexists [o], v. split; [reflexivity|]. split; [reflexivity|].
    constructor; [|constructor].
    apply Forall_forall. intros ob Hob. rewrite Forall_forall in Ho.
    apply Forall_forall. intros i Hi. rewrite Forall_forall in E2.
    apply E2, (Ho ob Hob), Hi.
  - rewrite HA, HT, HP in H. cbn [orb] in H.
    apply primitive_branch_checked in H as (cls & c & v & -> & Hc).
    apply check_atoms_in_range in Hc.
    eexists _, v. split; [reflexivity|]. split; [reflexivity|].
    repeat constructor. exact Hc.
  - subst key. discriminate.
Qed.

Lemma row_raises_IndexError {A : Type} (a : list A) (i : Z) (e : exn) :
  Np.row a i = Raise e -> e = IndexError.
Proof.
  unfold Np.row, item.
  destruct ((i <? - Z.of_nat (List.length a))
            || (Z.of_nat (List.length a) <=? i))%Z.
  - intros [= <-]. reflexivity.
  - destruct (nth_error a _); [discriminate|]. intros [= <-]. reflexivity.
Qed.

(** Selecting rows of an array with an index at or beyond its length raises
    [IndexError]. *)
Lemma take_out_of_range (a : list Np.vec3) (idx : list Z) :
  Exists (fun i => (Z.of_nat (List.length a) <= i)%Z) idx ->
  Np.take a idx = Raise IndexError.
Proof.
  unfold Np.take. induction idx as [|i idx IH]; intros H;
    inversion H as [? ? Hi|? ? Ht]; subst; simpl.
  - unfold Np.row.
    replace (Z.of_nat (List.length a) <=? i)%Z with true
      by (symmetry; apply Z.leb_le; exact Hi).
    rewrite orb_true_r. reflexivity.
  - destruct (Np.row a i) as [r|e] eqn:Hr; simpl.
    + rewrite (IH Ht). reflexivity.
    + apply row_raises_IndexError in Hr. subst e. reflexivity.
Qed.

(** X2: the rotation branch lets an index at or beyond the number of atoms reach
    the selection of the coordinates. *)
Lemma rotation_branch_out_of_range (ext : Externals) (molecule : Molecule)
    (md : string) (s : list string) (classes : list CoordClass) (st : state)
    (s1 : string) (atoms : list Z) :
  List.length (xyzs0 molecule) = na molecule ->
  item s 1 = Ok s1 ->
  uncommadash ext s1 = Ok atoms ->
  Exists (fun i => (Z.of_nat (na molecule) <= i)%Z) atoms ->
  rotation_branch ext molecule md s classes st = Raise IndexError.
Proof.
  intros Hna Hs1 Hatoms Hex. unfold rotation_branch.
  rewrite Hs1. cbn [bind]. rewrite Hatoms. cbn [bind].
  unfold radius_of_gyration. rewrite take_out_of_range; [reflexivity|].
  unfold coords. rewrite length_map, Hna. exact Hex.
Qed.

(** The other keyword families raise the two errors of the compiler. *)
Example sibling_families_check_indices :
  parse_constraints Sample.ext Sample.molecule
    (Sample.lines ["$freeze"; "xyz 99"]) =
  Raise (RuntimeError too_high_message)
  /\ parse_constraints Sample.ext Sample.molecule
       (Sample.lines ["$freeze"; "trans-x 0"]) =
     Raise (RuntimeError negative_message)
  /\ parse_constraints Sample.ext Sample.molecule
       (Sample.lines ["$freeze"; "distance 1 99"]) =
     Raise (RuntimeError too_high_message)
  /\ parse_constraints Sample.ext Sample.molecule
       (Sample.lines ["$freeze"; "dihedral 1 2 3 0"]) =
     Raise (RuntimeError negative_message).
Proof. repeat split; reflexivity. Qed.








(** * Further properties of the code *)

(** ** The choice of the engine (lines 132-141 and 319-326) *)

Lemma lower_char_idempotent (c : ascii) :
  PyStr.lower_char (PyStr.lower_char c) = PyStr.lower_char c.
Proof. destruct c as [[] [] [] [] [] [] [] []]; reflexivity. Qed.

Lemma lower_idempotent (s : string) :
  PyStr.lower (PyStr.lower s) = PyStr.lower s.
Proof.
  induction s as [|c s IH]; simpl; [reflexivity|].
  rewrite lower_char_idempotent, IH. reflexivity.
Qed.

Lemma lower_length (s : string) :
  String.length (PyStr.lower s) = String.length s.
Proof. induction s as [|c s IH]; simpl; [reflexivity|]. rewrite IH. reflexivity. Qed.

Lemma mem_In (x : string) (l : list string) :
  PyStr.mem x l = true <-> In x l.
Proof.
  unfold PyStr.mem. rewrite existsb_exists. split.
  - intros (y & Hy & Heq). apply String.eqb_eq in Heq. subst. exact Hy.
  - intros H. exists x. split; [exact H|apply String.eqb_refl].
Qed.

(** X3: once the engine name has passed the test of line 137 one of the
    branches of lines 141-304 is entered: the error of line 320 is never
    raised, whatever the arguments. *)
Theorem select_engine_no_fallback (engine_str : option string)
    (customengine : bool) :
  Engine.select_engine engine_str customengine <>
  Raise (RuntimeError Engine.fallback_message).
Proof.
  unfold Engine.select_engine.
  assert (Hn : @Raise Engine.branch (RuntimeError Engine.neither_message) <>
               Raise (RuntimeError Engine.fallback_message))
    by (intros H; vm_compute in H; discriminate H).
  destruct engine_str as [e0|]; [|destruct customengine; [discriminate|exact Hn]].
  destruct (negb (String.length e0 =? 0)%nat);
    [|destruct customengine; [discriminate|exact Hn]].
  remember (Engine.normalize_engine e0) as e eqn:He. clear He.
  destruct (PyStr.mem e Engine.implemented_engines) eqn:Hmem; cbn [negb].
  - destruct customengine;
      [intros H; vm_compute in H; discriminate H|].
    apply mem_In in Hmem. simpl in Hmem.
    repeat (destruct Hmem as [<-|Hmem]; [discriminate|]). contradiction.
  - intros H. vm_compute in H. discriminate H.
Qed.

Lemma prefix_tera (e : string) :
  PyStr.startswith e "tera" = true -> substring 0 4 e = "tera".
Proof. unfold PyStr.startswith. intros H. apply prefix_correct in H. exact H. Qed.

(** X4: the engine name is read without regard to case, and every name whose
    lower-case form begins with ["tera"] selects the TeraChem branch. *)
Theorem select_engine_name (e0 : string) (customengine : bool) :
  Engine.select_engine (Some (PyStr.lower e0)) customengine =
  Engine.select_engine (Some e0) customengine
  /\ (PyStr.startswith (PyStr.lower e0) "tera" = true ->
      Engine.select_engine (Some e0) false = Ok Engine.OnTera).
Proof.
  split.
  - unfold Engine.select_engine, Engine.normalize_engine.
    rewrite lower_length, lower_idempotent. reflexivity.
  - intros H. unfold Engine.select_engine, Engine.normalize_engine.
    rewrite (prefix_tera _ H).
    destruct e0 as [|c e0]; [discriminate H|]. reflexivity.
Qed.

Lemma select_engine_name_witness :
  Engine.select_engine (Some "TeraChem") false = Ok Engine.OnTera.
Proof.
  apply (proj2 (select_engine_name "TeraChem" false)). reflexivity.
Defined.

(** ** The final checks on [qcdir] and [nt] (lines 354-357) *)

Lemma select_engine_branch (e0 : string) (b : Engine.branch) :
  Engine.select_engine (Some e0) false = Ok b ->
  In (Engine.normalize_engine e0, b)
     [("tera", Engine.OnTera); ("qchem", Engine.OnQChem);
      ("gmx", Engine.OnGmx); ("openmm", Engine.OnOpenMM);
      ("psi4", Engine.OnPsi4); ("molpro", Engine.OnMolpro);
      ("gaussian", Engine.OnGaussian); ("quick", Engine.OnQuick);
      ("qcengine", Engine.OnQCEngine); ("ase", Engine.OnAse)].
Proof.
  unfold Engine.select_engine.
  destruct (negb (String.length e0 =? 0)%nat); [|discriminate].
  remember (Engine.normalize_engine e0) as e eqn:He. clear He.
  destruct (negb (PyStr.mem e Engine.implemented_engines)); [discriminate|].
  repeat match goal with
         | |- (if String.eqb e ?k then _ else _) = _ -> _ =>
             destruct (String.eqb e k) eqn:E;
             [apply String.eqb_eq in E; subst e; intros [= <-];
              simpl; tauto|clear E]
         end.
  discriminate.
Qed.

(** X5: for an engine chosen by name, a number of threads passes the final
    checks exactly for the engines qchem, psi4, molpro, gaussian and quick,
    and otherwise raises the error that names the engine; a [qcdir] raises
    [EngineError] exactly when the engine is not qchem, before the threads
    are looked at. *)
Theorem threads_and_qcdir_support (e0 : string) (b : Engine.branch)
    (threads : bool) :
  Engine.select_engine (Some e0) false = Ok b ->
  let e := Engine.normalize_engine e0 in
  let check := Engine.sanity_checks (Engine.using_qchem b)
                 (Engine.threads_enabled b) (Some e) in
  (check false true = None <->
   In e ["qchem"; "psi4"; "molpro"; "gaussian"; "quick"])
  /\ (check false true <> None ->
      check false true =
      Some (Engine.Builtin (RuntimeError (Engine.threads_message (Some e)))))
  /\ (check true threads = Some (Engine.EngineError Engine.qcdir_message) <->
      e <> "qchem")
  /\ check false false = None.
Proof.
  intros H e check. apply select_engine_branch in H. fold e in H.
  subst check. simpl in H.
  repeat (destruct H as [H|H];
          [injection H as <- <-; simpl;
           repeat split; intros; try reflexivity; try discriminate;
           try congruence; try tauto;
           try (destruct threads; discriminate);
           try (repeat match goal with
                       | Hin : _ \/ _ |- _ => destruct Hin as [Hin|Hin];
                                              try discriminate Hin
                       end; contradiction)|]).
  contradiction.
Qed.

Lemma threads_and_qcdir_support_witness :
  Engine.sanity_checks (Engine.using_qchem Engine.OnGmx)
    (Engine.threads_enabled Engine.OnGmx) (Some "gmx") false true =
  Some (Engine.Builtin
          (RuntimeError
             "Setting number of threads not configured to work with gmx yet")).
Proof.
  apply (proj1 (proj2 (threads_and_qcdir_support "GMX" Engine.OnGmx true
                         eq_refl))).
  discriminate.
Defined.

(** ** The QUICK executable (lines 278-287) *)

(** X6: the choice depends only on whether [quick.cuda.MPI], [quick.cuda] and
    [quick] are found; [quick.MPI] is chosen exactly when [quick] alone is
    found, without being looked for itself, and the plain [quick] is never
    chosen. *)
Theorem quick_exe_choice (which : string -> bool) :
  Engine.quick_exe which <> Ok "quick"
  /\ (Engine.quick_exe which = Ok "quick.MPI" <->
      which "quick.cuda.MPI" = false /\ which "quick.cuda" = false
      /\ which "quick" = true)
  /\ ((exists msg, Engine.quick_exe which = Raise (ValueError msg)) <->
      which "quick.cuda.MPI" = false /\ which "quick.cuda" = false
      /\ which "quick" = false).
Proof.
  unfold Engine.quick_exe.
  destruct (which "quick.cuda.MPI"), (which "quick.cuda"), (which "quick");
    (split; [discriminate|]);
    (split; split);
    try (intros (H1 & H2 & H3); discriminate);
    try (intros (msg & H); discriminate H);
    try discriminate; try (intros _; repeat split; reflexivity);
    try (intros _; eexists; reflexivity).
Qed.

(** ** The frames of the NEB images (lines 342-350) *)

Section NebFrames.

Local Open Scope R_scope.

Lemma Int_part_IZR (z : Z) : Int_part (IZR z) = z.
Proof. symmetry. apply Int_part_spec. lra. Qed.

Lemma py_round_IZR (z : Z) : Engine.py_round (IZR z) = z.
Proof.
  unfold Engine.py_round. rewrite Int_part_IZR.
  destruct (Rlt_dec (IZR z - IZR z) (1 / 2)) as [_|H]; [reflexivity|lra].
Qed.

(** Rounding stays between the integers that enclose the number. *)
Lemma py_round_between (a b : Z) (x : R) :
  IZR a <= x <= IZR b -> (a <= Engine.py_round x <= b)%Z.
Proof.
  intros [Ha Hb]. unfold Engine.py_round.
  destruct (base_Int_part x) as [Hlo Hhi].
  set (f := Int_part x) in *.
  assert (Haf : (a <= f)%Z).
  { apply Z.lt_succ_r, lt_IZR. rewrite succ_IZR. lra. }
  assert (Hfb : (f <= b)%Z) by (apply le_IZR; lra).
  destruct (Rlt_dec (x - IZR f) (1 / 2)) as [_|Hge]; [lia|].
  assert (Hlt : (f < b)%Z).
  { apply lt_IZR. lra. }
  destruct (Rlt_dec (1 / 2) (x - IZR f)); [lia|].
  destruct (Z.even f); lia.
Qed.

Lemma IZR_pred_of_nat (n : nat) :
  (1 <= n)%nat -> IZR (Z.of_nat n - 1) = INR (n - 1).
Proof.
  intros H. rewrite INR_IZR_INZ. f_equal. lia.
Qed.

(** Every sample between two bounds lies between them. *)
Lemma samples_between (b : R) (n : nat) (x : R) :
  0 <= b -> In x (Np.samples 0 b n) -> 0 <= x <= b.
Proof.
  intros Hb Hx. apply (In_nth _ _ 0) in Hx as (i & Hi & <-).
  rewrite samples_length in Hi.
  destruct n as [|[|n]]; [lia| |].
  - rewrite samples_one. destruct i as [|[|i]]; simpl; lra.
  - rewrite samples_nth by lia.
    assert (Hd : 0 < INR (S (S n) - 1)) by (apply lt_0_INR; lia).
    assert (Hi' : 0 <= INR i <= INR (S (S n) - 1))
      by (split; [apply pos_INR|apply le_INR; lia]).
    set (d := INR (S (S n) - 1)) in *.
    replace (0 + INR i * ((b - 0) / d)) with (INR i / d * b) by (field; lra).
    assert (0 <= INR i / d <= 1).
    { split.
      - apply Rmult_le_pos; [lra|]. apply Rlt_le, Rinv_0_lt_compat, Hd.
      - apply Rmult_le_reg_r with d; [exact Hd|].
        replace (INR i / d * d) with (INR i) by (field; lra). lra. }
    split; [apply Rmult_le_pos; lra|].
    replace b with (1 * b) at 2 by ring.
    apply Rmult_le_compat_r; lra.
Qed.

(** With as many samples as integers from 0 to [n - 1], the samples are
    these integers. *)
Lemma samples_all (n i : nat) :
  (i < n)%nat -> nth i (Np.samples 0 (IZR (Z.of_nat n - 1)) n) 0 = INR i.
Proof.
  intros Hi. destruct n as [|[|n]]; [lia| |].
  - rewrite samples_one. destruct i as [|i]; [reflexivity|lia].
  - rewrite samples_nth by lia. rewrite IZR_pred_of_nat by lia.
    assert (Hd : 0 < INR (S (S n) - 1)) by (apply lt_0_INR; lia).
    field. lra.
Qed.

(** X7: when the chain has at least one frame and the number of images is not
    negative, there are as many indices as images, or as frames when fewer
    frames than images were loaded; every index is the index of a frame;
    with two indices or more the first frame and the last are selected; and
    when no more frames than images were loaded, every frame is selected
    once, in order. *)
Theorem neb_frames_selection (images : option Z) (nframes : nat) :
  let requested := match images with Some i => i | None => 11%Z end in
  let count := Z.to_nat (Z.min requested (Z.of_nat nframes)) in
  (1 <= nframes)%nat -> (0 <= requested)%Z ->
  exists idx : list Z,
    Engine.neb_frames images nframes = Ok idx
    /\ List.length idx = count
    /\ Forall (fun i => (0 <= i < Z.of_nat nframes)%Z) idx
    /\ ((2 <= count)%nat ->
        nth 0 idx 0%Z = 0%Z
        /\ nth (count - 1) idx 0%Z = (Z.of_nat nframes - 1)%Z)
    /\ ((Z.of_nat nframes <= requested)%Z ->
        idx = map Z.of_nat (seq 0 nframes)).
Proof.
  intros requested count Hn Hreq. unfold Engine.neb_frames.
  fold requested.
  set (eff := if (Z.of_nat nframes <? requested)%Z then Z.of_nat nframes
              else requested).
  assert (Heff : eff = Z.min requested (Z.of_nat nframes)).
  { unfold eff. destruct (Z.ltb_spec (Z.of_nat nframes) requested); lia. }
  rewrite Heff. fold count.
  rewrite linspace_nonneg by lia. cbn [bind]. fold count.
  set (b := IZR (Z.of_nat nframes - 1)).
  assert (Hb : 0 <= b) by (unfold b; apply IZR_le; lia).
  eexists. split; [reflexivity|].
  split; [rewrite length_map; apply samples_length|].
  split.
  { apply Forall_forall. intros z Hz.
    apply in_map_iff in Hz as (x & <- & Hx).
    apply (samples_between b count x Hb) in Hx.
    assert (H := py_round_between 0 (Z.of_nat nframes - 1) x).
    fold b in H. specialize (H Hx). lia. }
  split.
  { intros Hc. split.
    - rewrite (nth_map_in _ _ 0%nat 0%Z 0)
        by (rewrite samples_length; lia).
      rewrite samples_first by exact Hc. apply (py_round_IZR 0).
    - rewrite (nth_map_in _ _ (count - 1)%nat 0%Z 0)
        by (rewrite samples_length; lia).
      rewrite samples_last by exact Hc. apply py_round_IZR. }
  intros Hall.
  assert (Hcount : count = nframes) by (unfold count; lia).
  rewrite Hcount.
  rewrite (map_nth_seq Engine.py_round (Np.samples 0 b nframes) 0).
  rewrite samples_length. apply map_ext_in. intros i Hi.
  apply in_seq in Hi. unfold b. rewrite samples_all by lia.
  rewrite INR_IZR_INZ. apply py_round_IZR.
Qed.

Lemma neb_frames_selection_witness :
  exists idx : list Z,
    Engine.neb_frames (Some 5%Z) 3 = Ok idx
    /\ idx = [0; 1; 2]%Z.
Proof.
  destruct (neb_frames_selection (Some 5%Z) 3) as (idx & H & _ & _ & _ & Hall);
    [lia|lia|].
  exists idx. split; [exact H|]. apply Hall. lia.
Defined.

End NebFrames.

(** ** The radii of the command line (lines 122-128) *)

Lemma getitem_setitem_same {V : Type} (d : list (string * V)) (key : string)
    (v : V) :
  getitem (Engine.setitem d key v) key = Ok v.
Proof.
  induction d as [|[k w] d IH]; simpl.
  - rewrite String.eqb_refl. reflexivity.
  - destruct (String.eqb k key) eqn:E; simpl; rewrite E; [reflexivity|exact IH].
Qed.

Lemma getitem_setitem_other {V : Type} (d : list (string * V))
    (key key' : string) (v : V) :
  key <> key' ->
  getitem (Engine.setitem d key v) key' = getitem d key'.
Proof.
  intros Hne. induction d as [|[k w] d IH]; simpl.
  - destruct (String.eqb key key') eqn:E; [|reflexivity].
    apply String.eqb_eq in E. contradiction.
  - destruct (String.eqb k key) eqn:E; simpl.
    + apply String.eqb_eq in E. subst k.
      destruct (String.eqb key key') eqn:E'; [|reflexivity].
      apply String.eqb_eq in E'. contradiction.
    + destruct (String.eqb k key'); [reflexivity|exact IH].
Qed.

(** Looking up a key after a sequence of assignments. *)
Lemma getitem_assignments {V : Type} (l : list (string * V)) :
  forall (d : list (string * V)) (key : string),
    getitem (fold_left (fun acc kv => Engine.setitem acc (fst kv) (snd kv)) l d)
            key =
    match last_assigned l key with
    | Some v => Ok v
    | None => getitem d key
    end.
Proof.
  induction l as [|[k v] l IH]; intros d key; simpl; [reflexivity|].
  rewrite IH. destruct (last_assigned l key); [reflexivity|].
  destruct (String.eqb k key) eqn:E.
  - apply String.eqb_eq in E. subst k. apply getitem_setitem_same.
  - apply getitem_setitem_other. intros ->. rewrite String.eqb_refl in E.
    discriminate.
Qed.

Lemma foldM_seq {A St : Type} (f : St -> nat -> result St)
    (g : St -> A -> St) (d : A) (l : list A) :
  forall (k : nat) (acc : St),
    (forall i acc', (i < List.length l)%nat ->
                    f acc' (k + i)%nat = Ok (g acc' (nth i l d))) ->
    Engine.foldM f (seq k (List.length l)) acc = Ok (fold_left g l acc).
Proof.
  induction l as [|a l IH]; intros k acc H; simpl; [reflexivity|].
  rewrite <- (Nat.add_0_r k) at 1. rewrite (H 0%nat acc) by (simpl; lia).
  cbn [bind nth]. apply IH. intros i acc' Hi.
  replace (S k + i)%nat with (k + S i)%nat by lia.
  apply (H (S i) acc'). simpl. lia.
Qed.

Lemma mapM_nth {A B : Type} (f : A -> result B) (l : list A) (r : list B)
    (d : A) (d' : B) :
  mapM f l = Ok r ->
  forall i, (i < List.length l)%nat -> f (nth i l d) = Ok (nth i r d').
Proof.
  revert r. induction l as [|a l IH]; intros r H i Hi; simpl in *; [lia|].
  ok_inv H. ok_inv H. injection H as <-.
  destruct i as [|i]; [exact E|]. simpl. apply IH; [reflexivity|lia].
Qed.

Lemma item_pairs (pairs : list (string * string)) (i : nat)
    (d : string * string) :
  (i < List.length pairs)%nat ->
  item (flat_map (fun p => [fst p; snd p]) pairs) (2 * i) =
    Ok (fst (nth i pairs d))
  /\ item (flat_map (fun p => [fst p; snd p]) pairs) (2 * i + 1) =
     Ok (snd (nth i pairs d)).
Proof.
  revert i. induction pairs as [|p pairs IH]; intros i Hi; simpl in Hi;
    [lia|].
  destruct i as [|i]; [split; reflexivity|].
  replace (2 * S i)%nat with (S (S (2 * i))) by lia.
  replace (S (S (2 * i)) + 1)%nat with (S (S (2 * i + 1))) by lia.
  apply (IH i). lia.
Qed.

Lemma pairs_length (pairs : list (string * string)) :
  List.length (flat_map (fun p => [fst p; snd p]) pairs) =
  (2 * List.length pairs)%nat.
Proof. induction pairs as [|p pairs IH]; simpl; [reflexivity|]. lia. Qed.

(** X8: an odd number of arguments raises the error "Must have an even number of
    arguments for radii"; a list of name and value pairs whose values are
    floats gives a dict in which each capitalized name has the value of its
    last occurrence, and which holds no other key. *)
Theorem parse_radii_lookup (capitalize : string -> string)
    (py_float : string -> result R) :
  (forall args : list string,
      Nat.odd (List.length args) = true ->
      Engine.parse_radii capitalize py_float (Some args) =
      Raise (RuntimeError Engine.radii_message))
  /\ (forall (pairs : list (string * string)) (vals : list R),
        mapM py_float (map snd pairs) = Ok vals ->
        exists radii : list (string * R),
          Engine.parse_radii capitalize py_float
            (Some (flat_map (fun p => [fst p; snd p]) pairs)) = Ok radii
          /\ forall key : string,
               getitem radii key =
               match last_assigned
                       (combine (map (fun p => capitalize (fst p)) pairs) vals)
                       key with
               | Some v => Ok v
               | None => Raise (KeyError key)
               end).
Proof.
  split.
  - intros args Hodd. unfold Engine.parse_radii.
    rewrite <- Nat.negb_even in Hodd. apply negb_true_iff in Hodd.
    replace (List.length args mod 2 =? 0)%nat with false; [reflexivity|].
    symmetry. apply Nat.eqb_neq. intros H.
    apply Nat.Div0.mod_divides in H as (c & Hc).
    rewrite Hc, Nat.even_mul in Hodd. discriminate.
  - intros pairs vals Hvals. unfold Engine.parse_radii.
    rewrite pairs_length.
    replace (2 * List.length pairs mod 2 =? 0)%nat with true
      by (symmetry; apply Nat.eqb_eq; rewrite Nat.mul_comm;
          apply Nat.Div0.mod_mul).
    cbn [negb].
    replace (2 * List.length pairs / 2)%nat with (List.length pairs)
      by (rewrite Nat.mul_comm, Nat.div_mul; [reflexivity|lia]).
    set (l := combine (map (fun p => capitalize (fst p)) pairs) vals).
    assert (Hlv : List.length vals = List.length pairs)
      by (apply mapM_length in Hvals; rewrite length_map in Hvals;
          exact Hvals).
    assert (Hl : List.length l = List.length pairs)
      by (unfold l; rewrite length_combine, length_map, Hlv;
          apply Nat.min_id).
    rewrite <- Hl.
    rewrite (foldM_seq _ (fun acc kv => Engine.setitem acc (fst kv) (snd kv))
               (EmptyString, 0%R) l 0 []).
    + eexists. split; [reflexivity|]. intros key.
      rewrite getitem_assignments. reflexivity.
    + intros i acc' Hi. rewrite Hl in Hi. cbn [Nat.add].
      destruct (item_pairs pairs i (EmptyString, EmptyString) Hi)
        as [Hname Hval].
      rewrite Hval. cbn [bind].
      assert (Hf := mapM_nth py_float (map snd pairs) vals EmptyString 0%R
                      Hvals i).
      rewrite length_map in Hf. specialize (Hf Hi).
      rewrite (map_nth snd pairs (EmptyString, EmptyString)) in Hf.
      rewrite Hf. cbn [bind]. rewrite Hname. cbn [bind].
      unfold l. rewrite combine_nth by (rewrite length_map; lia).
      cbn [fst snd].
      rewrite (nth_map_in (fun p => capitalize (fst p)) pairs i EmptyString
                 (EmptyString, EmptyString)) by exact Hi.
      reflexivity.
Qed.

Lemma parse_radii_lookup_witness :
  exists radii : list (string * R),
    Engine.parse_radii Engine.capitalize_ascii Sample.py_float
      (Some ["na"; "0.0"; "k"; "1.5"; "NA"; "2.0"]) = Ok radii
    /\ getitem radii "Na" = Ok (1 * (2 + 0 / 10))%R
    /\ getitem radii "Li" = Raise (KeyError "Li").
Proof.
  destruct (proj2 (parse_radii_lookup Engine.capitalize_ascii Sample.py_float)
              [("na", "0.0"); ("k", "1.5"); ("NA", "2.0")]
              [(1 * (0 + 0 / 10))%R; (1 * (1 + 5 / 10))%R;
               (1 * (2 + 0 / 10))%R] eq_refl)
    as (radii & H & Hk).
  exists radii. split; [exact H|].
  split; rewrite Hk; reflexivity.
Defined.

(** ** Lines that are not declarations (lines 436-452) *)

Lemma getitem_missing {V : Type} (d : list (string * V)) (key : string) :
  ~ In key (map fst d) -> getitem d key = Raise (KeyError key).
Proof.
  induction d as [|[k v] d IH]; simpl; intros H; [reflexivity|].
  destruct (String.eqb k key) eqn:E.
  - apply String.eqb_eq in E. tauto.
  - apply IH. tauto.
Qed.

(** X9: a declaration whose keyword, once normalized, is not in the catalog
    makes the compiler raise [KeyError] with that keyword, whatever the
    mode and the other tokens of the line. *)
Theorem unknown_keyword_error (ext : Externals) (molecule : Molecule)
    (pre : list string) (st : state) (l : string) (rest : list string)
    (md key0 : string) :
  run ext molecule initial_state pre = Ok st ->
  in_options st = false ->
  mode st = Some md ->
  is_declaration l = true ->
  item (PyStr.split (clean l)) 0 = Ok key0 ->
  ~ In (normalize_key key0) (map fst ClassDict) ->
  parse_lines ext molecule (pre ++ l :: rest) =
  Raise (KeyError (normalize_key key0)).
Proof.
  intros Hpre Hin Hmode Hdecl Hkey Hmiss.
  unfold parse_lines. rewrite run_app, Hpre. cbn [bind run].
  rewrite step_declaration by assumption.
  unfold declaration. rewrite Hmode, Hkey. cbn [bind].
  rewrite (getitem_missing ClassDict _ Hmiss). reflexivity.
Qed.

Lemma unknown_keyword_error_witness :
  parse_lines Sample.ext Sample.molecule
    (["$set"] ++ "Bond 1 2 1.5 # typo" :: ["distance 1 2 1.5"]) =
  Raise (KeyError "bond").
Proof.
  apply (unknown_keyword_error Sample.ext Sample.molecule ["$set"]
           (with_mode initial_state (Some "set")) "Bond 1 2 1.5 # typo"
           ["distance 1 2 1.5"] "set" "bond");
    try reflexivity.
  simpl. intuition discriminate.
Defined.

Lemma step_skipped (ext : Externals) (molecule : Molecule) (st : state)
    (l : string) :
  PyStr.contains "$options" l = false ->
  PyStr.contains "$end" l = false ->
  clean l = EmptyString ->
  step ext molecule st l = Ok st.
Proof.
  intros Ho He Hc. unfold step. rewrite Ho, He, Hc.
  destruct st as [m n o v []]; reflexivity.
Qed.

(** X10: a line that is blank or holds only a comment, and mentions neither
    ["$options"] nor ["$end"], can be inserted anywhere in the input without
    changing the result, inside an options block as well as outside. *)
Theorem blank_line_ignored (ext : Externals) (molecule : Molecule)
    (pre post : list string) (l : string) :
  PyStr.contains "$options" l = false ->
  PyStr.contains "$end" l = false ->
  clean l = EmptyString ->
  parse_lines ext molecule (pre ++ l :: post) =
  parse_lines ext molecule (pre ++ post).
Proof.
  intros Ho He Hc. unfold parse_lines. rewrite !run_app.
  destruct (run ext molecule initial_state pre) as [st|e]; [|reflexivity].
  cbn [bind run]. rewrite step_skipped by assumption. reflexivity.
Qed.

Lemma blank_line_ignored_witness :
  parse_lines Sample.ext Sample.molecule
    (["$freeze"] ++ "   # the carbons" :: ["xyz c"]) =
  parse_lines Sample.ext Sample.molecule (["$freeze"] ++ ["xyz c"]).
Proof.
  apply (blank_line_ignored Sample.ext Sample.molecule); reflexivity.
Defined.

Lemma with_in_options_same (st : state) :
  with_in_options st (in_options st) = st.
Proof. destruct st; reflexivity. Qed.

(** The loop over the lines is the loop over the effective lines; only the
    flag of the options block may differ at the end. *)
Lemma run_as_effective (ext : Externals) (molecule : Molecule)
    (lines : list string) :
  forall st : state,
    run ext molecule st lines =
    (st' <- run_effective ext molecule (with_in_options st false)
              (effective_lines (in_options st) lines) ;;
     Ok (with_in_options st' (ends_inside (in_options st) lines))).
Proof.
  induction lines as [|l ls IH]; intros st.
  - destruct st; reflexivity.
  - simpl. unfold step.
    destruct (if PyStr.contains "$options" l then true else in_options st)
      eqn:Hent.
    + cbn [bind]. rewrite IH. reflexivity.
    + assert (Hin : in_options st = false)
        by (destruct (PyStr.contains "$options" l);
            [discriminate|exact Hent]).
      destruct (String.length (clean l) =? 0)%nat.
      * cbn [bind]. rewrite IH, Hin. reflexivity.
      * cbn [run_effective]. unfold effective_step.
        replace (with_in_options st false) with st
          by (destruct st; simpl in Hin; subst; reflexivity).
        destruct (PyStr.startswith (clean l) "$").
        -- cbn [bind]. rewrite IH. cbn [in_options with_mode].
           rewrite Hin. destruct st as [m n o v io]. simpl in Hin. subst io.
           reflexivity.
        -- destruct (declaration ext molecule st (clean l)) as [st1|e] eqn:Hd;
             cbn [bind]; [|reflexivity].
           assert (Hin1 : in_options st1 = false).
           { destruct (mode st) as [md|] eqn:Hmode;
               [|unfold declaration in Hd; rewrite Hmode in Hd; discriminate].
             destruct (item (PyStr.split (clean l)) 0) as [key0|] eqn:Hkey;
               [|unfold declaration in Hd; rewrite Hmode, Hkey in Hd;
                 discriminate].
             destruct (declaration_appends ext molecule st st1 (clean l) md
                         key0 Hmode Hkey Hd) as (n & o & v & -> & _).
             exact Hin. }
           rewrite IH, Hin1.
           replace (with_in_options st1 false) with st1
             by (destruct st1; simpl in Hin1; subst; reflexivity).
           reflexivity.
Qed.

Lemma finish_ignores_flag (st : state) (b : bool) :
  finish (with_in_options st b) = finish st.
Proof. reflexivity. Qed.

(** X11: the result depends on the effective lines only: two inputs whose
    lines, once the options blocks, the comments, the blank lines, the
    surrounding white space and the upper case are taken away, are the same,
    compile to the same result or raise the same error. *)
Theorem same_effective_lines (ext : Externals) (molecule : Molecule)
    (lines lines' : list string) :
  effective_lines false lines = effective_lines false lines' ->
  parse_lines ext molecule lines = parse_lines ext molecule lines'.
Proof.
  intros H. unfold parse_lines. rewrite !run_as_effective.
  cbn [in_options initial_state]. rewrite H.
  destruct (run_effective ext molecule (with_in_options initial_state false)
              (effective_lines false lines')); reflexivity.
Qed.

Lemma same_effective_lines_witness :
  parse_lines Sample.ext Sample.molecule
    ["$options"; "maxiter 50"; "$end"; "  $Freeze"; "";
     "XYZ 1-3   # first three atoms"] =
  parse_lines Sample.ext Sample.molecule ["$freeze"; "xyz 1-3"].
Proof.
  apply same_effective_lines. reflexivity.
Defined.

Lemma run_effective_markers (ext : Externals) (molecule : Molecule)
    (ts : list string) :
  forall st : state,
    objs st = [] -> vals st = [] ->
    Forall (fun t => PyStr.startswith t "$" = true) ts ->
    exists st' : state,
      run_effective ext molecule st ts = Ok st'
      /\ objs st' = [] /\ vals st' = [].
Proof.
  induction ts as [|t ts IH]; intros st Ho Hv Hall.
  - exists st. auto.
  - inversion Hall as [|? ? Ht Hts]; subst. simpl.
    unfold effective_step. rewrite Ht. cbn [bind]. apply IH; assumption.
Qed.

(** X12: an input without any declaration (an empty string, blank lines,
    comments, mode markers, an options block) compiles to no coordinate
    object and to a grid of exactly one row, which is empty. *)
Theorem no_declaration_one_empty_row (ext : Externals) (molecule : Molecule)
    (constraints_string : string) :
  Forall (fun t => PyStr.startswith t "$" = true)
         (effective_lines false
            (PyStr.split_char (ascii_of_nat 10) constraints_string)) ->
  parse_constraints ext molecule constraints_string = Ok ([], [[]]).
Proof.
  intros H. unfold parse_constraints, parse_lines.
  rewrite run_as_effective. cbn [in_options initial_state].
  destruct (run_effective_markers ext molecule _
              (with_in_options initial_state false) eq_refl eq_refl H)
    as (st & Hrun & Ho & Hv).
  rewrite Hrun. cbn [bind]. unfold finish.
  cbn [objs vals with_in_options]. rewrite Ho, Hv. reflexivity.
Qed.

Lemma no_declaration_one_empty_row_witness :
  parse_constraints Sample.ext Sample.molecule
    (Sample.lines ["# nothing to constrain"; ""; "$freeze"; "$options";
                   "maxiter 50"; "$end"]) = Ok ([], [[]]).
Proof.
  apply no_declaration_one_empty_row.
  change (effective_lines false
            (PyStr.split_char (ascii_of_nat 10)
               (Sample.lines ["# nothing to constrain"; ""; "$freeze";
                              "$options"; "maxiter 50"; "$end"])))
    with ["$freeze"].
  repeat constructor.
Defined.

(** ** The value groups of the modes [freeze] and [set] *)

Lemma map_const_repeat {A B : Type} (c : B) (l : list A) :
  map (fun _ => c) l = repeat c (List.length l).
Proof. induction l as [|a l IH]; simpl; [reflexivity|]. rewrite IH. reflexivity. Qed.

Lemma steps_by_mode_nil (md : string) : steps_by_mode md [].
Proof. split; intros _; constructor. Qed.

Lemma steps_by_mode_scan (v : list (list (list value))) :
  steps_by_mode "scan" v.
Proof. split; [discriminate|]. intros H. exfalso. apply H. reflexivity. Qed.

Lemma steps_by_mode_set (v : list (list (list value))) :
  Forall (fun vg => List.length vg = 1%nat) v -> steps_by_mode "set" v.
Proof. intros H. split; [discriminate|]. intros _. exact H. Qed.

Lemma steps_by_mode_freeze (v : list (list (list value))) :
  Forall frozen_group v -> steps_by_mode "freeze" v.
Proof.
  intros H. split; [intros _; exact H|]. intros _.
  apply Forall_forall. intros vg Hvg. rewrite Forall_forall in H.
  destruct (H vg Hvg) as (n & ->). reflexivity.
Qed.

Lemma set_or_scan (md : string) :
  String.eqb md "set" = false -> PyStr.mem md ["set"; "scan"] = true ->
  md = "scan".
Proof.
  unfold PyStr.mem. simpl. intros -> H. simpl in H.
  rewrite orb_false_r in H. apply String.eqb_eq. exact H.
Qed.

Section Steps.

Variable ext : Externals.
Variable molecule : Molecule.

Lemma atom_branch_steps (md : string) (s : list string)
    (classes : list CoordClass) (atoms : list Z) (st st' : state) :
  atom_branch ext md s classes atoms st = Ok st' ->
  exists o v, st' = with_groups st o v /\ steps_by_mode md v.
Proof.
  unfold atom_branch. intros H.
  destruct (String.eqb md "freeze") eqn:Hf.
  { apply String.eqb_eq in Hf. subst md. injection H as <-.
    eexists _, _. split; [reflexivity|]. apply steps_by_mode_freeze.
    apply Forall_forall. intros vg Hvg.
    apply in_map_iff in Hvg as (cls & <- & _).
    exists (List.length atoms). rewrite map_const_repeat. reflexivity. }
  destruct (String.eqb md "set") eqn:Hs.
  { apply String.eqb_eq in Hs. subst md. do 2 ok_inv H. injection H as <-.
    eexists _, _. split; [reflexivity|]. apply steps_by_mode_set.
    eapply mapM_Forall; [exact E0|]. intros icls b _ Hb.
    ok_inv Hb. injection Hb as <-. reflexivity. }
  destruct (String.eqb md "scan") eqn:Hc.
  { apply String.eqb_eq in Hc. subst md. do 6 ok_inv H. injection H as <-.
    eexists _, _. split; [reflexivity|]. apply steps_by_mode_scan. }
  injection H as <-. eexists _, _. split; [reflexivity|].
  apply steps_by_mode_nil.
Qed.

Lemma trans_branch_steps (md : string) (s : list string)
    (classes : list CoordClass) (atoms : list Z) (st st' : state) :
  trans_branch ext md s classes atoms st = Ok st' ->
  exists o v, st' = with_groups st o v /\ steps_by_mode md v.
Proof.
  unfold trans_branch. intros H. ok_inv H.
  destruct (String.eqb md "freeze") eqn:Hf.
  { apply String.eqb_eq in Hf. subst md. injection H as <-.
    eexists _, _. split; [reflexivity|]. apply steps_by_mode_freeze.
    constructor; [|constructor].
    exists (List.length classes). rewrite map_const_repeat. reflexivity. }
  destruct (String.eqb md "set") eqn:Hs.
  { apply String.eqb_eq in Hs. subst md. ok_inv H. injection H as <-.
    eexists _, _. split; [reflexivity|]. apply steps_by_mode_set.
    repeat constructor. }
  destruct (String.eqb md "scan") eqn:Hc.
  { apply String.eqb_eq in Hc. subst md. do 5 ok_inv H. injection H as <-.
    eexists _, _. split; [reflexivity|]. apply steps_by_mode_scan. }
  injection H as <-. eexists _, _. split; [reflexivity|].
  apply steps_by_mode_nil.
Qed.

Lemma primitive_branch_steps (md key : string) (s : list string)
    (classes : list CoordClass) (n_atom : nat) (st st' : state) :
  primitive_branch ext molecule md key s classes n_atom st = Ok st' ->
  exists o v, st' = with_groups st o v /\ steps_by_mode md v.
Proof.
  unfold primitive_branch. intros H.
  destruct (negb (List.length classes =? 1)%nat); [discriminate|].
  do 4 ok_inv H.
  destruct (String.eqb md "freeze") eqn:Hf.
  { apply String.eqb_eq in Hf. subst md. injection H as <-.
    eexists _, _. split; [reflexivity|]. apply steps_by_mode_freeze.
    constructor; [|constructor]. exists 1%nat. reflexivity. }
  destruct (PyStr.mem md ["set"; "scan"]) eqn:Hm.
  - do 2 ok_inv H. destruct (String.eqb md "set") eqn:Hs.
    + apply String.eqb_eq in Hs. subst md. injection H as <-.
      eexists _, _. split; [reflexivity|]. apply steps_by_mode_set.
      repeat constructor.
    + rewrite (set_or_scan md Hs Hm) in *. do 5 ok_inv H. injection H as <-.
      eexists _, _. split; [reflexivity|]. apply steps_by_mode_scan.
  - injection H as <-. eexists _, _. split; [reflexivity|].
    apply steps_by_mode_nil.
Qed.

Lemma rotation_branch_steps (md : string) (s : list string)
    (classes : list CoordClass) (st st' : state) :
  rotation_branch ext molecule md s classes st = Ok st' ->
  exists o v, st' = with_groups st o v /\ steps_by_mode md v.
Proof.
  unfold rotation_branch. intros H. do 3 ok_inv H.
  destruct (String.eqb md "freeze") eqn:Hf.
  { apply String.eqb_eq in Hf. subst md. injection H as <-.
    eexists _, _. split; [reflexivity|]. apply steps_by_mode_freeze.
    apply Forall_forall. intros vg Hvg.
    apply in_map_iff in Hvg as (cls & <- & _). exists 1%nat. reflexivity. }
  destruct (PyStr.mem md ["set"; "scan"]) eqn:Hm.
  - do 3 ok_inv H. destruct (String.eqb md "set") eqn:Hs.
    + apply String.eqb_eq in Hs. subst md. injection H as <-.
      eexists _, _. split; [reflexivity|]. apply steps_by_mode_set.
      repeat constructor.
    + rewrite (set_or_scan md Hs Hm) in *. do 5 ok_inv H. injection H as <-.
      eexists _, _. split; [reflexivity|]. apply steps_by_mode_scan.
  - injection H as <-. exists [], []. split.
    + symmetry. apply with_groups_nil.
    + apply steps_by_mode_nil.
Qed.

Lemma declaration_steps (st st' : state) (line md : string) :
  mode st = Some md ->
  declaration ext molecule st line = Ok st' ->
  mode st' = Some md
  /\ exists v, vals st' = vals st ++ v /\ steps_by_mode md v.
Proof.
  intros Hmode H. unfold declaration in H. rewrite Hmode in H.
  ok_inv H. remember (normalize_key a) as key eqn:Heqkey. clear Heqkey.
  ok_inv H. destruct a0 as [classes n_atom].
  destruct (assign_ntok md key classes n_atom (ntok st)) as [n|];
    [|discriminate].
  destruct (negb (List.length (PyStr.split line) =? n + 1)%nat);
    [discriminate|].
  assert (Hdone : forall st0,
             mode st0 = Some md -> vals st0 = vals st ->
             (exists o v, st' = with_groups st0 o v /\ steps_by_mode md v) ->
             mode st' = Some md
             /\ exists v, vals st' = vals st ++ v /\ steps_by_mode md v).
  { intros st0 Hm Hv (o & v & -> & Hsteps). split; [exact Hm|].
    exists v. split; [|exact Hsteps]. cbn [vals with_groups].
    rewrite Hv. reflexivity. }
  apply (Hdone (with_ntok st (Some n))); [exact Hmode|reflexivity|].
  destruct (PyStr.mem key AtomKeys || PyStr.mem key TransKeys).
  - do 3 ok_inv H. destruct (PyStr.mem key AtomKeys).
    + eapply atom_branch_steps. exact H.
    + eapply trans_branch_steps. exact H.
  - destruct (PyStr.mem key ["distance"; "angle"; "dihedral"]).
    + eapply primitive_branch_steps. exact H.
    + destruct (PyStr.mem key ["rotation"]).
      * eapply rotation_branch_steps. exact H.
      * injection H as <-. exists [], []. split.
        -- symmetry. apply with_groups_nil.
        -- apply steps_by_mode_nil.
Qed.

(** An invariant of the loop over the effective lines: while every mode
    marker names an allowed mode, every value group has the property that
    the allowed modes give to the groups they append. *)
Lemma run_effective_groups (allowed : string -> Prop)
    (Q : list (list value) -> Prop) :
  (forall md v, allowed md -> steps_by_mode md v -> Forall Q v) ->
  forall (ts : list string) (st st' : state),
    (forall md, mode st = Some md -> allowed md) ->
    Forall Q (vals st) ->
    Forall (fun t => PyStr.startswith t "$" = true ->
                     allowed (PyStr.remove "$" t)) ts ->
    run_effective ext molecule st ts = Ok st' ->
    Forall Q (vals st').
Proof.
  intros HQ. induction ts as [|t ts IH]; intros st st' Hmode Hvals Hall H;
    simpl in H.
  - injection H as <-. exact Hvals.
  - inversion Hall as [|? ? Ht Hts]; subst. ok_inv H.
    unfold effective_step in E.
    destruct (PyStr.startswith t "$") eqn:Hstart.
    + injection E as <-. eapply IH; [| |exact Hts|exact H].
      * intros md [= <-]. apply Ht. reflexivity.
      * exact Hvals.
    + destruct (mode st) as [md|] eqn:Hm;
        [|unfold declaration in E; rewrite Hm in E; discriminate].
      destruct (declaration_steps st a t md Hm E) as (Hm' & v & Hv & Hsteps).
      eapply IH; [| |exact Hts|exact H].
      * intros md' Hmd'. rewrite Hm' in Hmd'. injection Hmd' as <-.
        apply Hmode. reflexivity.
      * rewrite Hv. apply Forall_app. split; [exact Hvals|].
        apply (HQ md); [apply Hmode; reflexivity|exact Hsteps].
Qed.

End Steps.

Lemma cartesian_one_row {A : Type} (pools : list (list A)) :
  Forall (fun p => List.length p = 1%nat) pools ->
  exists row : list A, cartesian pools = [row].
Proof.
  intros H.
  assert (Hlen : List.length (cartesian pools) = 1%nat).
  { rewrite cartesian_length. induction H as [|p ps Hp _ IH];
      simpl; [reflexivity|]. rewrite Hp, IH. reflexivity. }
  destruct (cartesian pools) as [|row [|? ?]]; try discriminate.
  exists row. reflexivity.
Qed.

Lemma frozen_row (o : list (list CoordObj)) (v : list (list (list value)))
    (steps : list (list value)) :
  Forall frozen_group v ->
  Forall2 (fun x p => In x p) steps v ->
  Forall (eq None) (Itertools.chain steps).
Proof.
  intros Hv Hsteps. unfold Itertools.chain.
  induction Hsteps as [|stp vg steps v Hin _ IH]; simpl; [constructor|].
  inversion Hv as [|? ? (n & Hvg) Hv']; subst.
  apply Forall_app. split; [|apply IH; exact Hv'].
  destruct Hin as [<-|[]]. apply Forall_forall. intros x Hx.
  apply repeat_spec in Hx. subst. reflexivity.
Qed.

(** The result in terms of the state after the effective lines. *)
Lemma parse_lines_effective (ext : Externals) (molecule : Molecule)
    (lines : list string) (o : list CoordObj) (g : list (list value)) :
  parse_lines ext molecule lines = Ok (o, g) ->
  exists st : state,
    run_effective ext molecule (with_in_options initial_state false)
      (effective_lines false lines) = Ok st
    /\ aligned (objs st) (vals st)
    /\ o = Itertools.chain (objs st)
    /\ g = map (fun r => Itertools.chain r) (cartesian (vals st)).
Proof.
  intros H.
  assert (Hal : forall st, run ext molecule initial_state lines = Ok st ->
                           finish st = Ok (o, g) ->
                           aligned (objs st) (vals st)).
  { intros st Hrun Hfin. unfold finish in Hfin.
    destruct (List.length (objs st) =? List.length (vals st))%nat eqn:Hlen;
      [|discriminate].
    apply Nat.eqb_eq in Hlen.
    destruct (run_consistent ext molecule _ _ _ initial_consistent Hrun)
      as [Hal|Hlt]; [exact Hal|lia]. }
  unfold parse_lines in H. ok_inv H. specialize (Hal a eq_refl H).
  rewrite run_as_effective in E. cbn [in_options initial_state] in E.
  ok_inv E. injection E as <-. exists a0.
  split; [reflexivity|]. split; [exact Hal|].
  unfold finish in H. cbn [objs vals with_in_options] in H.
  destruct (negb (List.length (objs a0) =? List.length (vals a0))%nat);
    [discriminate|].
  rewrite product_cartesian in H. injection H as <- <-. split; reflexivity.
Qed.

(** X13: when no effective mode marker selects [scan], the grid of an input
    that compiles has exactly one row, with one value for each coordinate
    object. *)
Theorem without_scan_one_row (ext : Externals) (molecule : Molecule)
    (lines : list string) (o : list CoordObj) (g : list (list value)) :
  Forall (fun t => PyStr.startswith t "$" = true ->
                   PyStr.remove "$" t <> "scan")
         (effective_lines false lines) ->
  parse_lines ext molecule lines = Ok (o, g) ->
  exists row : list value, g = [row] /\ List.length row = List.length o.
Proof.
  intros Hall H.
  destruct (parse_lines_effective ext molecule lines o g H)
    as (st & Hrun & Hal & -> & ->).
  assert (Hsingle : Forall (fun vg => List.length vg = 1%nat) (vals st)).
  { apply (run_effective_groups ext molecule
             (fun md => md <> "scan") (fun vg => List.length vg = 1%nat))
      with (ts := effective_lines false lines)
           (st := with_in_options initial_state false).
    - intros md v Hmd Hsteps. apply Hsteps. exact Hmd.
    - discriminate.
    - constructor.
    - exact Hall.
    - exact Hrun. }
  destruct (cartesian_one_row (vals st) Hsingle) as (steps & Hsteps).
  exists (Itertools.chain steps). split; [rewrite Hsteps; reflexivity|].
  apply (aligned_row_length _ _ Hal). rewrite Hsteps. left. reflexivity.
Qed.

Lemma without_scan_one_row_witness :
  exists row : list value,
    snd (match parse_lines Sample.ext Sample.molecule
                 ["$freeze"; "xyz 1-3"; "$set"; "distance 1 2 1.5"] with
         | Ok r => r
         | Raise _ => ([], [])
         end) = [row]
    /\ List.length row = 10%nat.
Proof.
  destruct (parse_lines Sample.ext Sample.molecule
              ["$freeze"; "xyz 1-3"; "$set"; "distance 1 2 1.5"])
    as [[o g]|e] eqn:E; [|lazy in E; discriminate E].
  destruct (without_scan_one_row Sample.ext Sample.molecule
              ["$freeze"; "xyz 1-3"; "$set"; "distance 1 2 1.5"] o g)
    as (row & Hg & Hlen).
  - repeat constructor; intros _; vm_compute; discriminate.
  - exact E.
  - exists row. split; [exact Hg|]. rewrite Hlen.
    lazy in E. injection E as <- _. reflexivity.
Defined.

(** X14: when every effective mode marker selects [freeze], the grid of an
    input that compiles is one row that holds [None] for each coordinate
    object. *)
Theorem freeze_only_all_none (ext : Externals) (molecule : Molecule)
    (lines : list string) (o : list CoordObj) (g : list (list value)) :
  Forall (fun t => PyStr.startswith t "$" = true ->
                   PyStr.remove "$" t = "freeze")
         (effective_lines false lines) ->
  parse_lines ext molecule lines = Ok (o, g) ->
  g = [repeat None (List.length o)].
Proof.
  intros Hall H.
  destruct (parse_lines_effective ext molecule lines o g H)
    as (st & Hrun & Hal & -> & ->).
  assert (Hfrozen : Forall frozen_group (vals st)).
  { apply (run_effective_groups ext molecule
             (fun md => md = "freeze") frozen_group)
      with (ts := effective_lines false lines)
           (st := with_in_options initial_state false).
    - intros md v Hmd Hsteps. apply Hsteps. exact Hmd.
    - discriminate.
    - constructor.
    - exact Hall.
    - exact Hrun. }
  assert (Hsingle : Forall (fun vg => List.length vg = 1%nat) (vals st)).
  { apply Forall_forall. intros vg Hvg. rewrite Forall_forall in Hfrozen.
    destruct (Hfrozen vg Hvg) as (n & ->). reflexivity. }
  destruct (cartesian_one_row (vals st) Hsingle) as (steps & Hsteps).
  rewrite Hsteps. cbn [map]. f_equal.
  assert (Hin : In steps (cartesian (vals st)))
    by (rewrite Hsteps; left; reflexivity).
  assert (Hlen : List.length (Itertools.chain steps) =
                 List.length (Itertools.chain (objs st))).
  { apply (aligned_row_length _ _ Hal). rewrite Hsteps. left. reflexivity. }
  rewrite <- Hlen. apply Forall_eq_repeat.
  apply (frozen_row (objs st) (vals st)); [exact Hfrozen|].
  apply cartesian_In. exact Hin.
Qed.

Lemma freeze_only_all_none_witness :
  snd (match parse_lines Sample.ext Sample.molecule
               ["$freeze"; "xyz 1-3"; "  $FREEZE"; "rotation 4-6"] with
       | Ok r => r
       | Raise _ => ([], [])
       end) = [repeat None 12].
Proof.
  destruct (parse_lines Sample.ext Sample.molecule
              ["$freeze"; "xyz 1-3"; "  $FREEZE"; "rotation 4-6"])
    as [[o g]|e] eqn:E; [|lazy in E; discriminate E].
  cbn [snd].
  rewrite (freeze_only_all_none Sample.ext Sample.molecule
             ["$freeze"; "xyz 1-3"; "  $FREEZE"; "rotation 4-6"] o g).
  - assert (Ho : List.length o = 12%nat).
    { assert (Hf : List.length
                     (fst (match parse_lines Sample.ext Sample.molecule
                                   ["$freeze"; "xyz 1-3"; "  $FREEZE";
                                    "rotation 4-6"] with
                           | Ok r => r
                           | Raise _ => ([], [])
                           end)) = 12%nat) by reflexivity.
      rewrite E in Hf. exact Hf. }
    rewrite Ho. reflexivity.
  - repeat constructor; intros Hs;
      first [reflexivity | vm_compute in Hs; discriminate Hs].
  - exact E.
Defined.

(** ** The steps of a scanned distance, angle or dihedral (lines 550-559) *)

Lemma linspace_inv (a b : R) (num : Z) (l : list R) :
  Np.linspace a b num = Ok l ->
  (0 <= num)%Z /\ l = Np.samples a b (Z.to_nat num).
Proof.
  unfold Np.linspace. destruct (Z.ltb_spec num 0); [discriminate|].
  intros [= <-]. split; [assumption|reflexivity].
Qed.

(** X15: a distance, angle or dihedral declaration that compiles under [scan]
    has a step count that is not negative and appends one value group of
    that many steps of one value each; with two steps or more the first
    step is the first value of the line and the last step is the second,
    each converted to the unit of the coordinate. *)
Theorem scan_primitive_steps (ext : Externals) (molecule : Molecule)
    (st st' : state) (line kw : string) (toks : list string)
    (t1 t2 t3 : string) (classes : list CoordClass) (n_atom : nat)
    (x1 x2 : R) (nstep : Z) :
  mode st = Some "scan" ->
  PyStr.split line = kw :: toks ++ [t1; t2; t3] ->
  PyStr.mem (normalize_key kw) ["distance"; "angle"; "dihedral"] = true ->
  getitem ClassDict (normalize_key kw) = Ok (classes, n_atom) ->
  List.length toks = n_atom ->
  primitive_value ext (normalize_key kw) t1 = Ok x1 ->
  primitive_value ext (normalize_key kw) t2 = Ok x2 ->
  py_int ext t3 = Ok nstep ->
  declaration ext molecule st line = Ok st' ->
  (0 <= nstep)%Z
  /\ exists grp : list (list value),
       vals st' = vals st ++ [grp]
       /\ List.length grp = Z.to_nat nstep
       /\ Forall (fun stp => List.length stp = 1%nat) grp
       /\ ((2 <= nstep)%Z ->
           nth 0 grp [] = [Some x1]
           /\ nth (Z.to_nat nstep - 1) grp [] = [Some x2])
       /\ (nstep = 1%Z -> grp = [[Some x1]]).
Proof.
  intros Hmode Hs Hkey Hdict Hlen Hx1 Hx2 Hn H.
  unfold declaration in H. rewrite Hmode, Hs in H.
  change (item (kw :: toks ++ [t1; t2; t3]) 0) with (Ok kw) in H.
  cbn [bind] in H. rewrite Hdict in H. cbn [bind] in H.
  destruct (assign_ntok "scan" (normalize_key kw) classes n_atom (ntok st))
    as [n|]; [|discriminate].
  destruct (negb (List.length (kw :: toks ++ [t1; t2; t3]) =? n + 1)%nat);
    [discriminate|].
  destruct (ClassDict_families _ classes n_atom Hdict)
    as [(_ & _ & _ & HP) | [(_ & _ & _ & _ & HP) | [(HA & HT & _)
       | (_ & _ & HP & _)]]]; try congruence.
  rewrite HA, HT, Hkey in H. cbn [orb] in H.
  unfold primitive_branch in H.
  destruct (negb (List.length classes =? 1)%nat); [discriminate|].
  do 4 ok_inv H.
  change (String.eqb "scan" "freeze") with false in H.
  change (PyStr.mem "scan" ["set"; "scan"]) with true in H.
  change (String.eqb "scan" "set") with false in H. cbv iota in H.
  rewrite (item_after_tokens_n kw toks [t1; t2; t3] 0 n_atom Hlen) in H.
  change (item [t1; t2; t3] 0) with (Ok t1) in H. cbn [bind] in H.
  rewrite Hx1 in H. cbn [bind] in H.
  rewrite (item_after_tokens_n kw toks [t1; t2; t3] 1 n_atom Hlen) in H.
  change (item [t1; t2; t3] 1) with (Ok t2) in H. cbn [bind] in H.
  rewrite Hx2 in H. cbn [bind] in H.
  rewrite (item_after_tokens_n kw toks [t1; t2; t3] 2 n_atom Hlen) in H.
  change (item [t1; t2; t3] 2) with (Ok t3) in H. cbn [bind] in H.
  rewrite Hn in H. cbn [bind] in H. ok_inv H. injection H as <-.
  apply linspace_inv in E3 as [Hpos ->]. split; [exact Hpos|].
  eexists. split; [reflexivity|].
  split; [rewrite length_map; apply samples_length|].
  split.
  { apply Forall_forall. intros stp Hstp.
    apply in_map_iff in Hstp as (x & <- & _). reflexivity. }
  split.
  - intros H2. assert (Hc : (2 <= Z.to_nat nstep)%nat) by lia. split.
    + rewrite (nth_map_in _ _ 0%nat [] 0%R) by (rewrite samples_length; lia).
      rewrite samples_first by exact Hc. reflexivity.
    + rewrite (nth_map_in _ _ (Z.to_nat nstep - 1)%nat [] 0%R)
        by (rewrite samples_length; lia).
      rewrite samples_last by exact Hc. reflexivity.
  - intros ->. change (Z.to_nat 1) with 1%nat. rewrite samples_one.
    reflexivity.
Qed.

Lemma scan_primitive_steps_witness :
  exists grp : list (list value),
    vals (match declaration Sample.ext Sample.molecule
                  (with_mode initial_state (Some "scan"))
                  "angle 1 2 3 90 120 4" with
          | Ok s => s
          | Raise _ => initial_state
          end) = [] ++ [grp]
    /\ List.length grp = 4%nat
    /\ nth 0 grp [] = [Some (90 * PI / 180)%R]
    /\ nth 3 grp [] = [Some (120 * PI / 180)%R].
Proof.
  destruct (declaration Sample.ext Sample.molecule
              (with_mode initial_state (Some "scan")) "angle 1 2 3 90 120 4")
    as [s|e] eqn:E; [|lazy in E; discriminate E].
  destruct (scan_primitive_steps Sample.ext Sample.molecule
              (with_mode initial_state (Some "scan")) s
              "angle 1 2 3 90 120 4" "angle" ["1"; "2"; "3"] "90" "120" "4"
              [Angle] 3 (90 * PI / 180)%R (120 * PI / 180)%R 4
              eq_refl eq_refl eq_refl eq_refl eq_refl eq_refl eq_refl eq_refl E)
    as (_ & grp & Hv & Hl & _ & Hends & _).
  exists grp. split; [exact Hv|]. split; [exact Hl|].
  apply Hends. lia.
Defined.

(** ** The step count of [one_dimensional_scan] (lines 380-386) *)

(** X16: for non-empty lists of equal length a negative step count raises the
    [ValueError] of [np.linspace], and a step count of zero returns the
    empty list. *)
Theorem one_dimensional_scan_few_steps (init final : list R) (steps : Z) :
  List.length init = List.length final -> init <> [] ->
  ((steps < 0)%Z ->
   exists msg, one_dimensional_scan init final steps = Raise (ValueError msg))
  /\ (steps = 0%Z -> one_dimensional_scan init final steps = Ok []).
Proof.
  intros Hlen Hne. unfold one_dimensional_scan.
  rewrite (proj2 (Nat.eqb_eq _ _) Hlen). cbn [negb]. split.
  - intros Hneg. destruct init as [|a init]; [contradiction|].
    destruct final as [|b final]; [discriminate|].
    cbn [combine mapM fst snd]. unfold Np.linspace at 1.
    replace (steps <? 0)%Z with true by (symmetry; apply Z.ltb_lt; exact Hneg).
    eexists. reflexivity.
  - intros ->. rewrite scan_columns by lia. cbn [bind]. f_equal.
    rewrite (transpose_rows 0%R 0%nat).
    + reflexivity.
    + destruct init, final; simpl in *; try discriminate; congruence.
    + apply Forall_forall. intros c Hc.
      apply in_map_iff in Hc as (p & <- & _). apply samples_length.
Qed.

Lemma one_dimensional_scan_few_steps_witness :
  one_dimensional_scan [0; 1]%R [2; 5]%R 0 = Ok [].
Proof.
  apply (proj2 (one_dimensional_scan_few_steps [0; 1]%R [2; 5]%R 0 eq_refl
                  ltac:(discriminate))).
  reflexivity.
Defined.

(** ** Atoms selected by an element symbol (lines 481-488) *)

Lemma check_atoms_ok (molecule : Molecule) (atoms : list Z) :
  Forall (fun i => (0 <= i < Z.of_nat (na molecule))%Z) atoms ->
  check_atoms molecule atoms = Ok tt.
Proof.
  intros H. unfold check_atoms. rewrite Forall_forall in H.
  replace (existsb (fun i => (i <? 0)%Z) atoms) with false.
  - replace (existsb (fun i => (Z.of_nat (na molecule) <=? i)%Z) atoms)
      with false; [reflexivity|].
    symmetry. apply not_true_is_false. intros Hex.
    apply existsb_exists in Hex as (i & Hi & Hhigh).
    apply Z.leb_le in Hhigh. specialize (H i Hi). lia.
  - symmetry. apply not_true_is_false. intros Hex.
    apply existsb_exists in Hex as (i & Hi & Hneg).
    apply Z.ltb_lt in Hneg. specialize (H i Hi). lia.
Qed.

(** X17: a token that is not an integer and is the lower-case form of an element
    symbol selects exactly the atoms of that element, whatever the case of
    their symbol in the molecule; the selection passes both checks of the
    atom indices, and it is empty when the molecule has no such atom. *)
Theorem element_symbol_selection (ext : Externals) (molecule : Molecule)
    (s1 : string) :
  isint ext s1 = false ->
  PyStr.mem s1 (map PyStr.lower (Elements ext)) = true ->
  (na molecule <= List.length (elem molecule))%nat ->
  exists atoms : list Z,
    select_atoms ext molecule s1 = Ok atoms
    /\ check_atoms molecule atoms = Ok tt
    /\ forall i : Z,
         In i atoms <->
         exists k : nat,
           i = Z.of_nat k /\ (k < na molecule)%nat
           /\ PyStr.lower (nth k (elem molecule) EmptyString) = s1.
Proof.
  intros Hint Helem Hna. unfold select_atoms. rewrite Hint, Helem.
  rewrite (mapM_pure _
             (fun i => (i, String.eqb
                             (PyStr.lower (nth i (elem molecule) EmptyString))
                             s1))).
  2:{ intros i Hi. apply in_seq in Hi. unfold item.
      destruct (nth_error (elem molecule) i) as [e|] eqn:He.
      - rewrite (nth_error_nth _ _ _ He). reflexivity.
      - apply nth_error_None in He. lia. }
  cbn [bind].
  assert (Hchar : forall i : Z,
             In i (map (fun p : nat * bool => Z.of_nat (fst p))
                     (filter snd
                        (map (fun i0 =>
                                (i0, String.eqb
                                       (PyStr.lower
                                          (nth i0 (elem molecule) EmptyString))
                                       s1))
                             (seq 0 (na molecule))))) <->
             exists k : nat,
               i = Z.of_nat k /\ (k < na molecule)%nat
               /\ PyStr.lower (nth k (elem molecule) EmptyString) = s1).
  { intros i. rewrite in_map_iff. split.
    - intros ([k b] & <- & Hin). apply filter_In in Hin as [Hin Hb].
      apply in_map_iff in Hin as (k' & [= <- <-] & Hk').
      apply in_seq in Hk'. exists k'. cbn [fst snd] in *.
      apply String.eqb_eq in Hb. repeat split; [lia|exact Hb].
    - intros (k & -> & Hk & Hl). exists (k, true). split; [reflexivity|].
      apply filter_In. split; [|reflexivity].
      apply in_map_iff. exists k. split.
      + rewrite Hl, String.eqb_refl. reflexivity.
      + apply in_seq. lia. }
  eexists. split; [reflexivity|]. split; [|exact Hchar].
  apply check_atoms_ok. apply Forall_forall. intros i Hi.
  apply Hchar in Hi as (k & -> & Hk & _). lia.
Qed.

Lemma element_symbol_selection_witness :
  exists atoms : list Z,
    select_atoms Sample.ext Sample.molecule "c" = Ok atoms
    /\ check_atoms Sample.molecule atoms = Ok tt
    /\ (In 1%Z atoms <->
        exists k : nat,
          1%Z = Z.of_nat k /\ (k < 10)%nat
          /\ PyStr.lower (nth k (elem Sample.molecule) EmptyString) = "c").
Proof.
  destruct (element_symbol_selection Sample.ext Sample.molecule "c")
    as (atoms & H1 & H2 & H3); [reflexivity|reflexivity|simpl; lia|].
  exists atoms. split; [exact H1|]. split; [exact H2|]. apply H3.
Defined.

(** ** The periodic image of the rotation angle (lines 581 and 602) *)

Section Periodic.

Local Open Scope R_scope.

Lemma fmod_shift (x m : R) (k : Z) :
  0 < m -> Np.fmod (x + IZR k * m) m = Np.fmod x m.
Proof.
  intros Hm. unfold Np.fmod.
  replace ((x + IZR k * m) / m) with (x / m + IZR k) by (field; lra).
  replace (Int_part (x / m + IZR k)) with (Int_part (x / m) + k)%Z.
  - rewrite plus_IZR. ring.
  - apply Int_part_spec. rewrite plus_IZR.
    destruct (base_Int_part (x / m)). lra.
Qed.

Lemma fmod_small (x m : R) : 0 <= x < m -> Np.fmod x m = x.
Proof.
  intros [H0 Hm]. unfold Np.fmod.
  replace (Int_part (x / m)) with 0%Z; [lra|].
  apply Int_part_spec. split.
  - assert (x / m < 1); [|lra].
    apply Rmult_lt_reg_r with m; [lra|].
    replace (x / m * m) with x by (field; lra). lra.
  - apply Rmult_le_pos; [exact H0|]. apply Rlt_le, Rinv_0_lt_compat. lra.
Qed.

(** X18: angles that differ by whole turns have the same periodic image, so a
    rotation constraint has the same three values for them, and an angle
    from [- pi] (included) to [pi] (excluded) is its own image. *)
Theorem wrap_angle_periodic (ext : Externals) (u : Np.vec3) (rg theta : R)
    (k : Z) :
  wrap_angle (theta + IZR k * (2 * PI)) = wrap_angle theta
  /\ rotation_values ext u rg (theta + IZR k * (2 * PI)) =
     rotation_values ext u rg theta
  /\ (- PI <= theta < PI -> wrap_angle theta = theta).
Proof.
  assert (Hpi := PI_RGT_0).
  assert (Hw : wrap_angle (theta + IZR k * (2 * PI)) = wrap_angle theta).
  { unfold wrap_angle.
    replace (theta + IZR k * (2 * PI) + PI)
      with (theta + PI + IZR k * (2 * PI)) by ring.
    rewrite fmod_shift by lra. reflexivity. }
  split; [exact Hw|]. split.
  - destruct u as [[u0 u1] u2]. unfold rotation_values. rewrite Hw.
    reflexivity.
  - intros H. unfold wrap_angle. rewrite fmod_small by lra. ring.
Qed.

Lemma wrap_angle_periodic_witness : wrap_angle (PI / 2) = PI / 2.
Proof.
  assert (Hpi := PI_RGT_0).
  apply (proj2 (proj2 (wrap_angle_periodic Sample.ext (0, 0, 1) 1 (PI / 2) 0))).
  lra.
Defined.

End Periodic.

(** ** The order of the letters of an axis keyword (lines 458-461) *)

Lemma code_injective (a b : ascii) : PyStr.code a = PyStr.code b -> a = b.
Proof.
  unfold PyStr.code. intros H.
  rewrite <- (ascii_nat_embedding a), <- (ascii_nat_embedding b), H.
  reflexivity.
Qed.

Lemma insert_sorted_comm (a b : ascii) (l : list ascii) :
  PyStr.insert_sorted a (PyStr.insert_sorted b l) =
  PyStr.insert_sorted b (PyStr.insert_sorted a l).
Proof.
  induction l as [|d l IH]; simpl.
  - destruct (Nat.leb_spec (PyStr.code a) (PyStr.code b)) as [Hab|Hab],
             (Nat.leb_spec (PyStr.code b) (PyStr.code a)) as [Hba|Hba];
      try reflexivity; try lia.
    assert (a = b) by (apply code_injective; lia). subst. reflexivity.
  - destruct (Nat.leb_spec (PyStr.code b) (PyStr.code d)) as [Hbd|Hbd],
             (Nat.leb_spec (PyStr.code a) (PyStr.code d)) as [Had|Had];
      simpl;
      repeat match goal with
             | |- context [(PyStr.code ?x <=? PyStr.code ?y)%nat] =>
                 destruct (Nat.leb_spec (PyStr.code x) (PyStr.code y))
             end;
      try reflexivity; try lia.
    + assert (a = b) by (apply code_injective; lia). subst. reflexivity.
    + rewrite IH. reflexivity.
Qed.

Lemma sorted_fold (s : string) :
  PyStr.sorted s =
  fold_right PyStr.insert_sorted [] (list_ascii_of_string s).
Proof. induction s as [|c s IH]; simpl; [reflexivity|]. rewrite IH. reflexivity. Qed.

Lemma sort_permutation (l l' : list ascii) :
  Permutation l l' ->
  fold_right PyStr.insert_sorted [] l = fold_right PyStr.insert_sorted [] l'.
Proof.
  induction 1 as [|x l l' _ IH|x y l|l l' l'' _ IH1 _ IH2]; simpl.
  - reflexivity.
  - rewrite IH. reflexivity.
  - apply insert_sorted_comm.
  - rewrite IH1. exact IH2.
Qed.

Lemma insert_sorted_length (c : ascii) (l : list ascii) :
  List.length (PyStr.insert_sorted c l) = S (List.length l).
Proof.
  induction l as [|d l IH]; simpl; [reflexivity|].
  destruct (PyStr.code c <=? PyStr.code d)%nat; simpl; [reflexivity|].
  rewrite IH. reflexivity.
Qed.

Lemma sorted_length (s : string) :
  String.length (PyStr.join (PyStr.sorted s)) = String.length s.
Proof.
  unfold PyStr.join. induction s as [|c s IH]; simpl; [reflexivity|].
  rewrite <- IH.
  assert (H : forall l, String.length (string_of_list_ascii l) = List.length l)
    by (induction l as [|x l IHl]; simpl; [reflexivity|]; rewrite IHl;
        reflexivity).
  rewrite !H. apply insert_sorted_length.
Qed.

Lemma atom_key_cases (k : string) :
  In k AtomKeys ->
  k = "x" \/ k = "y" \/ k = "z" \/ k = "xy" \/ k = "yz" \/ k = "xz"
  \/ k = "xyz".
Proof. simpl. intuition. Qed.

Lemma remove_without_t (key : string) :
  ~ In "t"%char (list_ascii_of_string key) ->
  PyStr.remove "trans-" key = key.
Proof.
  unfold PyStr.remove. induction key as [|c key IH]; intros H;
    [reflexivity|].
  cbn [PyStr.remove_from].
  replace (prefix "trans-" (String c key)) with false.
  - rewrite IH; [reflexivity|]. intros Hin. apply H. right. exact Hin.
  - symmetry. cbn [prefix].
    destruct (ascii_dec "t" c) as [<-|_]; [|reflexivity].
    exfalso. apply H. left. reflexivity.
Qed.

Lemma remove_trans_prefix (key : string) :
  PyStr.remove "trans-" (String.append "trans-" key) =
  PyStr.remove "trans-" key.
Proof.
  unfold PyStr.remove.
  change (String.append "trans-" key)
    with (String "t" (String "r" (String "a" (String "n" (String "s"
           (String "-" key)))))).
  cbn [PyStr.remove_from].
  replace (prefix "trans-"
             (String "t" (String "r" (String "a" (String "n" (String "s"
                (String "-" key))))))) with true
    by (symmetry; apply prefix_correct; simpl; destruct key; reflexivity).
  reflexivity.
Qed.

(** X19: the letters of an axis keyword can be written in any order, with or
    without the prefix [trans-]: a keyword that is a rearrangement of the
    letters of [x], [y], [z], [xy], [yz], [xz] or [xyz] is normalized to
    that keyword, and with the prefix to the translation keyword. *)
Theorem normalize_key_any_order (key k : string) :
  Permutation (list_ascii_of_string key) (list_ascii_of_string k) ->
  In k AtomKeys ->
  normalize_key key = k
  /\ normalize_key (String.append "trans-" key) = String.append "trans-" k.
Proof.
  intros Hperm Hk.
  assert (Hsort : PyStr.join (PyStr.sorted key) = k).
  { rewrite sorted_fold, (sort_permutation _ _ Hperm), <- sorted_fold.
    destruct (atom_key_cases k Hk) as [-> | [-> | [-> | [-> | [-> | [-> | ->]]]]]];
      reflexivity. }
  assert (Hmem : PyStr.mem k AtomKeys = true) by (apply mem_In; exact Hk).
  split.
  - unfold normalize_key. rewrite Hsort, Hmem. reflexivity.
  - unfold normalize_key.
    replace (PyStr.mem (PyStr.join (PyStr.sorted (String.append "trans-" key)))
               AtomKeys) with false.
    + rewrite remove_trans_prefix, remove_without_t.
      * rewrite Hsort, Hmem. reflexivity.
      * intros Hin. apply (Permutation_in _ Hperm) in Hin.
        destruct (atom_key_cases k Hk)
          as [-> | [-> | [-> | [-> | [-> | [-> | ->]]]]]];
          simpl in Hin; intuition discriminate.
    + symmetry. apply not_true_is_false. intros Hin.
      apply mem_In in Hin.
      assert (Hlen : (String.length
                        (PyStr.join
                           (PyStr.sorted (String.append "trans-" key))) <= 3)%nat).
      { destruct (atom_key_cases _ Hin)
          as [-> | [-> | [-> | [-> | [-> | [-> | ->]]]]]]; simpl; lia. }
      rewrite sorted_length in Hlen. simpl in Hlen. lia.
Qed.

Lemma normalize_key_any_order_witness :
  normalize_key "zyx" = "xyz" /\ normalize_key "trans-zyx" = "trans-xyz".
Proof.
  apply (normalize_key_any_order "zyx" "xyz").
  - apply (Permutation_rev ["z"; "y"; "x"]%char).
  - simpl. tauto.
Defined.

(** ** Witnesses of the checks of the atom indices *)

Lemma checked_families_in_range_witness :
  exists st' o v,
    declaration Sample.ext Sample.molecule
      (with_mode initial_state (Some "freeze")) "trans-xy 2-4" = Ok st'
    /\ objs st' = objs (with_mode initial_state (Some "freeze")) ++ o
    /\ vals st' = vals (with_mode initial_state (Some "freeze")) ++ v
    /\ Forall (Forall (in_range Sample.molecule)) o.
Proof.
  destruct (declaration Sample.ext Sample.molecule
              (with_mode initial_state (Some "freeze")) "trans-xy 2-4")
    as [s|e] eqn:E; [|lazy in E; discriminate E].
  destruct (checked_families_in_range Sample.ext Sample.molecule
              (with_mode initial_state (Some "freeze")) s "trans-xy 2-4"
              "freeze" "trans-xy" eq_refl eq_refl eq_refl E)
    as (o & v & Ho & Hv & Hr).
  exists s, o, v. repeat split; assumption.
Defined.

Lemma rotation_branch_out_of_range_witness :
  rotation_branch Sample.ext Sample.molecule "set"
    ["rotation"; "9-12"; "0"; "0"; "1"; "30"]
    [RotationA; RotationB; RotationC] initial_state = Raise IndexError.
Proof.
  apply (rotation_branch_out_of_range Sample.ext Sample.molecule "set" _ _ _
           "9-12" [8; 9; 10; 11]%Z); try reflexivity.
  right. right. left. simpl. lia.
Defined.

(** ** The custom engine (lines 132-140 and 321-326) *)

(** X20: the custom engine is selected exactly when an engine object is given
    and the engine name is absent or the empty string; an engine object
    given with a name that is not empty is always refused, with the error on
    the valid engine names when the name is not an implemented one, and
    otherwise with the error "engine and customengine cannot simultaneously
    be set". *)
Theorem custom_engine_alone (engine_str : option string)
    (customengine : bool) :
  (Engine.select_engine engine_str customengine = Ok Engine.OnCustom <->
   customengine = true
   /\ (engine_str = None \/ engine_str = Some EmptyString))
  /\ (forall e0 : string,
         e0 <> EmptyString ->
         Engine.select_engine (Some e0) true =
         Raise (RuntimeError
                  (if PyStr.mem (Engine.normalize_engine e0)
                        Engine.implemented_engines
                   then Engine.both_message
                   else Engine.valid_message))).
Proof.
  split.
  - split.
    + intros H. destruct engine_str as [e0|].
      * destruct e0 as [|c e0].
        -- simpl in H. destruct customengine; [|discriminate H].
           split; [reflexivity|right; reflexivity].
        -- exfalso. unfold Engine.select_engine in H.
           change (negb (String.length (String c e0) =? 0)%nat) with true in H.
           cbv beta iota zeta in H.
           repeat match type of H with
                  | (if ?b then _ else _) = _ => destruct b
                  end; discriminate H.
      * simpl in H. destruct customengine; [|discriminate H].
        split; [reflexivity|left; reflexivity].
    + intros [-> [-> | ->]]; reflexivity.
  - intros e0 Hne. destruct e0 as [|c e0]; [contradiction Hne; reflexivity|].
    unfold Engine.select_engine.
    change (negb (String.length (String c e0) =? 0)%nat) with true.
    cbv beta iota zeta.
    destruct (PyStr.mem (Engine.normalize_engine (String c e0))
                Engine.implemented_engines); reflexivity.
Qed.

Lemma custom_engine_alone_witness :
  Engine.select_engine (Some "psi4") true =
  Raise (RuntimeError Engine.both_message)
  /\ Engine.select_engine (Some "orca") true =
     Raise (RuntimeError Engine.valid_message).
Proof.
  split.
  - apply (proj2 (custom_engine_alone None true) "psi4"). discriminate.
  - apply (proj2 (custom_engine_alone None true) "orca"). discriminate.
Defined.

(** ** The value grid of two scans (lines 501-508, 527-532, 555-559, 590-616) *)

Tactic Notation "ok_as" hyp(H) ident(x) ident(Hx) :=
  cbv beta in H;
  match type of H with
  | bind ?m _ = Ok _ =>
      destruct m as [x|] eqn:Hx; cbn [bind] in H; [|discriminate H]
  end.

Lemma nth_error_last {A : Type} (s : list A) (t d : A) :
  nth_error s (List.length s - 1) = Some t -> last s d = t.
Proof.
  induction s as [|x s IH]; [discriminate|].
  destruct s as [|y s'].
  - intros [= <-]. reflexivity.
  - intros H. change (last (x :: y :: s') d) with (last (y :: s') d).
    apply IH. simpl in H. simpl. rewrite Nat.sub_0_r. exact H.
Qed.

Lemma item_last {A : Type} (s : list A) (i : nat) (t d : A) :
  List.length s = S i -> item s i = Ok t -> last s d = t.
Proof.
  intros Hlen H. apply nth_error_last. rewrite Hlen. simpl.
  rewrite Nat.sub_0_r. unfold item in H.
  destruct (nth_error s i); [injection H as <-; reflexivity|discriminate].
Qed.

Lemma one_dimensional_scan_length (x1 x2 : list R) (steps : Z)
    (rows : list (list R)) :
  one_dimensional_scan x1 x2 steps = Ok rows ->
  x1 <> [] ->
  (0 <= steps)%Z /\ List.length rows = Z.to_nat steps.
Proof.
  unfold one_dimensional_scan.
  destruct (List.length x1 =? List.length x2)%nat eqn:Hlen; [|discriminate].
  apply Nat.eqb_eq in Hlen. cbn [negb]. intros H Hne.
  ok_as H cols Hcols. injection H as <-.
  assert (Hall : Forall (fun c => List.length c = Z.to_nat steps) cols).
  { eapply mapM_Forall; [exact Hcols|]. intros p col _. apply linspace_length. }
  destruct x1 as [|a x1]; [contradiction|].
  destruct x2 as [|b x2]; [discriminate|].
  simpl in Hcols. ok_as Hcols c Hc. ok_as Hcols cs Hcs. injection Hcols as <-.
  apply linspace_inv in Hc as [Hpos _]. split; [exact Hpos|].
  rewrite (transpose_rows 0%R (Z.to_nat steps) (c :: cs));
    [|discriminate|exact Hall].
  rewrite length_map, length_seq. reflexivity.
Qed.

Lemma ClassDict_nonempty (key : string) (classes : list CoordClass)
    (n_atom : nat) :
  getitem ClassDict key = Ok (classes, n_atom) ->
  (1 <= List.length classes)%nat.
Proof.
  intros H. apply getitem_In in H. simpl in H.
  repeat (destruct H as [H|H]; [injection H as <- <- <-; simpl; lia|]).
  contradiction.
Qed.

Lemma assign_ntok_scan (key : string) (classes : list CoordClass)
    (n_atom : nat) (old : option nat) :
  assign_ntok "scan" key classes n_atom old =
  Some (if String.eqb key "rotation" then (n_atom + 6)%nat
        else (n_atom + 2 * List.length classes + 1)%nat).
Proof. unfold assign_ntok. destruct (String.eqb key "rotation"); reflexivity. Qed.

(** The group of a scan: under [scan] a declaration of a keyword that
    appends one value group has a step count that is not negative, and the
    group has that many steps. *)
Lemma scan_group_steps (ext : Externals) (molecule : Molecule)
    (st st' : state) (line : string) (m : Z) :
  mode st = Some "scan" ->
  groups_appended "scan" (keyword line) = 1%nat ->
  step_count ext line = Ok m ->
  declaration ext molecule st line = Ok st' ->
  (0 <= m)%Z
  /\ exists grp : list (list value),
       vals st' = vals st ++ [grp] /\ List.length grp = Z.to_nat m.
Proof.
  intros Hmode Hone Hm H. unfold declaration in H. rewrite Hmode in H.
  unfold keyword in Hone. unfold step_count in Hm.
  set (s := PyStr.split line) in *.
  ok_as H key0 Hkey.
  assert (Hhd : hd EmptyString s = key0)
    by (unfold item in Hkey; destruct s; [discriminate|];
        injection Hkey as <-; reflexivity).
  rewrite Hhd in Hone. clear Hhd Hkey.
  remember (normalize_key key0) as key eqn:Heqkey. clear Heqkey key0.
  ok_as H entry Hdict. destruct entry as [classes n_atom].
  rewrite assign_ntok_scan in H.
  set (n := if String.eqb key "rotation" then (n_atom + 6)%nat
            else (n_atom + 2 * List.length classes + 1)%nat) in *.
  destruct (List.length s =? n + 1)%nat eqn:L; [|discriminate].
  apply Nat.eqb_eq in L. cbn [negb] in H.
  unfold groups_appended in Hone. rewrite Hdict in Hone.
  pose proof (ClassDict_nonempty key classes n_atom Hdict) as Hcls.
  destruct (ClassDict_families key classes n_atom Hdict)
    as [(HA & Hna & Hr & _) | [(HA & HT & Hna & Hr & _) | [(HA & HT & HP & Hr)
       | (HA & HT & HP & Hr & _)]]].
  - rewrite HA in H, Hone. cbn [orb] in H. unfold n in L. rewrite Hr in L.
    subst n_atom. rewrite Hone in *.
    ok_as H s1 Hs1. ok_as H atoms Hatoms. ok_as H u Hu.
    unfold atom_branch in H.
    change (String.eqb "scan" "freeze") with false in H.
    change (String.eqb "scan" "set") with false in H.
    change (String.eqb "scan" "scan") with true in H. cbv iota in H.
    rewrite Hone in H.
    ok_as H x1 Hx1. ok_as H x2 Hx2. ok_as H t Ht. ok_as H nstep Hn.
    ok_as H valscan Hscan. ok_as H v Hv. injection H as <-.
    simpl in Hv. ok_as Hv grp Hgrp. injection Hv as <-.
    rewrite (item_last s (2 + 2 * 1)%nat t EmptyString) in Hm;
      [|rewrite L; reflexivity|exact Ht].
    assert (m = nstep) by congruence. subst nstep.
    apply lengths_length in Hx1. rewrite slice_length, L in Hx1.
    destruct (one_dimensional_scan_length x1 x2 m valscan Hscan)
      as [Hpos Hlen]; [intros ->; simpl in Hx1; discriminate|].
    split; [exact Hpos|]. exists grp. split; [reflexivity|].
    apply mapM_length in Hgrp. rewrite <- Hlen. exact Hgrp.
  - rewrite HA, HT in H. cbn [orb] in H. unfold n in L. rewrite Hr in L.
    subst n_atom.
    ok_as H s1 Hs1. ok_as H atoms Hatoms. ok_as H u Hu.
    unfold trans_branch in H. ok_as H o Ho.
    change (String.eqb "scan" "freeze") with false in H.
    change (String.eqb "scan" "set") with false in H.
    change (String.eqb "scan" "scan") with true in H. cbv iota in H.
    ok_as H x1 Hx1. ok_as H x2 Hx2. ok_as H t Ht. ok_as H nstep Hn.
    ok_as H valscan Hscan. injection H as <-.
    rewrite (item_last s (2 + 2 * List.length classes)%nat t EmptyString) in Hm;
      [|rewrite L; lia|exact Ht].
    assert (m = nstep) by congruence. subst nstep.
    apply lengths_length in Hx1. rewrite slice_length, L in Hx1.
    destruct (one_dimensional_scan_length x1 x2 m valscan Hscan)
      as [Hpos Hlen];
      [intros ->; simpl in Hx1; lia|].
    split; [exact Hpos|]. eexists. split; [reflexivity|].
    rewrite length_map. exact Hlen.
  - rewrite HA, HT, HP in H. cbn [orb] in H. unfold n in L. rewrite Hr in L.
    unfold primitive_branch in H.
    destruct (List.length classes =? 1)%nat eqn:Hc; [|discriminate].
    apply Nat.eqb_eq in Hc. rewrite Hc in L. cbn [negb] in H.
    ok_as H atoms Hatoms. ok_as H c Hcan. ok_as H u Hu. ok_as H cls Hclass.
    change (String.eqb "scan" "freeze") with false in H.
    change (PyStr.mem "scan" ["set"; "scan"]) with true in H.
    change (String.eqb "scan" "set") with false in H. cbv iota in H.
    ok_as H t1 Ht1. ok_as H x1 Hx1. ok_as H t2 Ht2. ok_as H x2 Hx2.
    ok_as H t Ht. ok_as H nstep Hn. ok_as H grid Hgrid. injection H as <-.
    rewrite (item_last s (3 + n_atom)%nat t EmptyString) in Hm;
      [|rewrite L; lia|exact Ht].
    assert (m = nstep) by congruence. subst nstep.
    apply linspace_inv in Hgrid as [Hpos ->].
    split; [exact Hpos|]. eexists. split; [reflexivity|].
    rewrite length_map. apply samples_length.
  - subst key. rewrite HA, HT, HP in H. cbn [orb] in H.
    change (PyStr.mem "rotation" ["rotation"]) with true in H. cbv iota in H.
    vm_compute in Hdict. injection Hdict as <- <-.
    change n with 7%nat in L.
    unfold rotation_branch in H.
    ok_as H s1 Hs1. ok_as H atoms Hatoms. ok_as H rg Hrg.
    change (String.eqb "scan" "freeze") with false in H.
    change (PyStr.mem "scan" ["set"; "scan"]) with true in H.
    change (String.eqb "scan" "set") with false in H. cbv iota in H.
    ok_as H u Hu. ok_as H t5 Ht5. ok_as H f1 Hf1. ok_as H t6 Ht6.
    ok_as H f2 Hf2. ok_as H t Ht. ok_as H nstep Hn. ok_as H thetas Hth.
    injection H as <-.
    rewrite (item_last s 7%nat t EmptyString) in Hm;
      [|rewrite L; reflexivity|exact Ht].
    assert (m = nstep) by congruence. subst nstep.
    apply linspace_inv in Hth as [Hpos ->].
    split; [exact Hpos|]. eexists. split; [reflexivity|].
    rewrite length_map. apply samples_length.
Qed.

(** Effective lines without a declaration leave the groups as they are. *)
Lemma declarations_none (ext : Externals) (molecule : Molecule)
    (ts : list string) :
  forall (st st' : state) (md : option string),
    declarations md ts = [] ->
    run_effective ext molecule st ts = Ok st' ->
    objs st' = objs st /\ vals st' = vals st.
Proof.
  induction ts as [|t ts IH]; intros st st' md Hd H; simpl in Hd, H.
  - injection H as <-. split; reflexivity.
  - unfold effective_step in H.
    destruct (PyStr.startswith t "$"); [|discriminate Hd].
    cbn [bind] in H. apply (IH _ _ _ Hd) in H. exact H.
Qed.

(** The loop over the effective lines reaches each declaration under the
    mode that the markers before it have set. *)
Lemma declarations_first (ext : Externals) (molecule : Molecule)
    (ts : list string) :
  forall (st st' : state) (md1 : option string) (l1 : string)
         (ds : list (option string * string)),
    declarations (mode st) ts = (md1, l1) :: ds ->
    run_effective ext molecule st ts = Ok st' ->
    exists (sa sb : state) (ts' : list string),
      mode sa = md1 /\ objs sa = objs st /\ vals sa = vals st
      /\ declaration ext molecule sa l1 = Ok sb
      /\ declarations (mode sb) ts' = ds
      /\ run_effective ext molecule sb ts' = Ok st'.
Proof.
  induction ts as [|t ts IH]; intros st st' md1 l1 ds Hd H; simpl in Hd, H;
    [discriminate Hd|].
  unfold effective_step in H.
  destruct (PyStr.startswith t "$").
  - cbn [bind] in H.
    destruct (IH (with_mode st (Some (PyStr.remove "$" t))) st' md1 l1 ds
                Hd H) as (sa & sb & ts' & H1 & H2 & H3 & H4).
    exists sa, sb, ts'. repeat split; try assumption; apply H4.
  - injection Hd as <- <- <-. ok_as H sb Hsb.
    exists st, sb, ts. repeat split; try assumption.
    destruct (mode st) as [md|] eqn:Hm;
      [|unfold declaration in Hsb; rewrite Hm in Hsb; discriminate].
    destruct (declaration_steps ext molecule st sb t md Hm Hsb) as [-> _].
    reflexivity.
Qed.

(** C1, as amended: the returned grid is the cartesian product, in the order
    of [itertools.product] (first group slowest), of the value groups that
    the declarations appended, each row being the concatenation of one step
    of each group and having one value for each object of the flattened
    list.  A declaration under a known mode appends one group, except an
    atom position declaration and a frozen rotation, which append one group
    for each coordinate class.  A scan declaration that appends one group,
    which is every keyword but [xy], [xz], [yz] and [xyz], has its step
    count as last token and appends a group of exactly that many steps.  So
    when the declarations of an input are two such scan declarations with
    [m] and [n] steps, the grid has exactly [m * n] rows and the row of
    index [i * n + j] joins step [i] of the first declaration and step [j]
    of the second. *)
Theorem value_grid_cartesian (ext : Externals) (molecule : Molecule) :
  (forall (constraints_string : string) (o : list CoordObj)
          (g : list (list value)),
      parse_constraints ext molecule constraints_string = Ok (o, g) ->
      exists st : state,
        run ext molecule initial_state
          (PyStr.split_char (ascii_of_nat 10) constraints_string) = Ok st
        /\ o = Itertools.chain (objs st)
        /\ g = map (fun r => Itertools.chain r) (cartesian (vals st))
        /\ List.length g =
           fold_right (fun p n => (List.length p * n)%nat) 1%nat (vals st)
        /\ (forall row, In row g -> List.length row = List.length o))
  /\ (forall (st st' : state) (line md key0 : string),
        mode st = Some md -> known_mode md = true ->
        item (PyStr.split line) 0 = Ok key0 ->
        declaration ext molecule st line = Ok st' ->
        exists o v,
          objs st' = objs st ++ o /\ vals st' = vals st ++ v
          /\ List.length v = groups_appended md (normalize_key key0))
  /\ (forall (st st' : state) (line : string) (m : Z),
        mode st = Some "scan" ->
        groups_appended "scan" (keyword line) = 1%nat ->
        step_count ext line = Ok m ->
        declaration ext molecule st line = Ok st' ->
        (0 <= m)%Z
        /\ exists grp : list (list value),
             vals st' = vals st ++ [grp] /\ List.length grp = Z.to_nat m)
  /\ (forall (constraints_string l1 l2 : string) (m n : Z)
             (o : list CoordObj) (g : list (list value)),
        declarations None
          (effective_lines false
             (PyStr.split_char (ascii_of_nat 10) constraints_string)) =
        [(Some "scan", l1); (Some "scan", l2)] ->
        groups_appended "scan" (keyword l1) = 1%nat ->
        groups_appended "scan" (keyword l2) = 1%nat ->
        step_count ext l1 = Ok m ->
        step_count ext l2 = Ok n ->
        parse_constraints ext molecule constraints_string = Ok (o, g) ->
        (0 <= m)%Z /\ (0 <= n)%Z
        /\ List.length g = (Z.to_nat m * Z.to_nat n)%nat
        /\ exists g1 g2 : list (list value),
             List.length g1 = Z.to_nat m /\ List.length g2 = Z.to_nat n
             /\ g = map (fun r => Itertools.chain r) (cartesian [g1; g2])
             /\ forall i j,
                  (i < Z.to_nat m)%nat -> (j < Z.to_nat n)%nat ->
                  nth (i * Z.to_nat n + j) g [] =
                  nth i g1 [] ++ nth j g2 []).
Proof.
  split; [|split; [|split]].
  - intros input o g H. unfold parse_constraints, parse_lines in H.
    ok_inv H. rename a into st. exists st. split; [reflexivity|].
    unfold finish in H.
    destruct (List.length (objs st) =? List.length (vals st))%nat eqn:Hlen;
      [|discriminate].
    apply Nat.eqb_eq in Hlen. cbn [negb] in H.
    rewrite product_cartesian in H. injection H as <- <-.
    assert (Hal : aligned (objs st) (vals st)).
    { destruct (run_consistent ext molecule _ _ _ initial_consistent E)
        as [Hal|Hlt]; [exact Hal|lia]. }
    split; [reflexivity|]. split; [reflexivity|].
    split; [rewrite length_map; apply cartesian_length|].
    apply aligned_row_length; exact Hal.
  - intros st st' line md key0 Hmode Hknown Hkey H.
    destruct (declaration_appends ext molecule st st' line md key0
                Hmode Hkey H) as (n & o & v & -> & [(_ & _ & Hn) | (Hu & _)]).
    + exists o, v. repeat split; assumption.
    + congruence.
  - intros st st' line m. apply scan_group_steps.
  - intros input l1 l2 m n o g Hd H1 H2 Hm Hn H.
    unfold parse_constraints in H.
    destruct (parse_lines_effective ext molecule _ o g H)
      as (st & Hrun & _ & -> & ->).
    destruct (declarations_first ext molecule _
                (with_in_options initial_state false) st _ _ _ Hd Hrun)
      as (sa & sb & ts1 & Hma & _ & Hva & Hda & Hd1 & Hr1).
    destruct (declarations_first ext molecule ts1 sb st _ _ _ Hd1 Hr1)
      as (sc & sd & ts2 & Hmc & _ & Hvc & Hdc & Hd2 & Hr2).
    destruct (declarations_none ext molecule _ _ _ _ Hd2 Hr2) as [_ Hvf].
    destruct (scan_group_steps ext molecule sa sb l1 m Hma H1 Hm Hda)
      as (Hpm & g1 & Hg1 & Hl1).
    destruct (scan_group_steps ext molecule sc sd l2 n Hmc H2 Hn Hdc)
      as (Hpn & g2 & Hg2 & Hl2).
    assert (Hv : vals st = [g1; g2]).
    { rewrite Hvf, Hg2, Hvc, Hg1, Hva. reflexivity. }
    rewrite Hv. split; [exact Hpm|]. split; [exact Hpn|].
    split; [rewrite length_map, cartesian_length; simpl; lia|].
    exists g1, g2. split; [exact Hl1|]. split; [exact Hl2|].
    split; [reflexivity|].
    intros i j Hi Hj. rewrite <- Hl2. apply cartesian_two; lia.
Qed.

Lemma value_grid_cartesian_witness :
  exists (o : list CoordObj) (g : list (list value)),
    parse_constraints Sample.ext Sample.molecule
      (Sample.lines ["$scan"; "distance 1 2 1.0 2.0 2";
                     "trans-xy 3 0 0 1 1 3"]) = Ok (o, g)
    /\ List.length g = 6%nat
    /\ (forall row, In row g -> List.length row = List.length o).
Proof.
  destruct (parse_constraints Sample.ext Sample.molecule
              (Sample.lines ["$scan"; "distance 1 2 1.0 2.0 2";
                             "trans-xy 3 0 0 1 1 3"]))
    as [[o g]|e] eqn:E.
  - exists o, g. split; [reflexivity|].
    destruct (proj1 (value_grid_cartesian Sample.ext Sample.molecule)
                _ o g E) as (st & _ & _ & _ & _ & Hrows).
    split; [|exact Hrows].
    destruct (proj2 (proj2 (proj2
                (value_grid_cartesian Sample.ext Sample.molecule)))
                (Sample.lines ["$scan"; "distance 1 2 1.0 2.0 2";
                               "trans-xy 3 0 0 1 1 3"])
                "distance 1 2 1.0 2.0 2" "trans-xy 3 0 0 1 1 3" 2%Z 3%Z o g
                eq_refl eq_refl eq_refl eq_refl eq_refl E)
      as (_ & _ & Hlen & _).
    exact Hlen.
  - lazy in E. discriminate E.
Defined.

(** C1, as stated, fails for an atom position scan over several axes: the
    declarations [xy] with 2 steps and [distance] with 3 steps give 12 rows
    and not 6, because [xy] appends one value group for each of its two
    coordinate classes. *)
Lemma value_grid_axis_groups :
  match parse_constraints Sample.ext Sample.molecule
          (Sample.lines ["$scan"; "xy 1 0 0 1 1 2";
                         "distance 1 2 1.0 2.0 3"]) with
  | Ok (_, g) => List.length g = 12%nat
  | Raise _ => False
  end
  /\ 12%nat <> (2 * 3)%nat.
Proof. split; [lazy; reflexivity|lia]. Qed.
